(** * BSDPy: a shallow embedding of [bsdpserver.py]

    The development follows the layout of the Python module: the helpers
    that stand for Python built-ins and for the few pydhcplib calls the
    server makes, then [chaddr_to_mac], [getSysIdEntitlement],
    [doEntitlementPostProcessing], [parseOptions], [ack] and the body of
    the receive loop of [main], and last [find] and [getNbiOptions] with
    the directory tree they walk.

    Python integers that the server handles are never negative (bytes of a
    packet, lengths, image indices), so they are values of [N].  Python
    [str] values are [string]; a pydhcplib option value (a list of ints)
    is a [list N].  A Python dict used as a map is a [gmap]. *)

From Stdlib Require Import NArith String Ascii HexadecimalN.
From stdpp Require Import base option list strings gmap.

Local Open Scope string_scope.
Local Open Scope list_scope.
Local Open Scope N_scope.

(** ** Exceptions *)

(** The exceptions the modelled code can raise.  [IOError] stands for any
    failure of the network lookups the server delegates to the outside
    world (the catalog API, DNS). *)
Inductive exn : Set :=
  | IndexError
  | KeyError
  | ValueError
  | TypeError
  | IOError.

Inductive result (A : Type) : Type :=
  | Ok (a : A)
  | Raise (e : exn).
Arguments Ok {A} a.
Arguments Raise {A} e.

#[global] Instance result_ret : MRet result := fun _ a => Ok a.
#[global] Instance result_bind : MBind result := fun _ _ f m =>
  match m with
  | Ok a => f a
  | Raise e => Raise e
  end.

(** [l[i]] on a Python list. *)
Definition getitem {A} (l : list A) (i : N) : result A :=
  match l !! N.to_nat i with
  | Some x => Ok x
  | None => Raise IndexError
  end.

(** [d[k]] on a Python dict. *)
Definition dict_get `{Countable K} {A} (d : gmap K A) (k : K) : result A :=
  match d !! k with
  | Some x => Ok x
  | None => Raise KeyError
  end.

(** [len(l)]. *)
Definition len {A} (l : list A) : N := N.of_nat (length l).

(** [l[a:b]] for [0 <= a]. *)
Definition slice {A} (l : list A) (a b : N) : list A :=
  take (N.to_nat (b - a)) (drop (N.to_nat a) l).

(** ** Hexadecimal text *)

(** The digits of a number, most significant first, as Python prints them
    with the [x] (lower case) and [X] (upper case) conversions. *)
Fixpoint hex_string (upper : bool) (d : Hexadecimal.uint) : string :=
  let alpha (lo up : ascii) := if upper then up else lo in
  match d with
  | Hexadecimal.Nil => ""
  | Hexadecimal.D0 d => String "0" (hex_string upper d)
  | Hexadecimal.D1 d => String "1" (hex_string upper d)
  | Hexadecimal.D2 d => String "2" (hex_string upper d)
  | Hexadecimal.D3 d => String "3" (hex_string upper d)
  | Hexadecimal.D4 d => String "4" (hex_string upper d)
  | Hexadecimal.D5 d => String "5" (hex_string upper d)
  | Hexadecimal.D6 d => String "6" (hex_string upper d)
  | Hexadecimal.D7 d => String "7" (hex_string upper d)
  | Hexadecimal.D8 d => String "8" (hex_string upper d)
  | Hexadecimal.D9 d => String "9" (hex_string upper d)
  | Hexadecimal.Da d => String (alpha "a" "A")%char (hex_string upper d)
  | Hexadecimal.Db d => String (alpha "b" "B")%char (hex_string upper d)
  | Hexadecimal.Dc d => String (alpha "c" "C")%char (hex_string upper d)
  | Hexadecimal.Dd d => String (alpha "d" "D")%char (hex_string upper d)
  | Hexadecimal.De d => String (alpha "e" "E")%char (hex_string upper d)
  | Hexadecimal.Df d => String (alpha "f" "F")%char (hex_string upper d)
  end.

(** [format(n, 'x')], which is also [hex(n)[2:]] for a plain int: no
    padding, so a value below 16 is a single digit. *)
Definition format_x (n : N) : string := hex_string false (N.to_hex_uint n).

(** [s.rjust(width, '0')]: the zero padding of the [%0wX] conversions. *)
Definition zero_pad (width : nat) (s : string) : string :=
  (String.concat "" (replicate (width - String.length s)%nat "0") ++ s)%string.

(** ['%04X' % n] and ['%02X' % n]. *)
Definition percent_0X (width : nat) (n : N) : string :=
  zero_pad width (hex_string true (N.to_hex_uint n)).

(** The value of one hexadecimal digit, in either case. *)
Definition hex_value (c : ascii) : option N :=
  let n := N_of_ascii c in
  if (48 <=? n) && (n <=? 57) then Some (n - 48)
  else if (97 <=? n) && (n <=? 102) then Some (n - 87)
  else if (65 <=? n) && (n <=? 70) then Some (n - 55)
  else None.

Fixpoint int16_from (acc : N) (s : string) : result N :=
  match s with
  | "" => Ok acc
  | String c s' =>
      match hex_value c with
      | Some d => int16_from (16 * acc + d) s'
      | None => Raise ValueError
      end
  end.

(** [int(s, 16)] on the digit strings the server builds; the empty string
    and any other character raise [ValueError]. *)
Definition int16 (s : string) : result N :=
  match s with
  | "" => Raise ValueError
  | _ => int16_from 0 s
  end.

(** [[s[i:i+2] for i in range(0, len(s), 2)]]. *)
Fixpoint slices2 (s : string) : list string :=
  match s with
  | "" => []
  | String a "" => [String a ""]
  | String a (String b rest) => String a (String b "") :: slices2 rest
  end.

(** [[int(s[i:i+n], 16) for i in range(0, len(s), n)]] with [n = 2]. *)
Definition hex_pairs (s : string) : result (list N) := mapM int16 (slices2 s).

(** ** Strings *)

(** [sep.join(l)]. *)
Definition join (sep : string) (l : list string) : string := String.concat sep l.

Fixpoint split_from (sep : ascii) (cur : string) (s : string) : list string :=
  match s with
  | "" => [String.rev cur]
  | String c s' =>
      if Ascii.eqb c sep then String.rev cur :: split_from sep "" s'
      else split_from sep (String c cur) s'
  end.

(** [s.split(sep)] for a one-character separator. *)
Definition split (sep : ascii) (s : string) : list string := split_from sep "" s.

(** [s.ljust(width, fill)]. *)
Definition ljust (width : nat) (fill : ascii) (s : string) : string :=
  (s ++ String.concat "" (replicate (width - String.length s)%nat (String fill "")))%string.

(** ** pydhcplib's [strlist] and [ipv4] *)

(** The script imports these two classes from the pydhcplib package; what
    follows is the part of their behaviour [ack] relies on: the
    conversions between [str] and lists of character codes, and the
    checks their constructors make on a list. *)

(** [strlist(s).list()] for a [str]: the character codes. *)
Definition strlist_of_str (s : string) : list N :=
  N_of_ascii <$> list_ascii_of_string s.

(** [strlist(l).list()] for a list of ints: the constructor builds the
    string with [chr], which raises [ValueError] outside [range(256)]. *)
Definition strlist_of_list (l : list N) : result (list N) :=
  if forallb (fun x => x <? 256) l then Ok l else Raise ValueError.

(** [str(strlist(l))]. *)
Definition str_of_list (l : list N) : result string :=
  l' ← strlist_of_list l;
  Ok (string_of_list_ascii (ascii_of_N <$> l')).

(** [ipv4(l)] for a list: four numbers below 256, or [ValueError]. *)
Definition ipv4 (l : list N) : result (list N) :=
  if (length l =? 4)%nat && forallb (fun x => x <=? 255) l then Ok l
  else Raise ValueError.

(** ** The BSDP option table *)

Definition bsdpoptioncodes : gmap N string :=
  list_to_map
    [ (1, "message_type");
      (2, "version");
      (3, "server_identifier");
      (4, "server_priority");
      (5, "reply_port");
      (6, "image_icon_unused");
      (7, "default_boot_image");
      (8, "selected_boot_image");
      (9, "boot_image_list");
      (10, "netboot_v1");
      (11, "boot_image_attributes");
      (12, "max_message_size") ].

(** ** [chaddr_to_mac] *)

Definition chaddr_to_mac (chaddr : list N) : string :=
  join ":" (format_x <$> slice chaddr 0 6).

(** ** Boot image records *)

(** One entry of [nbioptions], the dict [getNbiOptions] builds from an
    [NBImageInfo.plist] (or [getNbiFromApi] from an API record).  The
    [dmg] key is absent for images of type [BootFileOnly]. *)
Record nbi : Type := {
  nbi_id : N;
  nbi_booter : string;
  nbi_description : string;
  nbi_disabledsysids : list string;
  nbi_dmg : option string;
  nbi_enabledmacaddrs : list string;
  nbi_enabledsysids : list string;
  nbi_isdefault : bool;
  nbi_length : N;
  nbi_name : string;
  nbi_proto : string
}.

(** ** Module-level state *)

(** The globals [doEntitlementPostProcessing] declares and assigns.  At
    import time they are [0], [False] and [[]]. *)
Record globals : Type := {
  defaultnbi : N;
  hasdefault : bool;
  imagenameslist : list N
}.

Definition initial_globals : globals :=
  {| defaultnbi := 0; hasdefault := false; imagenameslist := [] |}.

(** Code that reads and writes the globals and may raise: an exception
    leaves the assignments made before it in place. *)
Definition M (A : Type) : Type := globals -> result A * globals.

#[global] Instance M_ret : MRet M := fun _ a g => (Ok a, g).
#[global] Instance M_bind : MBind M := fun _ _ f m g =>
  match m g with
  | (Ok a, g') => f a g'
  | (Raise e, g') => (Raise e, g')
  end.

Definition lift {A} (r : result A) : M A := fun g => (r, g).
Definition get : M globals := fun g => (Ok g, g).
Definition put (g : globals) : M unit := fun _ => (Ok tt, g).

(** [for x in l: body(x)]. *)
Fixpoint for_each {A} (body : A -> M unit) (l : list A) : M unit :=
  match l with
  | [] => mret tt
  | x :: l' => body x ≫= fun _ => for_each body l'
  end.

(** ** [getSysIdEntitlement] *)

(** The body of the loop over [nbisources]: [true] when [thisnbi] is
    appended to [nbientitlements]. *)
Definition entitles (clientsysid clientmacaddr : string) (thisnbi : nbi) : bool :=
  let hasdupes :=
    bool_decide (clientsysid ∈ nbi_disabledsysids thisnbi) &&
    bool_decide (clientsysid ∈ nbi_enabledsysids thisnbi) in
  if negb hasdupes then
    if negb (bool_decide (nbi_enabledmacaddrs thisnbi = [])) &&
       negb (bool_decide (clientmacaddr ∈ nbi_enabledmacaddrs thisnbi))
    then false
    else if (len (nbi_disabledsysids thisnbi) =? 0) &&
            (len (nbi_enabledsysids thisnbi) =? 0)
    then true
    else if bool_decide (clientsysid ∈ nbi_disabledsysids thisnbi)
    then false
    else if negb (bool_decide (clientsysid ∈ nbi_enabledsysids thisnbi)) ||
            (bool_decide (clientsysid ∈ nbi_enabledsysids thisnbi) &&
             negb (bool_decide (clientsysid ∈ nbi_disabledsysids thisnbi)))
    then true
    else false
  else false.

Fixpoint nbientitlements (nbisources : list nbi) (clientsysid clientmacaddr : string)
    : list nbi :=
  match nbisources with
  | [] => []
  | thisnbi :: rest =>
      if entitles clientsysid clientmacaddr thisnbi
      then thisnbi :: nbientitlements rest clientsysid clientmacaddr
      else nbientitlements rest clientsysid clientmacaddr
  end.

(** ** [doEntitlementPostProcessing] *)

(** The two branches that assign [defaultnbi] and [hasdefault]. *)
Definition update_default (image : nbi) (g : globals) : globals :=
  if nbi_isdefault image then
    if defaultnbi g <? nbi_id image then
      {| defaultnbi := nbi_id image; hasdefault := true;
         imagenameslist := imagenameslist g |}
    else g
  else if negb (hasdefault g) then
    if defaultnbi g <? nbi_id image then
      {| defaultnbi := nbi_id image; hasdefault := hasdefault g;
         imagenameslist := imagenameslist g |}
    else g
  else g.

(** The entry one image adds to [imagenameslist]. *)
Definition image_entry (image : nbi) : result (list N) :=
  imageid ← hex_pairs (percent_0X 4 (nbi_id image));
  Ok ([129; 0] ++ imageid ++ [nbi_length image] ++ strlist_of_str (nbi_name image)).

Definition post_process_image (image : nbi) : M unit :=
  g ← get;
  put (update_default image g) ;;
  entry ← lift (image_entry image);
  g ← get;
  put {| defaultnbi := defaultnbi g; hasdefault := hasdefault g;
         imagenameslist := imagenameslist g ++ entry |}.

Definition doEntitlementPostProcessing (nbientitlements : list nbi) : M (list nbi) :=
  g ← get;
  put {| defaultnbi := defaultnbi g; hasdefault := hasdefault g;
         imagenameslist := [] |} ;;
  for_each post_process_image nbientitlements ;;
  mret nbientitlements.

Definition getSysIdEntitlement (nbisources : list nbi)
    (clientsysid clientmacaddr : string) : M (list nbi) :=
  doEntitlementPostProcessing (nbientitlements nbisources clientsysid clientmacaddr).

(** ** [parseOptions] *)

(** The [while pointer < len(bsdpoptions)] loop.  Every round moves
    [pointer] forward by at least two, so [fuel] rounds with
    [fuel > len(bsdpoptions)] always suffice ([scan_options_fuel]). *)
Fixpoint scan_options (fuel : nat) (bsdpoptions : list N) (pointer : N)
    (msgtypes : gmap string (N * N)) : result (gmap string (N * N)) :=
  match fuel with
  | O => Ok msgtypes
  | S fuel' =>
      if pointer <? len bsdpoptions then
        let start := pointer in
        let length := pointer + 1 in
        optionlength ← getitem bsdpoptions length;
        let pointer := optionlength + length + 1 in
        code ← getitem bsdpoptions start;
        name ← dict_get bsdpoptioncodes code;
        scan_options fuel' bsdpoptions pointer
          (<[name := (length + 1, optionlength)]> msgtypes)
      else Ok msgtypes
  end.

Definition parseOptions (bsdpoptions : list N) : result (gmap string (list N)) :=
  match scan_options (S (length bsdpoptions)) bsdpoptions 0 ∅ with
  | Raise e => Raise e
  | Ok msgtypes =>
      Ok ((fun values : N * N =>
             let start := values.1 in
             let end_ := start + values.2 in
             slice bsdpoptions start end_) <$> msgtypes)
  end.

(** ** Packets *)

(** What [packet.GetOption] returns for the fields and options the server
    reads; an option the packet does not carry reads as [[]]. *)
Record DhcpPacket : Type := {
  htype : list N;
  hlen : list N;
  xid : list N;
  ciaddr : list N;
  chaddr : list N;
  vendor_class_identifier : list N;
  request_ip_address : list N;
  vendor_encapsulated_options : list N
}.

(** The values [ack] passes to [bsdpack.SetOption]; [None] for an option
    it does not set. *)
Record BsdpAck : Type := {
  ack_op : list N;
  ack_htype : list N;
  ack_hlen : list N;
  ack_xid : list N;
  ack_ciaddr : list N;
  ack_siaddr : list N;
  ack_yiaddr : list N;
  ack_sname : list N;
  ack_chaddr : list N;
  ack_dhcp_message_type : list N;
  ack_server_identifier : list N;
  ack_vendor_class_identifier : list N;
  ack_file : option (list N);
  ack_root_path : option (list N);
  ack_vendor_encapsulated_options : option (list N)
}.

(** [bsdpack.SetOption(name, value)] for the three options that differ
    between the replies. *)
Definition SetOption_file (bsdpack : BsdpAck) (value : list N) : BsdpAck :=
  {| ack_op := ack_op bsdpack;
     ack_htype := ack_htype bsdpack;
     ack_hlen := ack_hlen bsdpack;
     ack_xid := ack_xid bsdpack;
     ack_ciaddr := ack_ciaddr bsdpack;
     ack_siaddr := ack_siaddr bsdpack;
     ack_yiaddr := ack_yiaddr bsdpack;
     ack_sname := ack_sname bsdpack;
     ack_chaddr := ack_chaddr bsdpack;
     ack_dhcp_message_type := ack_dhcp_message_type bsdpack;
     ack_server_identifier := ack_server_identifier bsdpack;
     ack_vendor_class_identifier := ack_vendor_class_identifier bsdpack;
     ack_file := Some value;
     ack_root_path := ack_root_path bsdpack;
     ack_vendor_encapsulated_options := ack_vendor_encapsulated_options bsdpack |}.

Definition SetOption_root_path (bsdpack : BsdpAck) (value : list N) : BsdpAck :=
  {| ack_op := ack_op bsdpack;
     ack_htype := ack_htype bsdpack;
     ack_hlen := ack_hlen bsdpack;
     ack_xid := ack_xid bsdpack;
     ack_ciaddr := ack_ciaddr bsdpack;
     ack_siaddr := ack_siaddr bsdpack;
     ack_yiaddr := ack_yiaddr bsdpack;
     ack_sname := ack_sname bsdpack;
     ack_chaddr := ack_chaddr bsdpack;
     ack_dhcp_message_type := ack_dhcp_message_type bsdpack;
     ack_server_identifier := ack_server_identifier bsdpack;
     ack_vendor_class_identifier := ack_vendor_class_identifier bsdpack;
     ack_file := ack_file bsdpack;
     ack_root_path := Some value;
     ack_vendor_encapsulated_options := ack_vendor_encapsulated_options bsdpack |}.

Definition SetOption_vendor_encapsulated_options (bsdpack : BsdpAck)
    (value : list N) : BsdpAck :=
  {| ack_op := ack_op bsdpack;
     ack_htype := ack_htype bsdpack;
     ack_hlen := ack_hlen bsdpack;
     ack_xid := ack_xid bsdpack;
     ack_ciaddr := ack_ciaddr bsdpack;
     ack_siaddr := ack_siaddr bsdpack;
     ack_yiaddr := ack_yiaddr bsdpack;
     ack_sname := ack_sname bsdpack;
     ack_chaddr := ack_chaddr bsdpack;
     ack_dhcp_message_type := ack_dhcp_message_type bsdpack;
     ack_server_identifier := ack_server_identifier bsdpack;
     ack_vendor_class_identifier := ack_vendor_class_identifier bsdpack;
     ack_file := ack_file bsdpack;
     ack_root_path := ack_root_path bsdpack;
     ack_vendor_encapsulated_options := Some value |}.

(** ** Server configuration and the outside world *)

(** The module-level values fixed at start-up, and the catalog
    [nbiimages] that only [scan_nbis] replaces.  [serverpriority] is the
    two-element list [[randint(1,255), randint(1,255)]]. *)
Record server : Type := {
  serverpriority : N * N;
  serverip : list N;
  serverhostname : string;
  basedmgpath : string;
  useapiurl : bool;
  nbiimages : list nbi
}.

(** What the network answers while one packet is handled.
    [getNbiFromApi mac model ip] is the catalog API's answer to the query
    [{'mac_address': mac, 'model_name': model, 'ip_address': ip}].
    [refreshed_basedmgpath] is the outcome of the guarded call of
    [getBaseDmgPath] in the SELECT branch: [Ok None] when [nbiurl] is not
    defined ([NameError], passed) or the guard is false, [Ok (Some p)]
    when the call returns [p], [Raise e] when it raises. *)
Record world : Type := {
  getNbiFromApi : string -> string -> list N -> result (list nbi);
  refreshed_basedmgpath : result (option string)
}.

Inductive msgtype : Set := list_msg | select_msg.

(** ** [ack] *)

(** [except:] clause of the common part: its [logging.debug] call formats
    a two-place string with a single argument, so the handler itself
    raises [TypeError] in place of the exception it caught. *)
Definition except_common {A} (m : M A) : M A := fun g =>
  match m g with
  | (Raise _, g') => (Raise TypeError, g')
  | r => r
  end.

Definition replyport_of (bsdpoptions : gmap string (list N)) : result N :=
  match bsdpoptions !! "reply_port" with
  | Some reply_port =>
      hi ← getitem reply_port 0;
      lo ← getitem reply_port 1;
      int16 (format_x hi ++ format_x lo)%string
  | None => Ok 68
  end.

(** The options set for both message types. *)
Definition common_reply (srv : server) (packet : DhcpPacket) : BsdpAck :=
  {| ack_op := [2];
     ack_htype := htype packet;
     ack_hlen := hlen packet;
     ack_xid := xid packet;
     ack_ciaddr := ciaddr packet;
     ack_siaddr := serverip srv;
     ack_yiaddr := [0; 0; 0; 0];
     ack_sname := strlist_of_str (ljust 64 "000" (serverhostname srv));
     ack_chaddr := chaddr packet;
     ack_dhcp_message_type := [5];
     ack_server_identifier := serverip srv;
     ack_vendor_class_identifier := strlist_of_str "AAPLBSDPC";
     ack_file := None;
     ack_root_path := None;
     ack_vendor_encapsulated_options := None |}.

(** [vendor_encapsulated_options] of a BSDP[LIST] reply. *)
Definition compiledlistpacket (srv : server) (enablednbis : list nbi)
    (defaultnbi : option N) (imagenameslist : list N) : result (list N) :=
  let nameslength := fold_left (fun acc i => acc + nbi_length i) enablednbis 0 in
  let totallength := len enablednbis * 5 + nameslength in
  let bsdpimagelist := [9; totallength] ++ imagenameslist in
  defaultnbi ← match defaultnbi with
               | Some d => Ok (percent_0X 4 d)
               | None => Raise TypeError
               end;
  ids ← hex_pairs defaultnbi;
  let defaultnbi := [7; 4; 129; 0] ++ ids in
  let hasnulldefault :=
    match last defaultnbi with
    | Some 0 => true
    | _ => false
    end in
  head ← strlist_of_list
           ([1; 1; 1; 4; 2] ++ [(serverpriority srv).1; (serverpriority srv).2]);
  dflt ← (if negb hasnulldefault then strlist_of_list defaultnbi else Ok []);
  images ← strlist_of_list bsdpimagelist;
  Ok (head ++ dflt ++ images).

(** The loop over [enablednbis] of the SELECT branch, on the triple
    [(booterfile, rootpath, selectedimage)]. *)
Definition select_image (srv : server) (basedmgpath : string) (imageid : N)
    (selected_boot_image : list N) (acc : string * string * list N)
    (nbidict : nbi) : result (string * string * list N) :=
  let '(booterfile, rootpath, selectedimage) := acc in
  if nbi_id nbidict =? imageid then
    let booterfile := nbi_booter nbidict in
    if useapiurl srv then
      match nbi_dmg nbidict with
      | Some dmg => Ok (booterfile, dmg, selected_boot_image)
      | None => Raise KeyError
      end
    else
      match nbi_dmg nbidict with
      | Some dmg => Ok (booterfile, (basedmgpath ++ dmg)%string, selected_boot_image)
      | None => Ok (booterfile, rootpath, selectedimage)
      end
  else Ok acc.

Fixpoint select_images (srv : server) (basedmgpath : string) (imageid : N)
    (selected_boot_image : list N) (acc : string * string * list N)
    (enablednbis : list nbi) : result (string * string * list N) :=
  match enablednbis with
  | [] => Ok acc
  | nbidict :: rest =>
      acc ← select_image srv basedmgpath imageid selected_boot_image acc nbidict;
      select_images srv basedmgpath imageid selected_boot_image acc rest
  end.

(** The SELECT branch, from the common reply to the finished packet. *)
Definition select_reply (srv : server) (w : world) (bsdpack : BsdpAck)
    (bsdpoptions : gmap string (list N)) (enablednbis : list nbi) : result BsdpAck :=
  selected_boot_image ← dict_get bsdpoptions "selected_boot_image";
  b2 ← getitem selected_boot_image 2;
  b3 ← getitem selected_boot_image 3;
  imageid ← int16 (percent_0X 2 b2 ++ percent_0X 2 b3)%string;
  refreshed ← refreshed_basedmgpath w;
  let basedmgpath := default (basedmgpath srv) refreshed in
  '(booterfile, rootpath, selectedimage) ←
    select_images srv basedmgpath imageid selected_boot_image ("", "", []) enablednbis;
  let bsdpack := SetOption_file bsdpack (strlist_of_str (ljust 128 "000" booterfile)) in
  let bsdpack := SetOption_root_path bsdpack (strlist_of_str rootpath) in
  options ← strlist_of_list ([1; 1; 2; 8; 4] ++ selectedimage);
  Ok (SetOption_vendor_encapsulated_options bsdpack options).

(** The BSDP[LIST] branch. *)
Definition list_reply (srv : server) (bsdpack : BsdpAck) (enablednbis : list nbi)
    (defaultnbi : option N) (imagenameslist : list N) : result BsdpAck :=
  options ← compiledlistpacket srv enablednbis defaultnbi imagenameslist;
  Ok (SetOption_vendor_encapsulated_options bsdpack options).

(** The pieces of the first [try] block of [ack]. *)
Definition clientsysid_of (packet : DhcpPacket) : result string :=
  s ← str_of_list (vendor_class_identifier packet);
  getitem (split "/" s) 2.

Definition clientip_of (packet : DhcpPacket) : result (list N) :=
  clientip ← ipv4 (ciaddr packet);
  if bool_decide (clientip = [0; 0; 0; 0])
  then ipv4 (request_ip_address packet)
  else Ok clientip.

Definition enablednbis_for (srv : server) (w : world)
    (clientsysid clientmacaddr : string) (clientip : list N) : M (list nbi) :=
  if useapiurl srv then
    apientitlements ← lift (getNbiFromApi w clientmacaddr clientsysid clientip);
    doEntitlementPostProcessing apientitlements
  else getSysIdEntitlement (nbiimages srv) clientsysid clientmacaddr.

(** The first [try] block of [ack]: client identity, BSDP options,
    entitlements and reply port. *)
Definition ack_common (srv : server) (w : world) (packet : DhcpPacket)
    : M (string * list N * gmap string (list N) * list nbi * N) :=
  except_common (
    clientsysid ← lift (clientsysid_of packet);
    let clientmacaddr := chaddr_to_mac (chaddr packet) in
    clientip ← lift (clientip_of packet);
    bsdpoptions ← lift (parseOptions (vendor_encapsulated_options packet));
    enablednbis ← enablednbis_for srv w clientsysid clientmacaddr clientip;
    replyport ← lift (replyport_of bsdpoptions);
    mret (clientmacaddr, clientip, bsdpoptions, enablednbis, replyport)).

(** [ack(packet, defaultnbi, msgtype)]: the finished packet, the client
    address and the reply port. *)
Definition ack (srv : server) (w : world) (packet : DhcpPacket)
    (defaultnbi : option N) (msgtype : msgtype) : M (BsdpAck * list N * N) :=
  '(clientmacaddr, clientip, bsdpoptions, enablednbis, replyport) ←
    ack_common srv w packet;
  let bsdpack := common_reply srv packet in
  match msgtype with
  | list_msg =>
      g ← get;
      bsdpack ← lift (list_reply srv bsdpack enablednbis defaultnbi (imagenameslist g));
      mret (bsdpack, clientip, replyport)
  | select_msg =>
      bsdpack ← lift (select_reply srv w bsdpack bsdpoptions enablednbis);
      mret (bsdpack, clientip, replyport)
  end.

(** ** The receive loop of [main] *)

(** One round of [while True] for a received [packet]: the arguments of
    [server.SendDhcpPacketTo], if it is called, and the globals after the
    round.  The bare [except: pass] swallows every exception. *)
Definition handle_packet (srv : server) (w : world) (packet : DhcpPacket)
    (g : globals) : option (BsdpAck * list N * N) * globals :=
  let options := vendor_encapsulated_options packet in
  if 1 <? len options then
    match getitem options 2 with
    | Raise _ => (None, g)
    | Ok kind =>
        if kind =? 1 then
          match ack srv w packet (Some (defaultnbi g)) list_msg g with
          | (Ok sent, g') => (Some sent, g')
          | (Raise _, g') => (None, g')
          end
        else if kind =? 2 then
          match ack srv w packet None select_msg g with
          | (Ok sent, g') => (Some sent, g')
          | (Raise _, g') => (None, g')
          end
        else if len options <=? 7 then (None, g)
        else (None, g)
    end
  else (None, g).

(** The loop over a sequence of received packets, each with the state of
    the world at its arrival: the list of what was sent. *)
Fixpoint serve (srv : server) (inputs : list (world * DhcpPacket)) (g : globals)
    : list (option (BsdpAck * list N * N)) * globals :=
  match inputs with
  | [] => ([], g)
  | (w, packet) :: rest =>
      let '(sent, g') := handle_packet srv w packet g in
      let '(sents, g'') := serve srv rest g' in
      (sent :: sents, g'')
  end.

(** ** The image directory *)

(** A directory as [os.walk] finds it: the names [os.listdir] returns,
    split into directories and other entries, in the order of the
    listing.  A directory that [os.walk] does not descend into (a symbolic
    link, or a directory that cannot be listed) has no content here.  The
    disk is taken not to change during one scan, so that the walk of
    [getNbiOptions] and the walks [find] starts inside it read the same
    tree. *)
#[warnings="-register-all"]
Inductive dir : Type :=
  | Dir (dirs : list (string * option dir)) (files : list string).

(** [os.path.join(a, b)] of posixpath. *)
Definition os_path_join (a b : string) : string :=
  match b with
  | String "/" _ => b
  | _ =>
      if bool_decide (a = "") then (a ++ b)%string
      else
        match String.get (String.length a - 1) a with
        | Some "/"%char => (a ++ b)%string
        | _ => (a ++ "/" ++ b)%string
        end
  end.

(** [os.walk(top)], top-down: the triples [(root, dirs, files)]. *)
Fixpoint os_walk (top : string) (d : dir)
    : list (string * list string * list string) :=
  match d with
  | Dir dirs files =>
      (top, fst <$> dirs, files) ::
      (fix below (l : list (string * option dir)) :=
         match l with
         | [] => []
         | (name, Some sub) :: l' => os_walk (os_path_join top name) sub ++ below l'
         | (_, None) :: l' => below l'
         end) dirs
  end.

(** The keys of an [NBImageInfo.plist] that the scan reads, each with the
    type Apple's tools write it with; [None] for a key the file does not
    hold. *)
Record NBImageInfo : Type := {
  plist_Index : option N;
  plist_IsEnabled : option bool;
  plist_IsDefault : option bool;
  plist_Name : option string;
  plist_Description : option string;
  plist_BootFile : option string;
  plist_Type : option string;
  plist_EnabledSystemIdentifiers : option (list string);
  plist_DisabledSystemIdentifiers : option (list string);
  plist_EnabledMACAddresses : option (list string)
}.

(** What the scan takes from outside the script: the test
    [fnmatch.fnmatch(name, pattern)] of the Python library, and the
    outcome of [plistlib.readPlist] on a path. *)
Record library : Type := {
  fnmatch : string -> string -> bool;
  readPlist : string -> result NBImageInfo
}.

(** [find(pattern, path)], on the directory found at [path]. *)
Definition find (lib : library) (pattern path : string) (d : dir) : list string :=
  flat_map (fun visit : string * list string * list string =>
              let '(root, _, files) := visit in
              os_path_join root
                <$> filter (fun name => fnmatch lib name pattern = true) files)
    (os_walk path d).

(** [s.rfind(c)]: the index of the last [c], or [-1]. *)
Fixpoint rfind_from (c : ascii) (i : Z) (found : Z) (s : string) : Z :=
  match s with
  | "" => found
  | String a s' => rfind_from c (i + 1) (if Ascii.eqb a c then i else found) s'
  end.

Definition rfind (c : ascii) (s : string) : Z := rfind_from c 0 (-1) s.

(** [s[a:b]] for [0 <= a]. *)
Definition str_slice (s : string) (a b : Z) : string :=
  String.substring (Z.to_nat a) (Z.to_nat (b - a)) s.

(** [os.path.splitext(p)]: the extension starts at the last dot of the
    last component, unless that component has only dots before it. *)
Definition splitext (p : string) : string * string :=
  let sepIndex := rfind "/" p in
  let dotIndex := rfind "." p in
  if (sepIndex <? dotIndex)%Z then
    if existsb (fun c => negb (Ascii.eqb c "."))
         (list_ascii_of_string (str_slice p (sepIndex + 1) dotIndex))
    then (str_slice p 0 dotIndex,
          str_slice p dotIndex (Z.of_nat (String.length p)))
    else (p, "")
  else (p, "").

(** [s.lower()]. *)
Definition lower_char (c : ascii) : ascii :=
  let n := N_of_ascii c in
  if (65 <=? n) && (n <=? 90) then ascii_of_N (n + 32) else c.

Fixpoint lower (s : string) : string :=
  match s with
  | "" => ""
  | String c s' => String (lower_char c) (lower s')
  end.

(** ** [getNbiOptions] *)

(** [nbimageinfo[key]]. *)
Definition plist_get {A} (value : option A) : result A :=
  match value with
  | Some v => Ok v
  | None => Raise KeyError
  end.

(** ['/'.join(found.split('/')[2:])]. *)
Definition dmg_of (found : string) : string := join "/" (drop 2 (split "/" found)).

(** The body of the loop for a [path] whose extension is [.nbi]: [None]
    when the loop moves on ([continue]), the record it appends
    otherwise. *)
Definition consider (lib : library) (path : string) (d : dir) : result (option nbi) :=
  nbimageinfoplist ← getitem (find lib "NBImageInfo.plist" path d) 0;
  nbimageinfo ← readPlist lib nbimageinfoplist;
  index ← plist_get (plist_Index nbimageinfo);
  if index =? 0 then
    _ ← plist_get (plist_Name nbimageinfo); Ok None
  else
    isenabled ← plist_get (plist_IsEnabled nbimageinfo);
    if negb isenabled then
      _ ← plist_get (plist_Name nbimageinfo); Ok None
    else
      bootfile ← plist_get (plist_BootFile nbimageinfo);
      booter ← getitem (find lib bootfile path d) 0;
      description ← plist_get (plist_Description nbimageinfo);
      disabledsysids ← plist_get (plist_DisabledSystemIdentifiers nbimageinfo);
      type ← plist_get (plist_Type nbimageinfo);
      dmg ← (if bool_decide (type <> "BootFileOnly") then
               found ← getitem (find lib "*.dmg" path d) 0;
               Ok (Some (dmg_of found))
             else Ok None);
      let enabledmacaddrs := default [] (plist_EnabledMACAddresses nbimageinfo) in
      let enabledmacaddrs := lower <$> enabledmacaddrs in
      enabledsysids ← plist_get (plist_EnabledSystemIdentifiers nbimageinfo);
      isdefault ← plist_get (plist_IsDefault nbimageinfo);
      name ← plist_get (plist_Name nbimageinfo);
      Ok (Some {| nbi_id := index;
                  nbi_booter := booter;
                  nbi_description := description;
                  nbi_disabledsysids := disabledsysids;
                  nbi_dmg := dmg;
                  nbi_enabledmacaddrs := enabledmacaddrs;
                  nbi_enabledsysids := enabledsysids;
                  nbi_isdefault := isdefault;
                  nbi_length := N.of_nat (String.length name);
                  nbi_name := name;
                  nbi_proto := type |}).

(** The walk of [getNbiOptions] from [path], with the two lists built so
    far.  [del dirs[:]] keeps [os.walk] out of the directories of an
    [.nbi] bundle. *)
Fixpoint scan (lib : library) (path : string) (d : dir)
    (acc : list nbi * list string) : result (list nbi * list string) :=
  if bool_decide ((splitext path).2 = ".nbi") then
    thisnbi ← consider lib path d;
    match thisnbi with
    | Some thisnbi => Ok (acc.1 ++ [thisnbi], acc.2 ++ [path])
    | None => Ok acc
    end
  else
    match d with
    | Dir dirs _ =>
        (fix below (l : list (string * option dir)) (acc : list nbi * list string) :=
           match l with
           | [] => Ok acc
           | (name, Some sub) :: l' =>
               acc ← scan lib (os_path_join path name) sub acc; below l' acc
           | (_, None) :: l' => below l' acc
           end) dirs acc
    end.

(** [getNbiOptions(incoming)]; [None] for an [incoming] that [os.walk]
    cannot list. *)
Definition getNbiOptions (lib : library) (incoming : string) (d : option dir)
    : result (list nbi * list string) :=
  match d with
  | Some d => scan lib incoming d ([], [])
  | None => Ok ([], [])
  end.

(** ** Vocabulary of the statements *)

(** A well-formed BSDP sub-option on the wire: the code, the length of
    the value, the value. *)
Definition encode_option (o : N * list N) : list N := o.1 :: len o.2 :: o.2.

Definition encode_options (os : list (N * list N)) : list N :=
  concat (encode_option <$> os).

(** A sub-option whose code is in [bsdpoptioncodes]. *)
Definition known_option (o : N * list N) : Prop :=
  is_Some (bsdpoptioncodes !! o.1).

(** The dict obtained by visiting the sub-options once each, in the order
    of the blob, and binding the name of each to its value. *)
Definition bind_option (m : gmap string (list N)) (o : N * list N)
    : gmap string (list N) :=
  match bsdpoptioncodes !! o.1 with
  | Some name => <[name := o.2]> m
  | None => m
  end.

Definition named_options (os : list (N * list N)) : gmap string (list N) :=
  fold_left bind_option os ∅.

(** The [boot_image_list] entry of one image with a 16-bit index. *)
Definition list_entry (image : nbi) : list N :=
  [129; 0; nbi_id image / 256; nbi_id image mod 256; nbi_length image]
    ++ strlist_of_str (nbi_name image).

Definition list_entries (images : list nbi) : list N :=
  concat (list_entry <$> images).

Definition sum_lengths (images : list nbi) : N :=
  foldr (fun i acc => nbi_length i + acc) 0 images.

(** The [default_boot_image] sub-option. *)
Definition default_option (id : N) : list N :=
  [7; 4; 129; 0; id / 256; id mod 256].

(** The default image the specification describes for a list of admitted
    records: the highest index among those flagged as default if there is
    one, else the highest index, else [0]. *)
Definition max_id (images : list nbi) : N :=
  foldr (fun i acc => N.max (nbi_id i) acc) 0 images.

Definition described_default (admitted : list nbi) : N :=
  match filter (fun i => nbi_isdefault i = true) admitted with
  | [] => max_id admitted
  | defaults => max_id defaults
  end.

(** A string of hexadecimal digits. *)
Fixpoint all_hex (s : string) : bool :=
  match s with
  | "" => true
  | String c s' => bool_decide (is_Some (hex_value c)) && all_hex s'
  end.

(** [all_from f i k]: [f] holds on [i], [i+1], ..., [i+k-1]. *)
Fixpoint all_from (f : N -> bool) (i : N) (k : nat) : bool :=
  match k with
  | O => true
  | S k' => f i && all_from f (N.succ i) k'
  end.

(** The slice the second loop of [parseOptions] takes for an entry
    [[start, length]] of [msgtypes]. *)
Definition slice_of (bsdpoptions : list N) (values : N * N) : list N :=
  slice bsdpoptions values.1 (values.1 + values.2).

(** ['%04X' % n], cut in pairs and read back, is the two bytes of [n]. *)
Definition pairs_ok (n : N) : bool :=
  match hex_pairs (percent_0X 4 n) with
  | Ok [hi; lo] => (hi =? n / 256) && (lo =? n mod 256)
  | _ => false
  end.

(** ['%02X' % b] is the two digits of [b]. *)
Definition byte_ok (b : N) : bool :=
  match percent_0X 2 b with
  | String c1 (String c2 "") =>
      bool_decide (hex_value c1 = Some (b / 16)) &&
      bool_decide (hex_value c2 = Some (b mod 16))
  | _ => false
  end.

(** [format(b, 'x')] is one digit below [0x10] and two digits from there
    up to [0xff]. *)
Definition format_x_ok (b : N) : bool :=
  match format_x b with
  | String c "" => (b <? 16) && bool_decide (hex_value c = Some b)
  | String c1 (String c2 "") =>
      (16 <=? b) && bool_decide (hex_value c1 = Some (b / 16)) &&
      bool_decide (hex_value c2 = Some (b mod 16))
  | _ => false
  end.

(** The reply to a SELECT whose image is not among the entitled ones: the
    common options, a [file] of 128 NUL bytes, an empty [root_path] and
    BSDP options that stop after the length of [selected_boot_image]. *)
Definition unknown_select_ack (srv : server) (packet : DhcpPacket) : BsdpAck :=
  SetOption_vendor_encapsulated_options
    (SetOption_root_path
       (SetOption_file (common_reply srv packet) (replicate 128 0)) [])
    [1; 1; 2; 8; 4].

(** What was handed to [SendDhcpPacketTo]: the BSDP options of the
    packet, and the port. *)
Definition sent_options (sent : option (BsdpAck * list N * N)) : option (list N) :=
  match sent with
  | Some (bsdpack, _, _) => ack_vendor_encapsulated_options bsdpack
  | None => None
  end.

Definition sent_port (sent : option (BsdpAck * list N * N)) : option N :=
  match sent with
  | Some (_, _, replyport) => Some replyport
  | None => None
  end.

(** The test the loop of [getSysIdEntitlement] comes down to: the model
    is not among the disabled ones, and the MAC allow-list is empty or
    holds the client. *)
Definition not_banned (clientsysid clientmacaddr : string) (thisnbi : nbi) : Prop :=
  (clientsysid ∉ nbi_disabledsysids thisnbi) /\
  (nbi_enabledmacaddrs thisnbi = [] \/ clientmacaddr ∈ nbi_enabledmacaddrs thisnbi).

#[global] Instance not_banned_dec clientsysid clientmacaddr thisnbi :
  Decision (not_banned clientsysid clientmacaddr thisnbi).
Proof. unfold not_banned. apply _. Defined.

(** [s.count(c)]. *)
Fixpoint count_char (c : ascii) (s : string) : nat :=
  match s with
  | "" => 0
  | String a s' => (if Ascii.eqb a c then 1 else 0) + count_char c s'
  end.

(** A name as [os.listdir] returns it is not empty and holds no ['/']. *)
Definition entry_name (name : string) : bool :=
  negb (bool_decide (name = "")) &&
  forallb (fun c => negb (Ascii.eqb c "/")) (list_ascii_of_string name).

(** Every name in the tree is an [entry_name]. *)
Fixpoint listed (d : dir) : bool :=
  match d with
  | Dir dirs files =>
      forallb entry_name files &&
      (fix below (l : list (string * option dir)) : bool :=
         match l with
         | [] => true
         | (name, sub) :: l' =>
             entry_name name &&
             match sub with Some sub => listed sub | None => true end &&
             below l'
         end) dirs
  end.

(** A path that is not empty and does not end in a slash. *)
Definition clean (a : string) : Prop :=
  a <> "" /\ String.get (String.length a - 1) a <> Some "/"%char.

(** [d'] at [path'] is part of what a walk of [d] from [path] visits. *)
Definition part_of (path : string) (d : dir) (path' : string) (d' : dir) : Prop :=
  (listed d = true -> listed d' = true) /\
  (forall visit, visit ∈ os_walk path' d' -> visit ∈ os_walk path d).

(** What [getNbiOptions] did for a record [image] it lists with the
    source [path]: the extension of [path] is [.nbi], and [consider] built
    the record from a directory [d] found at [path]. *)
Definition considered (lib : library) (good : string -> dir -> Prop) (image : nbi)
    (path : string) : Prop :=
  (splitext path).2 = ".nbi" /\
  exists d, good path d /\ consider lib path d = Ok (Some image).


(** [image] no longer moves the default image: its index is not above
    [defaultnbi], or it is not flagged and an image that is has been seen. *)
Definition settled (image : nbi) (g : globals) : Prop :=
  nbi_id image <= defaultnbi g \/ (nbi_isdefault image = false /\ hasdefault g = true).

(** ** Sample data *)

Definition image (id : N) (isdefault : bool) (name : string)
    (enabledsysids disabledsysids enabledmacaddrs : list string) : nbi :=
  {| nbi_id := id;
     nbi_booter := "/nbi/Test.nbi/i386/booter";
     nbi_description := name;
     nbi_disabledsysids := disabledsysids;
     nbi_dmg := Some "Test.nbi/NetInstall.dmg";
     nbi_enabledmacaddrs := enabledmacaddrs;
     nbi_enabledsysids := enabledsysids;
     nbi_isdefault := isdefault;
     nbi_length := N.of_nat (String.length name);
     nbi_name := name;
     nbi_proto := "NetInstall" |}.

(** A server started with [-r nfs] on a host whose address is 10.0.0.1. *)
Definition nfs_server (catalog : list nbi) : server :=
  {| serverpriority := (7, 9);
     serverip := [10; 0; 0; 1];
     serverhostname := "10.0.0.1";
     basedmgpath := "nfs:10.0.0.1:/nbi:";
     useapiurl := false;
     nbiimages := catalog |}.

(** No API is configured and [nbiurl] is not defined. *)
Definition offline : world :=
  {| getNbiFromApi := fun _ _ _ => Raise IOError;
     refreshed_basedmgpath := Ok None |}.

(** An INFORM from a client of model [sysid] at 10.0.0.5. *)
Definition inform (sysid : string) (mac : list N) (options : list N) : DhcpPacket :=
  {| htype := [1];
     hlen := [6];
     xid := [1; 2; 3; 4];
     ciaddr := [10; 0; 0; 5];
     chaddr := mac ++ replicate 10 0;
     vendor_class_identifier := strlist_of_str ("AAPLBSDPC/i386/" ++ sysid)%string;
     request_ip_address := [];
     vendor_encapsulated_options := options |}.

Definition mac_11 : list N := [0x11; 0x22; 0x33; 0x44; 0x55; 0x66].
Definition mac_0a : list N := [0x00; 0x1e; 0xc2; 0x0a; 0xbb; 0xcc].

Definition TestImage : nbi := image 0x1001 true "TestImage" [] [] [].
Definition only_for_Mac_A : nbi := image 0x1001 false "OnlyA" ["Mac-A"] [] [].
Definition only_for_mac_0a : nbi :=
  image 0x1001 false "OnlyMac" [] [] ["00:1e:c2:0a:bb:cc"].
Definition plain_9 : nbi := image 9 false "Nine" [] [] [].
Definition default_5 : nbi := image 5 true "Five" [] [] [].
Definition plain_3_for_A : nbi := image 3 false "Three" ["Mac-A"] ["Mac-B"] [].
Definition default_7_for_B : nbi := image 7 true "Seven" ["Mac-B"] ["Mac-A"] [].
Definition default_256 : nbi := image 0x0100 true "Image256" [] [] [].

(** The globals after a first LIST request against [[TestImage]]. *)
Definition after_TestImage : globals :=
  {| defaultnbi := 0x1001; hasdefault := true;
     imagenameslist := list_entry TestImage |}.

(** The BSDP options of scenario S1, priority [(7, 9)]. *)
Definition S1_options : list N :=
  [1; 1; 1; 4; 2; 7; 9; 7; 4; 129; 0; 0x10; 0x01; 9; 14;
   129; 0; 0x10; 0x01; 9; 84; 101; 115; 116; 73; 109; 97; 103; 101].

Definition list_request : DhcpPacket := inform "Mac-X" mac_11 [1; 1; 1].

(** A SELECT of image 99, which no catalog below holds. *)
Definition select_99 : DhcpPacket :=
  inform "Mac-X" mac_11 [1; 1; 2; 8; 4; 129; 0; 0; 99].

(** A blob of four bytes whose only sub-option is a [reply_port]. *)
Definition reply_port_only : DhcpPacket := inform "Mac-X" mac_11 [5; 2; 1; 0x90].

(** The BSDP options of the first LIST reply of a process against
    [[TestImage]]: those of S1 without the [default_boot_image]
    sub-option. *)
Definition first_S1_options : list N :=
  [1; 1; 1; 4; 2; 7; 9; 9; 14;
   129; 0; 0x10; 0x01; 9; 84; 101; 115; 116; 73; 109; 97; 103; 101].

Definition first_S1_ack : BsdpAck :=
  SetOption_vendor_encapsulated_options
    (common_reply (nfs_server [TestImage]) list_request) first_S1_options.

(** The SELECT of scenario S2. *)
Definition select_1001 : DhcpPacket :=
  inform "Mac-X" mac_11 [1; 1; 2; 8; 4; 129; 0; 0x10; 0x01].

(** An image of type [BootFileOnly]: the record has no [dmg] key. *)
Definition booter_only : nbi :=
  {| nbi_id := 0x1001;
     nbi_booter := "/nbi/Boot.nbi/i386/booter";
     nbi_description := "BootOnly";
     nbi_disabledsysids := [];
     nbi_dmg := None;
     nbi_enabledmacaddrs := [];
     nbi_enabledsysids := [];
     nbi_isdefault := false;
     nbi_length := 8;
     nbi_name := "BootOnly";
     nbi_proto := "BootFileOnly" |}.

(** A LIST request whose vendor class has no model field. *)
Definition no_model : DhcpPacket :=
  {| htype := [1];
     hlen := [6];
     xid := [1; 2; 3; 4];
     ciaddr := [10; 0; 0; 5];
     chaddr := mac_11 ++ replicate 10 0;
     vendor_class_identifier := strlist_of_str "AAPLBSDPC/i386";
     request_ip_address := [];
     vendor_encapsulated_options := [1; 1; 1] |}.

(** A LIST request with a sub-option of code 99, which the table does not
    hold. *)
Definition list_with_code_99 : DhcpPacket := inform "Mac-X" mac_11 [1; 1; 1; 99; 0].

(** A server in API mode, and the network when the API answers every
    query with [images]. *)
Definition api_server : server :=
  {| serverpriority := (7, 9);
     serverip := [10; 0; 0; 1];
     serverhostname := "10.0.0.1";
     basedmgpath := "";
     useapiurl := true;
     nbiimages := [] |}.

Definition api_answers (images : list nbi) : world :=
  {| getNbiFromApi := fun _ _ _ => Ok images;
     refreshed_basedmgpath := Ok None |}.




(** [fnmatch] on patterns without brackets: [*] stands for any string,
    [?] for any character. *)
Fixpoint glob (pattern : string) : string -> bool :=
  match pattern with
  | "" => fun name => bool_decide (name = "")
  | String "*" pattern' =>
      fix star (name : string) : bool :=
        glob pattern' name ||
        match name with
        | "" => false
        | String _ name' => star name'
        end
  | String "?" pattern' => fun name =>
      match name with
      | "" => false
      | String _ name' => glob pattern' name'
      end
  | String c pattern' => fun name =>
      match name with
      | "" => false
      | String a name' => Ascii.eqb a c && glob pattern' name'
      end
  end.

(** The image directory of scenario S1: [/nbi/Test.nbi] with its plist,
    its disk image and the booter below [i386]. *)
Definition Test_nbi : dir :=
  Dir [("i386", Some (Dir [] ["booter"; "com.apple.Boot.plist"]))]
      ["NBImageInfo.plist"; "NetInstall.dmg"].

Definition Test_plist : NBImageInfo :=
  {| plist_Index := Some 0x1001;
     plist_IsEnabled := Some true;
     plist_IsDefault := Some true;
     plist_Name := Some "TestImage";
     plist_Description := Some "TestImage";
     plist_BootFile := Some "booter";
     plist_Type := Some "NetInstall";
     plist_EnabledSystemIdentifiers := Some [];
     plist_DisabledSystemIdentifiers := Some [];
     plist_EnabledMACAddresses := None |}.

Definition Test_library : library :=
  {| fnmatch := fun name pattern => glob pattern name;
     readPlist := fun path =>
       if bool_decide (path = "/nbi/Test.nbi/NBImageInfo.plist") then Ok Test_plist
       else Raise IOError |}.

Definition nbi_root : dir := Dir [("Test.nbi", Some Test_nbi)] ["README"].

(** A bundle without its plist. *)
Definition Broken_nbi : dir := Dir [] ["NetInstall.dmg"].

(** * Properties *)

(** ** Scenarios of the specification *)

Example chaddr_to_mac_doc :
  chaddr_to_mac [0x12; 0x34; 0x56; 0xab; 0xcd; 0xef; 0; 0; 0; 0; 0; 0; 0; 0; 0; 0]
  = "12:34:56:ab:cd:ef".
Proof. reflexivity. Qed.

(** S2: SELECT of the single image of the catalog over NFS. *)
Example select_TestImage :
  let sent := (handle_packet (nfs_server [TestImage]) offline
                 (inform "Mac-X" mac_11 [1; 1; 2; 8; 4; 129; 0; 0x10; 0x01])
                 initial_globals).1 in
  (fun s : BsdpAck * list N * N => ack_root_path s.1.1) <$> sent
    = Some (Some (strlist_of_str "nfs:10.0.0.1:/nbi:Test.nbi/NetInstall.dmg")) /\
  (fun s : BsdpAck * list N * N => length <$> ack_file s.1.1) <$> sent
    = Some (Some 128%nat) /\
  sent_options sent = Some [1; 1; 2; 8; 4; 129; 0; 0x10; 0x01] /\
  sent_port sent = Some 68.
Proof. vm_compute. done. Qed.

(** S3: the only image bans the client's model; the reply is still sent,
    without sub-option 7 and with an empty image list. *)
Example list_for_banned_model :
  sent_options
    (handle_packet (nfs_server [image 1 true "Banned" [] ["Mac-X"] []]) offline
       list_request initial_globals).1
  = Some [1; 1; 1; 4; 2; 7; 9; 9; 0].
Proof. vm_compute. done. Qed.

(** S4: a MAC allow-list that does not hold the client's address. *)
Example mac_allow_list_miss :
  nbientitlements [image 1 false "M" [] [] ["aa:bb:cc:dd:ee:ff"]]
    "Mac-X" (chaddr_to_mac mac_11) = [].
Proof. reflexivity. Qed.


(** ** Lists, slices and the error monad *)

Lemma bind_Ok_inv {A B} (m : result A) (f : A -> result B) (b : B) :
  m ≫= f = Ok b -> exists a, m = Ok a /\ f a = Ok b.
Proof. destruct m as [a|e]; cbn; [eauto|done]. Qed.

(** Inversion of one [x ← m; k] step that ended in [Ok]. *)
Tactic Notation "bind_inv" ident(H) "as" ident(x) ident(Hx) :=
  apply bind_Ok_inv in H as (x & Hx & H).

Lemma len_app {A} (l k : list A) : len (l ++ k) = len l + len k.
Proof. unfold len. rewrite length_app. lia. Qed.

Lemma getitem_app_r {A} (pre l : list A) (i : N) :
  getitem (pre ++ l) (len pre + i) = getitem l i.
Proof.
  unfold getitem, len.
  replace (N.to_nat (N.of_nat (length pre) + i)) with (length pre + N.to_nat i)%nat by lia.
  by rewrite lookup_app_r, Nat.add_comm, Nat.add_sub by lia.
Qed.

Lemma slice_app_exact {A} (pre v rest : list A) :
  slice (pre ++ v ++ rest) (len pre) (len pre + len v) = v.
Proof.
  unfold slice, len.
  replace (N.to_nat (N.of_nat (length pre) + N.of_nat (length v) - N.of_nat (length pre)))
    with (length v) by lia.
  rewrite Nat2N.id, drop_app_length. by rewrite take_app_length.
Qed.

(** ** Hexadecimal text of bytes and 16-bit numbers *)

Lemma all_from_spec (f : N -> bool) (k : nat) :
  forall i : N, all_from f i k = true ->
  forall n : N, i <= n < i + N.of_nat k -> f n = true.
Proof.
  induction k as [|k IH]; intros i H n Hn; [lia|].
  cbn [all_from] in H. apply andb_prop in H as [Hi Hk].
  destruct (decide (n = i)) as [->|Hne]; [done|].
  apply (IH (N.succ i)); [done|lia].
Qed.

Lemma hex_pairs_16bit (n : N) :
  n < 65536 -> hex_pairs (percent_0X 4 n) = Ok [n / 256; n mod 256].
Proof.
  intros Hn.
  assert (H : pairs_ok n = true).
  { apply (all_from_spec pairs_ok (N.to_nat 65536) 0); [by vm_compute|lia]. }
  unfold pairs_ok in H.
  destruct (hex_pairs (percent_0X 4 n)) as [[|hi [|lo [|? ?]]]|]; try done.
  apply andb_prop in H as [->%N.eqb_eq ->%N.eqb_eq]. done.
Qed.

(** Reading a string of digits continues the reading of its prefix. *)
Lemma int16_from_app (s1 s2 : string) :
  forall acc, int16_from acc (s1 +:+ s2) = int16_from acc s1 ≫= fun n => int16_from n s2.
Proof.
  induction s1 as [|c s1 IH]; intros acc; [done|].
  change (String c s1 +:+ s2) with (String c (s1 +:+ s2)).
  cbn [int16_from]. destruct (hex_value c); [apply IH|done].
Qed.

Lemma int16_app (s1 s2 : string) :
  s1 <> "" -> int16 (s1 +:+ s2) = int16_from 0 s1 ≫= fun n => int16_from n s2.
Proof.
  intros Hs1. rewrite <- int16_from_app. by destruct s1.
Qed.

(** Unfolds the reading of the digits a byte was printed with. *)
Ltac read_digits :=
  repeat match goal with
         | H : _ && _ = true |- _ => apply andb_prop in H as [? ?]
         | H : bool_decide _ = true |- _ => apply bool_decide_eq_true in H
         | H : (_ <? _) = true |- _ => apply N.ltb_lt in H
         | H : (_ <=? _) = true |- _ => apply N.leb_le in H
         end;
  cbn [int16_from];
  repeat match goal with
         | H : hex_value _ = Some _ |- _ => rewrite H; clear H
         end.

Lemma percent_02X_byte (b : N) : b < 256 -> byte_ok b = true.
Proof.
  intros Hb. apply (all_from_spec byte_ok (N.to_nat 256) 0); [by vm_compute|lia].
Qed.

Lemma format_x_byte (b : N) : b < 256 -> format_x_ok b = true.
Proof.
  intros Hb. apply (all_from_spec format_x_ok (N.to_nat 256) 0); [by vm_compute|lia].
Qed.

(** The rendering [chaddr_to_mac] and the reply port share: one character
    for a byte below [0x10], two from there on. *)
Lemma format_x_length (b : N) :
  b < 256 -> String.length (format_x b) = if b <? 16 then 1%nat else 2%nat.
Proof.
  intros Hb. pose proof (format_x_byte b Hb) as H. unfold format_x_ok in H.
  destruct (format_x b) as [|c1 [|c2 [|? ?]]]; try done; read_digits.
  - by rewrite (proj2 (N.ltb_lt b 16)).
  - by rewrite (proj2 (N.ltb_ge b 16)).
Qed.

(** ['%02X' % b] always contributes two digits. *)
Lemma int16_from_percent_02X (acc b : N) :
  b < 256 -> int16_from acc (percent_0X 2 b) = Ok (256 * acc + b).
Proof.
  intros Hb. pose proof (percent_02X_byte b Hb) as H. unfold byte_ok in H.
  pose proof (N.div_mod b 16).
  destruct (percent_0X 2 b) as [|c1 [|c2 [|? ?]]]; try done.
  read_digits. f_equal; lia.
Qed.

(** [format(b, 'x')] contributes one digit for a byte below [0x10]. *)
Lemma int16_from_format_x (acc b : N) :
  b < 256 ->
  int16_from acc (format_x b)
  = Ok (if b <? 16 then 16 * acc + b else 256 * acc + b).
Proof.
  intros Hb. pose proof (format_x_byte b Hb) as H. unfold format_x_ok in H.
  pose proof (N.div_mod b 16).
  destruct (format_x b) as [|c1 [|c2 [|? ?]]]; try done; read_digits.
  - by rewrite (proj2 (N.ltb_lt b 16)).
  - rewrite (proj2 (N.ltb_ge b 16)) by done. f_equal; lia.
Qed.

Lemma int16_two_bytes (b2 b3 : N) :
  b2 < 256 -> b3 < 256 ->
  int16 (percent_0X 2 b2 ++ percent_0X 2 b3)%string = Ok (256 * b2 + b3).
Proof.
  intros H2 H3. rewrite int16_app.
  - rewrite (int16_from_percent_02X 0 b2 H2). cbn [mbind result_bind].
    rewrite (int16_from_percent_02X _ b3 H3). f_equal; lia.
  - pose proof (percent_02X_byte b2 H2) as H. unfold byte_ok in H.
    by destruct (percent_0X 2 b2).
Qed.

Lemma all_hex_app (s1 s2 : string) :
  all_hex (s1 +:+ s2) = all_hex s1 && all_hex s2.
Proof.
  induction s1 as [|c s1 IH]; [done|].
  change (String c s1 +:+ s2) with (String c (s1 +:+ s2)).
  cbn [all_hex]. by rewrite IH, andb_assoc.
Qed.

Lemma all_hex_hex_string (upper : bool) (d : Hexadecimal.uint) :
  all_hex (hex_string upper d) = true.
Proof.
  induction d; destruct upper; cbn [hex_string all_hex]; rewrite ?IHd; done.
Qed.

Lemma all_hex_zeros (k : nat) : all_hex (String.concat "" (replicate k "0")) = true.
Proof.
  induction k as [|k IH]; [done|]. cbn [replicate String.concat].
  destruct (replicate k "0") eqn:E; [done|]. rewrite <- E in *.
  change ("0" +:+ "" +:+ String.concat "" (replicate k "0"))
    with (String "0" (String.concat "" (replicate k "0"))).
  cbn [all_hex]. by rewrite IH.
Qed.

Lemma all_hex_percent_0X (width : nat) (n : N) : all_hex (percent_0X width n) = true.
Proof.
  unfold percent_0X, zero_pad.
  by rewrite all_hex_app, all_hex_zeros, all_hex_hex_string.
Qed.

Lemma int16_from_hex (s : string) :
  all_hex s = true -> forall acc, exists n, int16_from acc s = Ok n.
Proof.
  induction s as [|c s IH]; intros H acc; [by eexists|].
  cbn [all_hex] in H. apply andb_prop in H as [[d Hd]%bool_decide_eq_true Hs].
  cbn [int16_from]. rewrite Hd. by apply IH.
Qed.

(** Digit strings cut in pairs are read back without error. *)
Lemma hex_pairs_hex (s : string) :
  (all_hex s = true -> exists l, hex_pairs s = Ok l) /\
  (forall a, all_hex (String a s) = true -> exists l, hex_pairs (String a s) = Ok l).
Proof.
  unfold hex_pairs. induction s as [|b s [IH0 IH1]].
  - split; [by eexists|]. intros a H.
    destruct (int16_from_hex (String a "") H 0) as [n Hn].
    exists [n]. cbn [slices2 mapM]. unfold int16. by rewrite Hn.
  - split; [by apply IH1|]. intros a H.
    assert (Hab : all_hex (String a (String b "")) = true /\ all_hex s = true).
    { cbn [all_hex] in H |- *.
      apply andb_prop in H as [Ha [Hb Hs]%andb_prop]. by rewrite Ha, Hb. }
    destruct Hab as [Hab Hs].
    destruct (int16_from_hex _ Hab 0) as [n Hn].
    destruct (IH0 Hs) as [l Hl].
    exists (n :: l). cbn [slices2 mapM].
    change (int16 (String a (String b ""))) with (int16_from 0 (String a (String b ""))).
    rewrite Hn. cbn [mbind result_bind]. by rewrite Hl.
Qed.

(** ** C10: [parseOptions] *)

(** One round of the loop. *)
Lemma scan_options_S (fuel : nat) (bs : list N) (pointer : N) (m : gmap string (N * N)) :
  scan_options (S fuel) bs pointer m =
  if pointer <? len bs then
    optionlength ← getitem bs (pointer + 1);
    code ← getitem bs pointer;
    name ← dict_get bsdpoptioncodes code;
    scan_options fuel bs (optionlength + (pointer + 1) + 1)
      (<[name := (pointer + 1 + 1, optionlength)]> m)
  else Ok m.
Proof. reflexivity. Qed.

(** The loop is not cut short: once [fuel] exceeds what is left of the
    blob, one more round of fuel changes nothing.  [parseOptions] starts
    at [0] with [len(bsdpoptions) + 1] rounds. *)
Lemma scan_options_fuel (bs : list N) (fuel : nat) :
  forall (pointer : N) (m : gmap string (N * N)),
  (length bs < fuel + N.to_nat pointer)%nat ->
  scan_options (S fuel) bs pointer m = scan_options fuel bs pointer m.
Proof.
  induction fuel as [|fuel IH]; intros pointer m H.
  - rewrite scan_options_S. cbn [scan_options].
    rewrite (proj2 (N.ltb_ge _ _)); [done|]. unfold len. lia.
  - rewrite (scan_options_S (S fuel)), (scan_options_S fuel).
    destruct (pointer <? len bs); [|done].
    destruct (getitem bs (pointer + 1)) as [optionlength|]; [|reflexivity].
    destruct (getitem bs pointer) as [code|]; [|reflexivity].
    cbn [mbind result_bind].
    destruct (dict_get bsdpoptioncodes code) as [name|]; [|reflexivity].
    cbn [mbind result_bind]. apply IH. lia.
Qed.

(** More rounds than [parseOptions] allows do not change its scan. *)
Lemma parseOptions_fuel (bsdpoptions : list N) (extra : nat) :
  scan_options (S (length bsdpoptions) + extra) bsdpoptions 0 ∅
  = scan_options (S (length bsdpoptions)) bsdpoptions 0 ∅.
Proof.
  induction extra as [|extra IH]; [by rewrite Nat.add_0_r|].
  rewrite Nat.add_succ_r, <- IH. apply scan_options_fuel. lia.
Qed.

(** No two codes share a name. *)
Lemma bsdpoptioncodes_inj (c1 c2 : N) (name : string) :
  bsdpoptioncodes !! c1 = Some name -> bsdpoptioncodes !! c2 = Some name -> c1 = c2.
Proof.
  unfold bsdpoptioncodes.
  intros H1%elem_of_list_to_map_2 H2%elem_of_list_to_map_2.
  repeat (apply elem_of_cons in H1 as [H1|H1]);
    try (by apply elem_of_nil in H1);
    injection H1 as -> ->;
    repeat (apply elem_of_cons in H2 as [H2|H2]);
    try (by apply elem_of_nil in H2); congruence.
Qed.

(** The scan of a blob made of well-formed sub-options, started at the
    first byte of one of them: it visits the remaining sub-options in
    order, and the slices of what it records are their values. *)
Lemma scan_options_encoded (bs : list N) (os : list (N * list N)) :
  forall (pre : list N) (m : gmap string (N * N)) (fuel : nat),
  bs = pre ++ encode_options os ->
  Forall known_option os ->
  (length os < fuel)%nat ->
  exists m', scan_options fuel bs (len pre) m = Ok m' /\
             slice_of bs <$> m' = fold_left bind_option os (slice_of bs <$> m).
Proof.
  induction os as [|[c v] os IH]; intros pre m fuel Hbs Hknown Hfuel.
  - destruct fuel as [|fuel]; [lia|]. exists m. split; [|done].
    cbn [scan_options]. rewrite Hbs. unfold encode_options. cbn.
    rewrite app_nil_r, N.ltb_irrefl. done.
  - destruct fuel as [|fuel]; [cbn in Hfuel; lia|].
    apply Forall_cons in Hknown as [[name Hname] Hknown].
    change (bsdpoptioncodes !! c = Some name) in Hname.
    assert (Hbs' : bs = (pre ++ encode_option (c, v)) ++ encode_options os).
    { rewrite Hbs. unfold encode_options. cbn [fmap list_fmap concat].
      by rewrite <- app_assoc. }
    destruct (IH (pre ++ encode_option (c, v))
                 (<[name := (len pre + 1 + 1, len v)]> m) fuel Hbs' Hknown)
      as (m' & Hscan & Hm'); [cbn in Hfuel; lia|].
    exists m'. split.
    + cbn [scan_options].
      assert ((len pre <? len bs) = true) as ->.
      { apply N.ltb_lt. rewrite Hbs'. rewrite !len_app. unfold encode_option, len. cbn. lia. }
      assert (getitem bs (len pre + 1) = Ok (len v)) as ->.
      { rewrite Hbs. unfold encode_options. cbn [fmap list_fmap concat].
        by rewrite getitem_app_r. }
      assert (getitem bs (len pre) = Ok c) as ->.
      { rewrite Hbs. unfold encode_options. cbn [fmap list_fmap concat].
        rewrite <- (N.add_0_r (len pre)). by rewrite getitem_app_r. }
      cbn [mbind result_bind]. unfold dict_get. rewrite Hname.
      cbn [mbind result_bind]. rewrite <- Hscan. f_equal.
      rewrite len_app. unfold encode_option, len. cbn [length fst snd]. lia.
    + rewrite Hm'. rewrite fmap_insert. cbn [fold_left]. f_equal.
      unfold bind_option. cbn [fst snd]. rewrite Hname. f_equal.
      unfold slice_of. cbn [fst snd].
      rewrite Hbs. unfold encode_options. cbn [fmap list_fmap concat].
      set (rest := concat (encode_option <$> os)).
      change (pre ++ encode_option (c, v) ++ rest)
        with (pre ++ [c; len v] ++ v ++ rest).
      rewrite (app_assoc pre [c; len v]).
      replace (len pre + 1 + 1) with (len (pre ++ [c; len v]))
        by (rewrite len_app; unfold len; cbn; lia).
      apply slice_app_exact.
Qed.

Lemma length_encode_options (os : list (N * list N)) :
  (length os <= length (encode_options os))%nat.
Proof.
  induction os as [|o os IH]; [done|].
  unfold encode_options in *. cbn. rewrite length_app. lia.
Qed.

(** [parseOptions] on a blob of well-formed sub-options does not raise
    and returns the dict built by binding each of them once, in order. *)
Lemma parseOptions_encoded (os : list (N * list N)) :
  Forall known_option os ->
  parseOptions (encode_options os) = Ok (named_options os).
Proof.
  intros Hknown. unfold parseOptions.
  destruct (scan_options_encoded (encode_options os) os [] ∅
              (S (length (encode_options os))) eq_refl Hknown)
    as (m' & Hscan & Hm').
  { pose proof (length_encode_options os). lia. }
  change (len []) with 0 in Hscan. rewrite Hscan. f_equal.
  unfold slice_of in Hm'. rewrite Hm'. by rewrite fmap_empty.
Qed.

(** A binding survives the sub-options of other codes. *)
Lemma fold_bind_option_keeps (after : list (N * list N)) (code : N)
    (name : string) (value : list N) :
  bsdpoptioncodes !! code = Some name ->
  code ∉ after.*1 ->
  forall m : gmap string (list N),
  m !! name = Some value -> fold_left bind_option after m !! name = Some value.
Proof.
  intros Hname. induction after as [|[c v] after IH]; intros Hnot m Hm; [done|].
  cbn [fold_left]. apply IH.
  - intros Hin. apply Hnot. cbn. by right.
  - unfold bind_option. cbn [fst snd].
    destruct (bsdpoptioncodes !! c) as [name'|] eqn:Hc; [|done].
    rewrite lookup_insert_ne; [done|].
    intros ->. apply Hnot.
    rewrite (bsdpoptioncodes_inj _ _ _ Hname Hc). cbn. apply elem_of_cons. by left.
Qed.

(** C10, as [parseOptions] implements it.  For a blob made of nothing
    but well-formed sub-options with known codes, [parseOptions] raises
    no error and returns the dict obtained by visiting every sub-option
    exactly once in the order of the blob, and the name of a code is
    bound to the value of its last occurrence: whatever sub-options
    precede [(code, value)], with the same code or not, if none of the
    following ones has that code then the name of [code] maps to
    [value]. *)
Theorem parseOptions_last_occurrence (before after : list (N * list N))
    (code : N) (value : list N) (name : string) :
  Forall known_option (before ++ (code, value) :: after) ->
  bsdpoptioncodes !! code = Some name ->
  code ∉ after.*1 ->
  parseOptions (encode_options (before ++ (code, value) :: after))
    = Ok (named_options (before ++ (code, value) :: after)) /\
  named_options (before ++ (code, value) :: after) !! name = Some value.
Proof.
  intros Hknown Hname Hnot. split; [by apply parseOptions_encoded|].
  unfold named_options. rewrite fold_left_app. cbn [fold_left].
  apply (fold_bind_option_keeps after code); [done..|].
  unfold bind_option. cbn [fst snd]. rewrite Hname. apply lookup_insert_eq.
Qed.

(** Two [reply_port] sub-options: the second one is returned. *)
Lemma parseOptions_last_occurrence_witness :
  parseOptions [1; 1; 1; 5; 2; 0x1f; 0x90; 5; 2; 1; 2; 8; 4; 129; 0; 0; 1]
    = Ok (named_options [(1, [1]); (5, [0x1f; 0x90]); (5, [1; 2]); (8, [129; 0; 0; 1])]) /\
  named_options [(1, [1]); (5, [0x1f; 0x90]); (5, [1; 2]); (8, [129; 0; 0; 1])]
    !! "reply_port" = Some [1; 2].
Proof.
  apply (parseOptions_last_occurrence [(1, [1]); (5, [0x1f; 0x90])] [(8, [129; 0; 0; 1])]
           5 [1; 2] "reply_port").
  - repeat constructor; by eexists.
  - reflexivity.
  - cbn. intros H. apply elem_of_cons in H as [H|H]; [discriminate|].
    by apply elem_of_nil in H.
Defined.

(** C10 as stated fails.  Both blobs hold two [reply_port] sub-options.
    In the first a sub-option of code 99, which the table does not hold,
    follows them; the second ends after the code of a third sub-option.
    [parseOptions] raises on both and returns no dict, so the name
    [reply_port] is bound to nothing. *)
Lemma parseOptions_repeated_code_no_dict :
  parseOptions [5; 2; 0x1f; 0x90; 5; 2; 1; 2; 99; 0] = Raise KeyError /\
  parseOptions [5; 2; 0x1f; 0x90; 5; 2; 1; 2; 8] = Raise IndexError.
Proof. split; by vm_compute. Qed.

(** ** C1: the allow-list of system identifiers *)

(** What the last [elif] of the loop does: a record that restricts by
    system identifier, and neither lists nor bans the client, is appended. *)
Lemma entitles_unlisted (clientsysid clientmacaddr : string) (thisnbi : nbi) :
  nbi_enabledsysids thisnbi <> [] ->
  clientsysid ∉ nbi_enabledsysids thisnbi ->
  clientsysid ∉ nbi_disabledsysids thisnbi ->
  nbi_enabledmacaddrs thisnbi = [] \/ clientmacaddr ∈ nbi_enabledmacaddrs thisnbi ->
  entitles clientsysid clientmacaddr thisnbi = true.
Proof.
  intros Hne Hen Hdis Hmac. unfold entitles.
  rewrite (bool_decide_eq_false_2 _ Hdis), (bool_decide_eq_false_2 _ Hen).
  cbn [andb negb orb].
  assert (negb (bool_decide (nbi_enabledmacaddrs thisnbi = [])) &&
          negb (bool_decide (clientmacaddr ∈ nbi_enabledmacaddrs thisnbi)) = false)
    as ->.
  { destruct Hmac as [H|H].
    - by rewrite (bool_decide_eq_true_2 _ H).
    - rewrite (bool_decide_eq_true_2 _ H). apply andb_false_r. }
  assert ((len (nbi_enabledsysids thisnbi) =? 0) = false) as ->.
  { apply N.eqb_neq. unfold len. destruct (nbi_enabledsysids thisnbi); [done|].
    cbn [length]. lia. }
  by rewrite andb_false_r.
Qed.

(** C1.  The docstring of [getSysIdEntitlement] says an image is skipped
    when the client's system identifier is missing from a non-empty
    [enabledsysids]; the loop appends it instead.  Here the image lists
    only Mac-A, has no other restriction, and a Mac-B client is entitled
    to it. *)
Theorem getSysIdEntitlement_admits_unlisted :
  nbi_enabledsysids only_for_Mac_A = ["Mac-A"] /\
  nbi_disabledsysids only_for_Mac_A = [] /\
  nbi_enabledmacaddrs only_for_Mac_A = [] /\
  (getSysIdEntitlement [only_for_Mac_A] "Mac-B" (chaddr_to_mac mac_11)
     initial_globals).1 = Ok [only_for_Mac_A].
Proof. vm_compute. done. Qed.

(** ** C7: the client's MAC address *)

(** C7.  [chaddr_to_mac] renders each byte with [hex(i)[2:]], which does
    not pad: the bytes [00] and [0a] come out as one digit, the address is
    not of the form [aa:bb:cc:dd:ee:ff], and an image whose
    [enabledmacaddrs] holds this very client in that form is refused. *)
Theorem chaddr_to_mac_drops_leading_zero :
  chaddr_to_mac (mac_0a ++ replicate 10 0) = "0:1e:c2:a:bb:cc" /\
  nbientitlements [only_for_mac_0a] "Mac-X" (chaddr_to_mac (mac_0a ++ replicate 10 0))
    = [].
Proof. vm_compute. done. Qed.

(** ** C6: the reply port *)

(** C6.  The two bytes of [reply_port] are rendered with [format(b, 'x')],
    without padding, before they are read back as one number: for the
    bytes [1f 05] the port is [0x1f5 = 501] and not [0x1f05 = 7941], and
    the reply to such a request is addressed to port 501. *)
Theorem replyport_drops_leading_zero :
  replyport_of {[ "reply_port" := [0x1f; 0x05] ]} = Ok 501 /\
  256 * 0x1f + 0x05 = 7941 /\
  sent_port
    (handle_packet (nfs_server [TestImage]) offline
       (inform "Mac-X" mac_11 [1; 1; 1; 5; 2; 0x1f; 0x05]) initial_globals).1
  = Some 501.
Proof. vm_compute. done. Qed.

(** The port of scenario S6 has no byte below [0x10] and is read back
    right. *)
Example replyport_8080 :
  replyport_of {[ "reply_port" := [0x1f; 0x90] ]} = Ok 8080.
Proof. vm_compute. done. Qed.

Example replyport_default : replyport_of ∅ = Ok 68.
Proof. reflexivity. Qed.

(** X2.  What [ack] computes from the two bytes of [reply_port]: the
    16-bit value when the low byte is [0x10] or more, and [16 * hi + lo]
    when it is below. *)
Lemma replyport_of_bytes (bsdpoptions : gmap string (list N)) (hi lo : N)
    (rest : list N) :
  bsdpoptions !! "reply_port" = Some (hi :: lo :: rest) ->
  hi < 256 -> lo < 256 ->
  replyport_of bsdpoptions
  = Ok (if lo <? 16 then 16 * hi + lo else 256 * hi + lo).
Proof.
  intros Hport Hhi Hlo. unfold replyport_of. rewrite Hport.
  change (getitem (hi :: lo :: rest) 0) with (Ok hi).
  change (getitem (hi :: lo :: rest) 1) with (Ok lo).
  cbn [mbind result_bind]. rewrite int16_app.
  - rewrite (int16_from_format_x 0 hi Hhi). cbn [mbind result_bind].
    rewrite (int16_from_format_x _ lo Hlo). by destruct (hi <? 16), (lo <? 16).
  - pose proof (format_x_byte hi Hhi) as H. unfold format_x_ok in H.
    by destruct (format_x hi).
Qed.

(** ** [doEntitlementPostProcessing] does not raise *)

(** The index of an image is always printed and read back: building an
    entry does not raise. *)
Lemma image_entry_total (image : nbi) : exists entry, image_entry image = Ok entry.
Proof.
  unfold image_entry.
  destruct (proj1 (hex_pairs_hex _) (all_hex_percent_0X 4 (nbi_id image))) as [l ->].
  by eexists.
Qed.

Lemma for_each_post_process_total (images : list nbi) :
  forall g, exists g', for_each post_process_image images g = (Ok tt, g').
Proof.
  induction images as [|image images IH]; intros g; [by eexists|].
  cbn [for_each]. unfold mbind, M_bind, post_process_image, get, put, lift.
  destruct (image_entry_total image) as [entry ->]. apply IH.
Qed.

(** [doEntitlementPostProcessing] does not raise and returns its argument. *)
Lemma doEntitlementPostProcessing_total (images : list nbi) (g : globals) :
  exists g', doEntitlementPostProcessing images g = (Ok images, g').
Proof.
  unfold doEntitlementPostProcessing, mbind, M_bind, get, put.
  destruct (for_each_post_process_total images
              {| defaultnbi := defaultnbi g; hasdefault := hasdefault g;
                 imagenameslist := [] |}) as [g' ->].
  by eexists.
Qed.

Lemma imagenameslist_update_default (image : nbi) (g : globals) :
  imagenameslist (update_default image g) = imagenameslist g.
Proof. unfold update_default. by repeat case_match. Qed.

Lemma post_process_image_names (image : nbi) (g1 g2 : globals) :
  imagenameslist g1 = imagenameslist g2 ->
  (post_process_image image g1).1 = (post_process_image image g2).1 /\
  imagenameslist (post_process_image image g1).2
  = imagenameslist (post_process_image image g2).2.
Proof.
  intros H. unfold post_process_image, mbind, M_bind, get, put, lift.
  destruct (image_entry image) as [entry|e]; cbn;
    by rewrite !imagenameslist_update_default, ?H.
Qed.

Lemma for_each_post_process_names (images : list nbi) :
  forall g1 g2, imagenameslist g1 = imagenameslist g2 ->
  (for_each post_process_image images g1).1 = (for_each post_process_image images g2).1 /\
  imagenameslist (for_each post_process_image images g1).2
  = imagenameslist (for_each post_process_image images g2).2.
Proof.
  induction images as [|image images IH]; intros g1 g2 H; [done|].
  cbn [for_each]. unfold mbind, M_bind.
  destruct (post_process_image_names image g1 g2 H) as [Hr Hn].
  destruct (post_process_image image g1) as [[[]|e1] g1'],
           (post_process_image image g2) as [[[]|e2] g2']; cbn in Hr, Hn; try done.
  by apply IH.
Qed.

(** ** C3 and C4: the default image *)

(** C3.  The comments of [doEntitlementPostProcessing] describe the highest
    index among the images flagged as default, else the highest index.
    The loop compares a default image with the running maximum of the
    images seen before it, default or not, and never resets [defaultnbi]
    and [hasdefault] between two calls.  From the initial globals the
    admitted list [9 (plain); 5 (default)] yields 9 where 5 is described;
    and after a call that admitted the default image 7, the admitted list
    [3] yields 7 where 3 is described. *)
Theorem doEntitlementPostProcessing_default_differs :
  let first := getSysIdEntitlement [plain_9; default_5] "Mac-X"
                 (chaddr_to_mac mac_11) initial_globals in
  first.1 = Ok [plain_9; default_5] /\
  defaultnbi first.2 = 9 /\
  described_default [plain_9; default_5] = 5 /\
  defaultnbi
    (doEntitlementPostProcessing [plain_3_for_A]
       (doEntitlementPostProcessing [default_7_for_B] initial_globals).2).2 = 7 /\
  described_default [plain_3_for_A] = 3.
Proof. vm_compute. done. Qed.

(** C4.  Two calls of [getSysIdEntitlement] with the same catalog and the
    same client do not leave the same default image when a call for
    another client came between them: [defaultnbi] and [hasdefault] keep
    what the other client's call assigned. *)
Theorem getSysIdEntitlement_depends_on_history :
  let catalog := [plain_3_for_A; default_7_for_B] in
  let mac := chaddr_to_mac mac_11 in
  let g1 := (getSysIdEntitlement catalog "Mac-A" mac initial_globals).2 in
  let g2 := (getSysIdEntitlement catalog "Mac-B" mac g1).2 in
  let g3 := (getSysIdEntitlement catalog "Mac-A" mac g2).2 in
  defaultnbi g1 = 3 /\ defaultnbi g2 = 7 /\ defaultnbi g3 = 7.
Proof. vm_compute. done. Qed.

(** X3.  The part of [getSysIdEntitlement] that is a function of the
    client and the catalog alone: the entitled list and [imagenameslist]
    are the same whatever the globals were before the call. *)
Lemma entitlements_ignore_history (nbisources : list nbi)
    (clientsysid clientmacaddr : string) (g1 g2 : globals) :
  (getSysIdEntitlement nbisources clientsysid clientmacaddr g1).1
  = (getSysIdEntitlement nbisources clientsysid clientmacaddr g2).1 /\
  imagenameslist (getSysIdEntitlement nbisources clientsysid clientmacaddr g1).2
  = imagenameslist (getSysIdEntitlement nbisources clientsysid clientmacaddr g2).2.
Proof.
  unfold getSysIdEntitlement, doEntitlementPostProcessing, mbind, M_bind, get, put.
  set (images := nbientitlements _ _ _).
  destruct (for_each_post_process_names images
    {| defaultnbi := defaultnbi g1; hasdefault := hasdefault g1; imagenameslist := [] |}
    {| defaultnbi := defaultnbi g2; hasdefault := hasdefault g2; imagenameslist := [] |}
    eq_refl) as [Hr Hn].
  destruct (for_each _ _ _) as [[[]|e1] g1'], (for_each _ _ _) as [[[]|e2] g2'];
    cbn in Hr, Hn |- *; try done. split; congruence.
Qed.

Lemma post_process_image_no_flag (image : nbi) (g : globals) :
  nbi_isdefault image = false -> hasdefault g = false ->
  exists g', post_process_image image g = (Ok tt, g') /\
             hasdefault g' = false /\
             defaultnbi g' = N.max (defaultnbi g) (nbi_id image).
Proof.
  intros Hflag Hg. unfold post_process_image, mbind, M_bind, get, put, lift.
  destruct (image_entry_total image) as [entry ->]. eexists. split; [done|].
  unfold update_default. rewrite Hflag, Hg. cbn [negb].
  destruct (N.ltb_spec (defaultnbi g) (nbi_id image)); cbn; split; try done; lia.
Qed.

Lemma for_each_no_flag (images : list nbi) :
  Forall (fun i => nbi_isdefault i = false) images ->
  forall g, hasdefault g = false ->
  defaultnbi (for_each post_process_image images g).2
  = N.max (defaultnbi g) (max_id images).
Proof.
  induction 1 as [|image images Hflag _ IH]; intros g Hg.
  - cbn. lia.
  - destruct (post_process_image_no_flag image g Hflag Hg) as (g1 & Hstep & Hg1 & Hd).
    cbn [for_each]. unfold mbind, M_bind. rewrite Hstep, (IH g1 Hg1), Hd.
    change (max_id (image :: images)) with (N.max (nbi_id image) (max_id images)).
    lia.
Qed.

Lemma described_default_no_flag (images : list nbi) :
  Forall (fun i => nbi_isdefault i = false) images ->
  described_default images = max_id images.
Proof.
  intros H. unfold described_default.
  replace (filter (fun i => nbi_isdefault i = true) images) with (@nil nbi); [done|].
  symmetry. induction H as [|image images Hflag _ IH]; [done|].
  rewrite filter_cons_False; [done|]. by rewrite Hflag.
Qed.

(** Where the loop and the description agree: from the initial globals,
    when no admitted image is flagged as default, [defaultnbi] is the
    highest index. *)
Lemma default_without_flag (images : list nbi) :
  Forall (fun i => nbi_isdefault i = false) images ->
  defaultnbi (doEntitlementPostProcessing images initial_globals).2
  = described_default images.
Proof.
  intros H. rewrite (described_default_no_flag images H).
  unfold doEntitlementPostProcessing, mbind, M_bind, get, put.
  pose proof (for_each_no_flag images H initial_globals eq_refl) as Hloop.
  change {| defaultnbi := defaultnbi initial_globals;
            hasdefault := hasdefault initial_globals; imagenameslist := [] |}
    with initial_globals.
  destruct (for_each _ _ _) as [[[]|e] g']; cbn in Hloop |- *; rewrite Hloop;
    change (defaultnbi initial_globals) with 0; lia.
Qed.

(** ** C5: the default image of a LIST reply *)

(** C5.  The comment in [ack] announces a test for a default image index
    of 0; the code tests the last element of the encoded option, the low
    byte of the index.  With the only image of the catalog at index
    [0x0100], the second LIST request of a client finds
    [defaultnbi = 0x0100], and its reply carries no sub-option 7: the
    image list follows the priority at once. *)
Theorem list_reply_omits_default_256 :
  compiledlistpacket (nfs_server [default_256]) [default_256] (Some 0x0100)
    (list_entry default_256)
  = Ok ([1; 1; 1; 4; 2; 7; 9] ++ [9; 13] ++ list_entry default_256) /\
  let request := (offline, inform "Mac-X" mac_11 [1; 1; 1]) in
  let run := serve (nfs_server [default_256]) [request; request] initial_globals in
  defaultnbi run.2 = 0x0100 /\
  sent_options <$> (run.1 !! 1%nat)
  = Some (Some ([1; 1; 1; 4; 2; 7; 9] ++ [9; 13] ++ list_entry default_256)).
Proof. vm_compute. done. Qed.

(** ** C9: the BSDP options of a LIST reply *)

(** With a 16-bit index, ['%04X'] gives four digits and the entry of an
    image is [list_entry]. *)
Lemma image_entry_16bit (image : nbi) :
  nbi_id image < 65536 -> image_entry image = Ok (list_entry image).
Proof. intros H. unfold image_entry. by rewrite hex_pairs_16bit. Qed.

Lemma post_process_image_16bit (image : nbi) (g : globals) :
  nbi_id image < 65536 ->
  exists g', post_process_image image g = (Ok tt, g') /\
             imagenameslist g' = imagenameslist g ++ list_entry image.
Proof.
  intros H. eexists. unfold post_process_image, mbind, M_bind, get, put, lift.
  rewrite (image_entry_16bit _ H). split; [reflexivity|].
  cbn. by rewrite imagenameslist_update_default.
Qed.

Lemma for_each_post_process_16bit (images : list nbi) :
  Forall (fun i => nbi_id i < 65536) images ->
  forall g, exists g', for_each post_process_image images g = (Ok tt, g') /\
                       imagenameslist g' = imagenameslist g ++ list_entries images.
Proof.
  induction 1 as [|image images Hid _ IH]; intros g.
  - exists g. split; [done|]. unfold list_entries. cbn. by rewrite app_nil_r.
  - destruct (post_process_image_16bit image g Hid) as (g1 & Hstep & Hnames).
    destruct (IH g1) as (g' & Hrest & Hnames').
    exists g'. split.
    + cbn [for_each]. unfold mbind, M_bind. by rewrite Hstep.
    + rewrite Hnames', Hnames. unfold list_entries. cbn [fmap list_fmap concat].
      by rewrite <- app_assoc.
Qed.

(** On images with 16-bit indices [doEntitlementPostProcessing] does not
    raise, returns its argument, and leaves in [imagenameslist] the
    entries of these images, in order. *)
Lemma doEntitlementPostProcessing_16bit (images : list nbi) (g : globals) :
  Forall (fun i => nbi_id i < 65536) images ->
  exists g', doEntitlementPostProcessing images g = (Ok images, g') /\
             imagenameslist g' = list_entries images.
Proof.
  intros H.
  destruct (for_each_post_process_16bit images H
              {| defaultnbi := defaultnbi g; hasdefault := hasdefault g;
                 imagenameslist := [] |}) as (g' & Hloop & Hnames).
  exists g'. split; [|done].
  unfold doEntitlementPostProcessing, mbind, M_bind, get, put.
  by rewrite Hloop.
Qed.

Lemma Forall_nbientitlements (P : nbi -> Prop) (nbisources : list nbi)
    (clientsysid clientmacaddr : string) :
  Forall P nbisources -> Forall P (nbientitlements nbisources clientsysid clientmacaddr).
Proof.
  induction 1 as [|thisnbi rest HP _ IH]; [done|].
  cbn [nbientitlements]. destruct (entitles _ _ _); [by constructor|done].
Qed.

Lemma strlist_of_list_Ok (l l' : list N) : strlist_of_list l = Ok l' -> l' = l.
Proof. unfold strlist_of_list. case_match; congruence. Qed.

Lemma fold_left_lengths (images : list nbi) :
  forall a : N,
  fold_left (fun acc i => acc + nbi_length i) images a = a + sum_lengths images.
Proof.
  induction images as [|i images IH]; intros a.
  - cbn. lia.
  - cbn [fold_left]. rewrite IH.
    change (sum_lengths (i :: images)) with (nbi_length i + sum_lengths images). lia.
Qed.

(** The layout of [compiledlistpacket] when it does not raise. *)
Lemma compiledlistpacket_layout (srv : server) (enablednbis : list nbi) (d : N)
    (names blob : list N) :
  d < 65536 ->
  compiledlistpacket srv enablednbis (Some d) names = Ok blob ->
  blob = [1; 1; 1] ++ [4; 2; (serverpriority srv).1; (serverpriority srv).2]
         ++ (if d mod 256 =? 0 then [] else default_option d)
         ++ [9; 5 * len enablednbis + sum_lengths enablednbis] ++ names.
Proof.
  intros Hd H. unfold compiledlistpacket in H. cbn [mbind result_bind] in H.
  rewrite (hex_pairs_16bit d Hd) in H. cbn [mbind result_bind app last] in H.
  rewrite fold_left_lengths in H.
  bind_inv H as head Hhead. apply strlist_of_list_Ok in Hhead as ->.
  bind_inv H as dflt Hdflt.
  bind_inv H as images Himages. apply strlist_of_list_Ok in Himages as ->.
  injection H as <-.
  assert (dflt = if d mod 256 =? 0 then [] else default_option d) as ->.
  { destruct (d mod 256) eqn:Hlo; cbn [negb N.eqb] in Hdflt |- *.
    - congruence.
    - apply strlist_of_list_Ok in Hdflt as ->.
      unfold default_option. by rewrite Hlo. }
  cbn [app]. do 7 f_equal.
  replace (len enablednbis * 5 + (0 + sum_lengths enablednbis))
    with (5 * len enablednbis + sum_lengths enablednbis) by lia.
  done.
Qed.

(** What a successful common part of [ack] went through. *)
Lemma ack_common_inv (srv : server) (w : world) (packet : DhcpPacket) (g g' : globals)
    (clientmacaddr : string) (clientip : list N) (bsdpoptions : gmap string (list N))
    (enablednbis : list nbi) (replyport : N) :
  ack_common srv w packet g
    = (Ok (clientmacaddr, clientip, bsdpoptions, enablednbis, replyport), g') ->
  exists clientsysid,
    clientsysid_of packet = Ok clientsysid /\
    clientmacaddr = chaddr_to_mac (chaddr packet) /\
    clientip_of packet = Ok clientip /\
    parseOptions (vendor_encapsulated_options packet) = Ok bsdpoptions /\
    enablednbis_for srv w clientsysid clientmacaddr clientip g = (Ok enablednbis, g') /\
    replyport_of bsdpoptions = Ok replyport.
Proof.
  unfold ack_common, except_common, mbind, M_bind, lift, mret, M_ret.
  destruct (clientsysid_of packet) as [clientsysid|]; [|done].
  destruct (clientip_of packet) as [ip|]; [|done].
  destruct (parseOptions _) as [opts|]; [|done].
  destruct (enablednbis_for _ _ _ _ _ _) as [[nbis|] g1] eqn:Hnbis; [|done].
  destruct (replyport_of opts) as [port|] eqn:Hport; [|done].
  intros [= <- <- <- <- <- <-]. exists clientsysid. by rewrite Hnbis.
Qed.

Lemma handle_packet_list_inv (srv : server) (w : world) (packet : DhcpPacket)
    (g g' : globals) (bsdpack : BsdpAck) (clientip : list N) (replyport : N) :
  vendor_encapsulated_options packet !! 2%nat = Some 1 ->
  handle_packet srv w packet g = (Some (bsdpack, clientip, replyport), g') ->
  exists clientmacaddr bsdpoptions enablednbis,
    ack_common srv w packet g
      = (Ok (clientmacaddr, clientip, bsdpoptions, enablednbis, replyport), g') /\
    list_reply srv (common_reply srv packet) enablednbis (Some (defaultnbi g))
      (imagenameslist g') = Ok bsdpack.
Proof.
  intros Hkind. unfold handle_packet, getitem. change (N.to_nat 2) with 2%nat.
  rewrite Hkind. cbn [N.eqb Pos.eqb].
  destruct (1 <? _); [|done].
  unfold ack, mbind, M_bind.
  destruct (ack_common srv w packet g) as [[[[[[mac ip] opts] nbis] port]|] g1]; [|done].
  unfold get, lift, mret, M_ret.
  destruct (list_reply _ _ _ _ _) as [reply|] eqn:Hreply; [|done].
  intros [= <- <- <- <-]. by exists mac, opts, nbis.
Qed.

(** The 16-bit range is kept by every round of the loop, so it holds of
    [defaultnbi] all along a run from [initial_globals]. *)
Lemma update_default_16bit (image : nbi) (g : globals) :
  nbi_id image < 65536 -> defaultnbi g < 65536 ->
  defaultnbi (update_default image g) < 65536.
Proof. intros Hid Hg. unfold update_default. by repeat case_match. Qed.

Lemma post_process_image_keeps_16bit (image : nbi) (g : globals) :
  nbi_id image < 65536 -> defaultnbi g < 65536 ->
  defaultnbi (post_process_image image g).2 < 65536.
Proof.
  intros Hid Hg. unfold post_process_image, mbind, M_bind, get, put, lift.
  destruct (image_entry image); by apply update_default_16bit.
Qed.

Lemma for_each_keeps_16bit (images : list nbi) :
  Forall (fun i => nbi_id i < 65536) images ->
  forall g, defaultnbi g < 65536 ->
  defaultnbi (for_each post_process_image images g).2 < 65536.
Proof.
  induction 1 as [|image images Hid _ IH]; intros g Hg; [done|].
  cbn [for_each]. unfold mbind, M_bind.
  pose proof (post_process_image_keeps_16bit image g Hid Hg) as Hstep.
  destruct (post_process_image image g) as [[[]|e] g1]; [by apply IH|done].
Qed.

Lemma doEntitlementPostProcessing_keeps_16bit (images : list nbi) (g : globals) :
  Forall (fun i => nbi_id i < 65536) images -> defaultnbi g < 65536 ->
  defaultnbi (doEntitlementPostProcessing images g).2 < 65536.
Proof.
  intros Himages Hg.
  unfold doEntitlementPostProcessing, mbind, M_bind, get, put.
  pose proof (for_each_keeps_16bit images Himages
                {| defaultnbi := defaultnbi g; hasdefault := hasdefault g;
                   imagenameslist := [] |} Hg) as Hloop.
  by destruct (for_each _ _ _) as [[[]|e] g1].
Qed.

Lemma ack_state (srv : server) (w : world) (packet : DhcpPacket)
    (d : option N) (m : msgtype) (g : globals) :
  (ack srv w packet d m g).2 = (ack_common srv w packet g).2.
Proof.
  unfold ack, mbind, M_bind.
  destruct (ack_common srv w packet g) as [[[[[[mac ip] opts] nbis] port]|e] g1];
    [|done].
  destruct m; unfold get, lift; cbn [snd].
  - by destruct (list_reply _ _ _ _ _).
  - by destruct (select_reply _ _ _ _ _).
Qed.

(** A server whose catalog holds 16-bit indices, and a catalog API that
    answers with such indices. *)
Section SixteenBit.
Variables (srv : server) (w : world).
Hypothesis catalog_16bit : Forall (fun i => nbi_id i < 65536) (nbiimages srv).
Hypothesis api_16bit :
  forall mac model ip l,
    getNbiFromApi w mac model ip = Ok l -> Forall (fun i => nbi_id i < 65536) l.

Lemma enablednbis_for_keeps_16bit (clientsysid clientmacaddr : string)
    (clientip : list N) (g : globals) :
  defaultnbi g < 65536 ->
  defaultnbi (enablednbis_for srv w clientsysid clientmacaddr clientip g).2 < 65536.
Proof using catalog_16bit api_16bit.
  intros Hg. unfold enablednbis_for. destruct (useapiurl srv).
  - unfold mbind, M_bind, lift.
    destruct (getNbiFromApi w _ _ _) as [l|] eqn:Hl; [|done].
    pose proof (doEntitlementPostProcessing_keeps_16bit l g (api_16bit _ _ _ _ Hl) Hg).
    by destruct (doEntitlementPostProcessing l g) as [[?|?] ?].
  - apply doEntitlementPostProcessing_keeps_16bit; [|done].
    by apply Forall_nbientitlements.
Qed.

Lemma ack_common_keeps_16bit (packet : DhcpPacket) (g : globals) :
  defaultnbi g < 65536 -> defaultnbi (ack_common srv w packet g).2 < 65536.
Proof using catalog_16bit api_16bit.
  intros Hg. unfold ack_common, except_common, mbind, M_bind, lift.
  destruct (clientsysid_of packet) as [clientsysid|]; [|done].
  destruct (clientip_of packet) as [clientip|]; [|done].
  destruct (parseOptions _) as [bsdpoptions|]; [|done].
  pose proof (enablednbis_for_keeps_16bit clientsysid
                (chaddr_to_mac (chaddr packet)) clientip g Hg) as Hnbis.
  destruct (enablednbis_for _ _ _ _ _ _) as [[nbis|] g1]; [|done].
  by destruct (replyport_of bsdpoptions).
Qed.

Lemma handle_packet_keeps_16bit (packet : DhcpPacket) (g : globals) :
  defaultnbi g < 65536 -> defaultnbi (handle_packet srv w packet g).2 < 65536.
Proof using catalog_16bit api_16bit.
  intros Hg. unfold handle_packet.
  destruct (1 <? _); [|done].
  destruct (getitem _ 2) as [kind|]; [|done].
  destruct (kind =? 1).
  { pose proof (ack_common_keeps_16bit packet g Hg) as H.
    rewrite <- (ack_state srv w packet (Some (defaultnbi g)) list_msg) in H.
    by destruct (ack _ _ _ _ _ _) as [[?|?] ?]. }
  destruct (kind =? 2).
  { pose proof (ack_common_keeps_16bit packet g Hg) as H.
    rewrite <- (ack_state srv w packet None select_msg) in H.
    by destruct (ack _ _ _ _ _ _) as [[?|?] ?]. }
  by destruct (_ <=? 7).
Qed.

(** What a successful entitlement lookup returns and leaves in
    [imagenameslist]. *)
Lemma enablednbis_for_inv (clientsysid clientmacaddr : string)
    (clientip : list N) (g g' : globals) (enablednbis : list nbi) :
  enablednbis_for srv w clientsysid clientmacaddr clientip g = (Ok enablednbis, g') ->
  (if useapiurl srv
   then getNbiFromApi w clientmacaddr clientsysid clientip = Ok enablednbis
   else enablednbis = nbientitlements (nbiimages srv) clientsysid clientmacaddr) /\
  imagenameslist g' = list_entries enablednbis.
Proof using catalog_16bit api_16bit.
  unfold enablednbis_for. destruct (useapiurl srv).
  - unfold mbind, M_bind, lift.
    destruct (getNbiFromApi w _ _ _) as [l|] eqn:Hl; [|done].
    destruct (doEntitlementPostProcessing_16bit l g (api_16bit _ _ _ _ Hl))
      as (g1 & -> & Hnames).
    by intros [= <- <-].
  - unfold getSysIdEntitlement.
    destruct (doEntitlementPostProcessing_16bit
                (nbientitlements (nbiimages srv) clientsysid clientmacaddr) g
                (Forall_nbientitlements _ _ _ _ catalog_16bit))
      as (g1 & -> & Hnames).
    by intros [= <- <-].
Qed.

(** With 16-bit image indices (in the catalog, in the API's answers
    and in [defaultnbi]), the BSDP options of every LIST reply are
    [[1,1,1]], then [[4,2,P0,P1]] with the server priority, then the
    [default_boot_image] sub-option unless the low byte of [defaultnbi]
    is 0, then [[9, totalLen]] followed by one entry
    [[0x81, 0x00, id_hi, id_lo, name_len] + name] per admitted image, in
    the order of admission, where [totalLen] is five times the number of
    admitted images plus the sum of their [length] fields. *)
Theorem list_reply_layout (packet : DhcpPacket) (g g' : globals)
    (bsdpack : BsdpAck) (clientip : list N) (replyport : N) :
  defaultnbi g < 65536 ->
  vendor_encapsulated_options packet !! 2%nat = Some 1 ->
  handle_packet srv w packet g = (Some (bsdpack, clientip, replyport), g') ->
  exists (clientsysid : string) (admitted : list nbi),
    clientsysid_of packet = Ok clientsysid /\
    (if useapiurl srv
     then getNbiFromApi w (chaddr_to_mac (chaddr packet)) clientsysid clientip
          = Ok admitted
     else admitted = nbientitlements (nbiimages srv) clientsysid
                       (chaddr_to_mac (chaddr packet))) /\
    ack_vendor_encapsulated_options bsdpack
    = Some ([1; 1; 1] ++ [4; 2; (serverpriority srv).1; (serverpriority srv).2]
            ++ (if defaultnbi g mod 256 =? 0 then []
                else default_option (defaultnbi g))
            ++ [9; 5 * len admitted + sum_lengths admitted]
            ++ list_entries admitted).
Proof using catalog_16bit api_16bit.
  intros Hd Hkind Hsent.
  destruct (handle_packet_list_inv _ _ _ _ _ _ _ _ Hkind Hsent)
    as (mac & opts & admitted & Hcommon & Hreply).
  apply ack_common_inv in Hcommon
    as (clientsysid & Hsysid & -> & _ & _ & Hnbis & _).
  destruct (enablednbis_for_inv _ _ _ _ _ _ Hnbis) as [Hadmitted Hnames].
  exists clientsysid, admitted. split; [done|]. split; [done|].
  unfold list_reply in Hreply.
  bind_inv Hreply as blob Hblob. injection Hreply as <-.
  rewrite Hnames in Hblob.
  by rewrite (compiledlistpacket_layout _ _ _ _ _ Hd Hblob).
Qed.
End SixteenBit.

(** Scenario S1, for a client whose LIST request is not the first the
    process handles: the reply carries [S1_options]. *)
Lemma list_reply_layout_witness :
  exists (clientsysid : string) (admitted : list nbi),
    clientsysid_of list_request = Ok clientsysid /\
    admitted = nbientitlements [TestImage] clientsysid
                 (chaddr_to_mac (chaddr list_request)) /\
    Some S1_options
    = Some ([1; 1; 1] ++ [4; 2; 7; 9] ++ default_option 0x1001
            ++ [9; 5 * len admitted + sum_lengths admitted]
            ++ list_entries admitted).
Proof.
  refine (list_reply_layout (nfs_server [TestImage]) offline _ _ list_request
            after_TestImage after_TestImage
            (SetOption_vendor_encapsulated_options
               (common_reply (nfs_server [TestImage]) list_request) S1_options)
            [10; 0; 0; 5] 68 _ _ _).
  - repeat constructor.
  - intros mac model ip l. discriminate.
  - reflexivity.
  - reflexivity.
  - vm_compute. reflexivity.
Defined.

(** ** C8: the packets that get no reply *)

(** C8, as the loop implements it.  A packet whose
    [vendor_encapsulated_options] have no third byte, or a third byte
    other than 1 and 2, gets no reply, and the globals are left as they
    were. *)
Theorem handle_packet_ignores (srv : server) (w : world) (packet : DhcpPacket)
    (g : globals) :
  vendor_encapsulated_options packet !! 2%nat <> Some 1 ->
  vendor_encapsulated_options packet !! 2%nat <> Some 2 ->
  handle_packet srv w packet g = (None, g).
Proof.
  intros H1 H2. unfold handle_packet, getitem.
  change (N.to_nat 2) with 2%nat.
  destruct (1 <? _); [|done].
  destruct (vendor_encapsulated_options packet !! 2%nat) as [kind|]; [|done].
  destruct (N.eqb_spec kind 1) as [->|_]; [done|].
  destruct (N.eqb_spec kind 2) as [->|_]; [done|].
  by destruct (_ <=? 7).
Qed.

(** A blob whose message type is 3 (FAILED). *)
Lemma handle_packet_ignores_witness :
  handle_packet (nfs_server [TestImage]) offline (inform "Mac-X" mac_11 [1; 1; 3])
    initial_globals = (None, initial_globals).
Proof. by apply handle_packet_ignores. Defined.

(** C8 as stated fails.  The loop looks at the third byte of the blob
    only: the four bytes [[5, 2, 1, 0x90]] are a lone [reply_port]
    sub-option, no [message_type] comes first and the blob is shorter
    than eight bytes, yet the packet is handled as a LIST request and a
    reply goes to port [0x190 = 400]. *)
Lemma handle_packet_answers_short_blob :
  vendor_encapsulated_options reply_port_only = encode_options [(5, [1; 0x90])] /\
  len (vendor_encapsulated_options reply_port_only) <= 7 /\
  exists bsdpack,
    (handle_packet (nfs_server [TestImage]) offline reply_port_only
       initial_globals).1 = Some (bsdpack, [10; 0; 0; 5], 400) /\
    ack_vendor_encapsulated_options bsdpack
    = Some ([1; 1; 1; 4; 2; 7; 9] ++ [9; 14] ++ list_entry TestImage).
Proof.
  split; [reflexivity|]. split; [by vm_compute|].
  eexists. split; [by vm_compute|]. reflexivity.
Qed.

(** ** C2: SELECT of an image the client is not entitled to *)

Lemma select_images_no_match (srv : server) (basedmgpath : string) (imageid : N)
    (selected_boot_image : list N) (acc : string * string * list N)
    (enablednbis : list nbi) :
  Forall (fun i => nbi_id i <> imageid) enablednbis ->
  select_images srv basedmgpath imageid selected_boot_image acc enablednbis = Ok acc.
Proof.
  induction 1 as [|nbidict rest Hid _ IH]; [done|].
  cbn [select_images]. unfold select_image.
  destruct acc as [[booterfile rootpath] selectedimage].
  rewrite (proj2 (N.eqb_neq _ _) Hid). cbn [mbind result_bind]. apply IH.
Qed.

(** C2, as [ack] implements it.  When the common part of [ack] succeeds
    for a SELECT request and the index in the two low bytes of
    [selected_boot_image] is that of no entitled image, what happens
    rests on the guarded call of [getBaseDmgPath] alone.  If it does not
    raise, the request is not dropped: [unknown_select_ack] goes to the
    client's address and reply port.  If it raises, no reply is sent.
    The globals are those the common part left, either way. *)
Theorem select_unknown_image_is_answered (srv : server) (w : world)
    (packet : DhcpPacket) (g g' : globals) (clientmacaddr : string)
    (clientip : list N) (bsdpoptions : gmap string (list N))
    (enablednbis : list nbi) (replyport : N)
    (selected_boot_image : list N) (b2 b3 : N) :
  vendor_encapsulated_options packet !! 2%nat = Some 2 ->
  ack_common srv w packet g
    = (Ok (clientmacaddr, clientip, bsdpoptions, enablednbis, replyport), g') ->
  bsdpoptions !! "selected_boot_image" = Some selected_boot_image ->
  selected_boot_image !! 2%nat = Some b2 ->
  selected_boot_image !! 3%nat = Some b3 ->
  b2 < 256 -> b3 < 256 ->
  Forall (fun i => nbi_id i <> 256 * b2 + b3) enablednbis ->
  handle_packet srv w packet g
  = match refreshed_basedmgpath w with
    | Ok _ => (Some (unknown_select_ack srv packet, clientip, replyport), g')
    | Raise _ => (None, g')
    end.
Proof.
  intros Hkind Hcommon Hsel Hb2 Hb3 Hlt2 Hlt3 Hnone.
  unfold handle_packet, getitem. change (N.to_nat 2) with 2%nat. rewrite Hkind.
  assert ((1 <? len (vendor_encapsulated_options packet)) = true) as ->.
  { apply N.ltb_lt. apply lookup_lt_Some in Hkind. unfold len. lia. }
  cbn [N.eqb Pos.eqb].
  unfold ack, mbind at 1, M_bind. rewrite Hcommon.
  unfold select_reply, dict_get, getitem.
  change (N.to_nat 2) with 2%nat. change (N.to_nat 3) with 3%nat.
  rewrite Hsel. cbn [mbind result_bind]. rewrite Hb2, Hb3. cbn [mbind result_bind].
  rewrite (int16_two_bytes b2 b3 Hlt2 Hlt3). cbn [mbind result_bind].
  destruct (refreshed_basedmgpath w) as [refreshed|e]; [|reflexivity].
  cbn [mbind result_bind].
  rewrite (select_images_no_match _ _ _ _ _ _ Hnone).
  reflexivity.
Qed.

(** A SELECT of image 99 against a catalog that holds image [0x1001]. *)
Lemma select_unknown_image_is_answered_witness :
  handle_packet (nfs_server [TestImage]) offline select_99 initial_globals
  = (Some (unknown_select_ack (nfs_server [TestImage]) select_99, [10; 0; 0; 5], 68),
     after_TestImage).
Proof.
  apply (select_unknown_image_is_answered (nfs_server [TestImage]) offline select_99
           initial_globals after_TestImage (chaddr_to_mac (chaddr select_99))
           [10; 0; 0; 5]
           (named_options [(1, [2]); (8, [129; 0; 0; 99])])
           [TestImage] 68 [129; 0; 0; 99] 0 99).
  - reflexivity.
  - unfold ack_common, except_common, mbind, M_bind, lift.
    change (vendor_encapsulated_options select_99)
      with (encode_options [(1, [2]); (8, [129; 0; 0; 99])]).
    rewrite parseOptions_encoded; [by vm_compute|].
    repeat constructor; by eexists.
  - by vm_compute.
  - reflexivity.
  - reflexivity.
  - reflexivity.
  - reflexivity.
  - repeat constructor. by vm_compute.
Defined.

(** C2 as stated fails.  Image 99 is not among the images the client is
    entitled to, and the SELECT request is answered all the same, with a
    [file] of 128 NUL bytes, an empty [root_path] and BSDP options
    [[1, 1, 2, 8, 4]]. *)
Lemma select_unknown_image_gets_ack :
  vendor_encapsulated_options select_99 !! 2%nat = Some 2 /\
  parseOptions (vendor_encapsulated_options select_99)
    ≫= (fun o => dict_get o "selected_boot_image") = Ok [129; 0; 0; 99] /\
  Forall (fun i => nbi_id i <> 99)
    (nbientitlements [TestImage] "Mac-X" (chaddr_to_mac (chaddr select_99))) /\
  exists bsdpack,
    (handle_packet (nfs_server [TestImage]) offline select_99 initial_globals).1
      = Some (bsdpack, [10; 0; 0; 5], 68) /\
    ack_file bsdpack = Some (replicate 128 0) /\
    ack_root_path bsdpack = Some [] /\
    ack_vendor_encapsulated_options bsdpack = Some [1; 1; 2; 8; 4].
Proof.
  split; [reflexivity|].
  split; [by vm_compute|]. split; [repeat constructor; by vm_compute|].
  eexists. split; [by vm_compute|]. done.
Qed.

(** * Further properties *)

(** [x = y] for closed [x] and [y], by evaluation. *)
Ltac by_evaluation :=
  lazymatch goal with |- ?x = ?y => exact (@eq_refl _ y <: x = y) end.

(** ** The entitlement test *)

Lemma entitles_iff (clientsysid clientmacaddr : string) (thisnbi : nbi) :
  entitles clientsysid clientmacaddr thisnbi = true <->
  not_banned clientsysid clientmacaddr thisnbi.
Proof.
  unfold entitles, not_banned, len.
  destruct (nbi_disabledsysids thisnbi) as [|d dis];
    destruct (nbi_enabledsysids thisnbi) as [|e en];
    cbn [length N.of_nat N.eqb andb];
    repeat case_bool_decide; cbn [andb negb orb]; split;
    try done; try tauto; try (intros []; tauto); intros; exfalso; tauto.
Qed.

(** X1.  The list [getSysIdEntitlement] admits is the catalog, in its
    order, without the images that list the client's model among
    [disabledsysids] and without those whose non-empty [enabledmacaddrs]
    does not hold the client's MAC address: [enabledsysids] has no say in
    it. *)
Theorem nbientitlements_filter (nbisources : list nbi)
    (clientsysid clientmacaddr : string) :
  nbientitlements nbisources clientsysid clientmacaddr
  = filter (not_banned clientsysid clientmacaddr) nbisources.
Proof.
  induction nbisources as [|thisnbi rest IH]; [done|].
  cbn [nbientitlements]. rewrite IH.
  destruct (entitles clientsysid clientmacaddr thisnbi) eqn:E.
  - by rewrite filter_cons_True by by apply entitles_iff.
  - rewrite filter_cons_False; [done|].
    intros H%entitles_iff. congruence.
Qed.

(** X2 at the two bytes of port 8080. *)
Lemma replyport_of_bytes_witness :
  replyport_of {[ "reply_port" := [0x1f; 0x90] ]} = Ok 8080.
Proof.
  exact (replyport_of_bytes {[ "reply_port" := [0x1f; 0x90] ]} 0x1f 0x90 []
           eq_refl eq_refl eq_refl).
Defined.

(** ** The default image over the life of the process *)

Lemma update_default_grows (image : nbi) (g : globals) :
  defaultnbi g <= defaultnbi (update_default image g) /\
  (hasdefault g = true -> hasdefault (update_default image g) = true).
Proof.
  unfold update_default.
  destruct (nbi_isdefault image), (hasdefault g) eqn:Hh; cbn [negb];
    try destruct (N.ltb_spec (defaultnbi g) (nbi_id image)); cbn; split; try done; lia.
Qed.

Lemma post_process_image_grows (image : nbi) (g : globals) :
  defaultnbi g <= defaultnbi (post_process_image image g).2 /\
  (hasdefault g = true -> hasdefault (post_process_image image g).2 = true).
Proof.
  unfold post_process_image, mbind, M_bind, get, put, lift.
  destruct (image_entry image); apply update_default_grows.
Qed.

Lemma for_each_post_process_grows (images : list nbi) :
  forall g,
  defaultnbi g <= defaultnbi (for_each post_process_image images g).2 /\
  (hasdefault g = true -> hasdefault (for_each post_process_image images g).2 = true).
Proof.
  induction images as [|image images IH]; intros g; [done|].
  cbn [for_each]. unfold mbind, M_bind.
  destruct (post_process_image_grows image g) as [Hd Hh].
  destruct (post_process_image image g) as [[[]|e] g1]; cbn [snd] in Hd, Hh; [|done].
  destruct (IH g1) as [Hd' Hh']. split; [lia|auto].
Qed.

Lemma doEntitlementPostProcessing_grows (images : list nbi) (g : globals) :
  defaultnbi g <= defaultnbi (doEntitlementPostProcessing images g).2 /\
  (hasdefault g = true -> hasdefault (doEntitlementPostProcessing images g).2 = true).
Proof.
  unfold doEntitlementPostProcessing, mbind, M_bind, get, put.
  pose proof (for_each_post_process_grows images
                {| defaultnbi := defaultnbi g; hasdefault := hasdefault g;
                   imagenameslist := [] |}) as H.
  by destruct (for_each _ _ _) as [[[]|e] g1].
Qed.

Lemma enablednbis_for_grows (srv : server) (w : world)
    (clientsysid clientmacaddr : string) (clientip : list N) (g : globals) :
  let g' := (enablednbis_for srv w clientsysid clientmacaddr clientip g).2 in
  defaultnbi g <= defaultnbi g' /\ (hasdefault g = true -> hasdefault g' = true).
Proof.
  unfold enablednbis_for. destruct (useapiurl srv).
  - unfold mbind, M_bind, lift.
    destruct (getNbiFromApi w _ _ _) as [l|]; [|by cbn].
    pose proof (doEntitlementPostProcessing_grows l g) as H.
    by destruct (doEntitlementPostProcessing l g) as [[?|?] ?].
  - apply doEntitlementPostProcessing_grows.
Qed.

Lemma ack_common_grows (srv : server) (w : world) (packet : DhcpPacket) (g : globals) :
  let g' := (ack_common srv w packet g).2 in
  defaultnbi g <= defaultnbi g' /\ (hasdefault g = true -> hasdefault g' = true).
Proof.
  unfold ack_common, except_common, mbind, M_bind, lift.
  destruct (clientsysid_of packet) as [clientsysid|]; [|by cbn].
  destruct (clientip_of packet) as [clientip|]; [|by cbn].
  destruct (parseOptions _) as [bsdpoptions|]; [|by cbn].
  pose proof (enablednbis_for_grows srv w clientsysid
                (chaddr_to_mac (chaddr packet)) clientip g) as H.
  destruct (enablednbis_for _ _ _ _ _ _) as [[nbis|] g1]; [|done].
  by destruct (replyport_of bsdpoptions).
Qed.

(** One round of the receive loop never lowers [defaultnbi] and never
    takes [hasdefault] back. *)
Lemma handle_packet_grows (srv : server) (w : world)
    (packet : DhcpPacket) (g : globals) :
  defaultnbi g <= defaultnbi (handle_packet srv w packet g).2 /\
  (hasdefault g = true -> hasdefault (handle_packet srv w packet g).2 = true).
Proof.
  pose proof (ack_common_grows srv w packet g) as H. cbn zeta in H.
  unfold handle_packet.
  destruct (1 <? _); [|done].
  destruct (getitem _ 2) as [kind|]; [|done].
  destruct (kind =? 1).
  { rewrite <- (ack_state srv w packet (Some (defaultnbi g)) list_msg) in H.
    by destruct (ack _ _ _ _ _ _) as [[?|?] ?]. }
  destruct (kind =? 2).
  { rewrite <- (ack_state srv w packet None select_msg) in H.
    by destruct (ack _ _ _ _ _ _) as [[?|?] ?]. }
  by destruct (_ <=? 7).
Qed.

(** X4.  Over every sequence of packets, in either mode, answered or not
    and whatever the network answers, the receive loop never lowers
    [defaultnbi] and never takes [hasdefault] back to [False]: once an
    image has become the default, only an image with a higher index
    replaces it, for every later client. *)
Theorem serve_default_grows (srv : server) (inputs : list (world * DhcpPacket)) :
  forall g : globals,
    defaultnbi g <= defaultnbi (serve srv inputs g).2 /\
    (hasdefault g = true -> hasdefault (serve srv inputs g).2 = true).
Proof.
  induction inputs as [|[w packet] inputs IH]; intros g; [done|].
  cbn [serve].
  destruct (handle_packet_grows srv w packet g) as [Hd Hh].
  destruct (handle_packet srv w packet g) as [sent g1]. cbn [snd] in Hd, Hh.
  destruct (IH g1) as [Hd' Hh'].
  destruct (serve srv inputs g1) as [sents g2]. cbn [snd] in *.
  split; [lia|auto].
Qed.

(** What one round of the loop of [doEntitlementPostProcessing] leaves. *)
Lemma post_process_image_eq (image : nbi) (g : globals) :
  exists entry,
    post_process_image image g
    = (Ok tt, {| defaultnbi := defaultnbi (update_default image g);
                 hasdefault := hasdefault (update_default image g);
                 imagenameslist := imagenameslist (update_default image g) ++ entry |}).
Proof.
  destruct (image_entry_total image) as [entry Hentry]. exists entry.
  unfold post_process_image, mbind, M_bind, get, put, lift. by rewrite Hentry.
Qed.

Lemma for_each_sticky (images : list nbi) :
  Forall (fun i => nbi_isdefault i = false) images ->
  forall g, hasdefault g = true ->
  defaultnbi (for_each post_process_image images g).2 = defaultnbi g.
Proof.
  induction 1 as [|image images Hflag _ IH]; intros g Hg; [done|].
  cbn [for_each]. unfold mbind, M_bind.
  destruct (post_process_image_eq image g) as [entry ->].
  assert (Hu : update_default image g = g).
  { unfold update_default. by rewrite Hflag, Hg. }
  rewrite Hu. by rewrite IH.
Qed.

(** X5.  Once [hasdefault] is set, a call of
    [doEntitlementPostProcessing] for images none of which is flagged as
    default leaves [defaultnbi] as it was, however high their indices:
    the default image of an earlier client stays that of this one. *)
Theorem default_sticks_after_flag (images : list nbi) (g : globals) :
  Forall (fun i => nbi_isdefault i = false) images ->
  hasdefault g = true ->
  defaultnbi (doEntitlementPostProcessing images g).2 = defaultnbi g.
Proof.
  intros Himages Hg.
  unfold doEntitlementPostProcessing, mbind, M_bind, get, put.
  pose proof (for_each_sticky images Himages
                {| defaultnbi := defaultnbi g; hasdefault := hasdefault g;
                   imagenameslist := [] |} Hg) as Hd.
  by destruct (for_each _ _ _) as [[[]|e] g1].
Qed.

(** X5 after a first request against [[TestImage]]: image 9 does not take
    the place of image [0x1001]. *)
Lemma default_sticks_after_flag_witness :
  defaultnbi (doEntitlementPostProcessing [plain_9] after_TestImage).2 = 0x1001.
Proof.
  apply (default_sticks_after_flag [plain_9] after_TestImage).
  - repeat constructor.
  - reflexivity.
Defined.

(** X6.  While [hasdefault] is not set, a call of
    [doEntitlementPostProcessing] for images none of which is flagged as
    default leaves in [defaultnbi] the highest of its former value and
    the indices of the images: the value carried over from earlier calls
    competes with the images of this one. *)
Theorem default_is_running_maximum (images : list nbi) (g : globals) :
  Forall (fun i => nbi_isdefault i = false) images ->
  hasdefault g = false ->
  defaultnbi (doEntitlementPostProcessing images g).2
  = N.max (defaultnbi g) (max_id images).
Proof.
  intros Himages Hg.
  unfold doEntitlementPostProcessing, mbind, M_bind, get, put.
  pose proof (for_each_no_flag images Himages
                {| defaultnbi := defaultnbi g; hasdefault := hasdefault g;
                   imagenameslist := [] |} Hg) as Hloop.
  by destruct (for_each _ _ _) as [[[]|e] g1].
Qed.

(** X6 for a process that served image 9 before: image 3 does not become
    the default. *)
Lemma default_is_running_maximum_witness :
  defaultnbi (doEntitlementPostProcessing [plain_3_for_A]
                {| defaultnbi := 9; hasdefault := false; imagenameslist := [] |}).2
  = N.max 9 (max_id [plain_3_for_A]).
Proof.
  apply (default_is_running_maximum [plain_3_for_A]
           {| defaultnbi := 9; hasdefault := false; imagenameslist := [] |}).
  - repeat constructor.
  - reflexivity.
Defined.

(** ** A repeated request *)

Lemma update_default_settled (image : nbi) (g : globals) :
  settled image g -> update_default image g = g.
Proof.
  unfold settled, update_default. intros [Hle|[Hflag Hh]].
  - rewrite (proj2 (N.ltb_ge _ _) Hle).
    by destruct (nbi_isdefault image), (negb (hasdefault g)).
  - by rewrite Hflag, Hh.
Qed.

Lemma update_default_settles (image : nbi) (g : globals) :
  settled image (update_default image g).
Proof.
  unfold settled, update_default.
  destruct (nbi_isdefault image) eqn:Hflag.
  - destruct (N.ltb_spec (defaultnbi g) (nbi_id image)); cbn; left; lia.
  - destruct (hasdefault g) eqn:Hh; cbn [negb]; [by right|].
    destruct (N.ltb_spec (defaultnbi g) (nbi_id image)); cbn; left; lia.
Qed.

Lemma settled_mono (image : nbi) (g g' : globals) :
  defaultnbi g <= defaultnbi g' ->
  (hasdefault g = true -> hasdefault g' = true) ->
  settled image g -> settled image g'.
Proof. unfold settled. intros Hd Hh [Hle|[Hflag H]]; [left; lia|right; auto]. Qed.

Lemma for_each_post_process_settles (images : list nbi) :
  forall g, Forall (fun i => settled i (for_each post_process_image images g).2) images.
Proof.
  induction images as [|image images IH]; intros g; [constructor|].
  cbn [for_each]. unfold mbind, M_bind.
  destruct (post_process_image_eq image g) as [entry Heq]. rewrite Heq.
  set (g1 := {| defaultnbi := _ |}).
  constructor; [|apply IH].
  destruct (for_each_post_process_grows images g1) as [Hd Hh].
  apply (settled_mono image g1); [done|done|].
  pose proof (update_default_settles image g) as H. exact H.
Qed.

Lemma for_each_post_process_settled (images : list nbi) :
  forall g,
    Forall (fun i => settled i g) images ->
    defaultnbi (for_each post_process_image images g).2 = defaultnbi g /\
    hasdefault (for_each post_process_image images g).2 = hasdefault g.
Proof.
  induction images as [|image images IH]; intros g Hall; [done|].
  apply Forall_cons in Hall as [Himage Hall].
  cbn [for_each]. unfold mbind, M_bind.
  destruct (post_process_image_eq image g) as [entry Heq]. rewrite Heq.
  rewrite (update_default_settled image g Himage).
  set (g1 := {| defaultnbi := _ |}).
  destruct (IH g1) as [Hd Hh]; [|done].
  eapply Forall_impl; [exact Hall|]. intros i Hi. exact Hi.
Qed.

Lemma doEntitlementPostProcessing_again (images : list nbi) (g : globals) :
  doEntitlementPostProcessing images (doEntitlementPostProcessing images g).2
  = doEntitlementPostProcessing images g.
Proof.
  unfold doEntitlementPostProcessing, mbind, M_bind, get, put.
  set (g0 := {| defaultnbi := defaultnbi g; hasdefault := hasdefault g;
                imagenameslist := [] |}).
  pose proof (for_each_post_process_settles images g0) as Hsettled.
  destruct (for_each_post_process_total images g0) as [g1 Hg1].
  rewrite Hg1 in Hsettled |- *. unfold mret, M_ret. cbn [snd] in Hsettled |- *.
  set (g1' := {| defaultnbi := defaultnbi g1; hasdefault := hasdefault g1;
                 imagenameslist := [] |}).
  destruct (for_each_post_process_settled images g1') as [Hd Hh]; [exact Hsettled|].
  destruct (for_each_post_process_names images g0 g1' eq_refl) as [_ Hnames].
  destruct (for_each_post_process_total images g1') as [g2 Hg2].
  rewrite Hg1 in Hnames. rewrite Hg2 in Hd, Hh, Hnames |- *. cbn [snd] in *.
  f_equal. destruct g1, g2; cbn in *. congruence.
Qed.

Lemma ack_common_state (srv : server) (w : world) (packet : DhcpPacket) :
  (forall g, (ack_common srv w packet g).2 = g) \/
  (exists images,
     forall g, (ack_common srv w packet g).2
               = (doEntitlementPostProcessing images g).2).
Proof.
  unfold ack_common, except_common, mbind, M_bind, lift.
  destruct (clientsysid_of packet) as [clientsysid|]; [|by left].
  destruct (clientip_of packet) as [clientip|]; [|by left].
  destruct (parseOptions _) as [bsdpoptions|]; [|by left].
  unfold enablednbis_for, getSysIdEntitlement, mbind, M_bind, lift.
  destruct (useapiurl srv).
  - destruct (getNbiFromApi w _ _ _) as [images|]; [|by left].
    right. exists images. intros g.
    destruct (doEntitlementPostProcessing images g) as [[nbis|] g1]; [|done].
    by destruct (replyport_of bsdpoptions).
  - right.
    exists (nbientitlements (nbiimages srv) clientsysid (chaddr_to_mac (chaddr packet))).
    intros g.
    destruct (doEntitlementPostProcessing _ g) as [[nbis|] g1]; [|done].
    by destruct (replyport_of bsdpoptions).
Qed.

Lemma handle_packet_state (srv : server) (w : world) (packet : DhcpPacket) :
  (forall g, (handle_packet srv w packet g).2 = g) \/
  (forall g, (handle_packet srv w packet g).2 = (ack_common srv w packet g).2).
Proof.
  unfold handle_packet.
  destruct (1 <? _); [|by left].
  destruct (getitem _ 2) as [kind|]; [|by left].
  destruct (kind =? 1).
  { right. intros g.
    rewrite <- (ack_state srv w packet (Some (defaultnbi g)) list_msg).
    by destruct (ack _ _ _ _ _ _) as [[?|?] ?]. }
  destruct (kind =? 2).
  { right. intros g. rewrite <- (ack_state srv w packet None select_msg).
    by destruct (ack _ _ _ _ _ _) as [[?|?] ?]. }
  left. intros g. by destruct (_ <=? 7).
Qed.

(** X23.  When a request is handled a second time right after the first,
    with the same answers from the network, the globals come out as the
    first round left them; handled a third time, it gets the reply of
    the second and leaves the same globals again.  The answer to a
    repeated request may change once, and no more. *)
Theorem repeated_request_settles (srv : server) (w : world) (packet : DhcpPacket)
    (g : globals) :
  let r1 := handle_packet srv w packet g in
  let r2 := handle_packet srv w packet r1.2 in
  r2.2 = r1.2 /\ handle_packet srv w packet r2.2 = r2.
Proof.
  cbn zeta.
  assert (Hsame : (handle_packet srv w packet (handle_packet srv w packet g).2).2
                  = (handle_packet srv w packet g).2).
  { destruct (handle_packet_state srv w packet) as [Hid|Hcommon].
    { by rewrite !Hid. }
    rewrite !Hcommon.
    destruct (ack_common_state srv w packet) as [Hid|[images Himages]].
    { by rewrite !Hid. }
    rewrite !Himages. by rewrite doEntitlementPostProcessing_again. }
  split; [exact Hsame|]. by rewrite Hsame.
Qed.

(** ** What every reply carries *)

(** What stands behind a reply, of either kind. *)
Lemma handle_packet_sent_inv (srv : server) (w : world) (packet : DhcpPacket)
    (g g' : globals) (bsdpack : BsdpAck) (clientip : list N) (replyport : N) :
  handle_packet srv w packet g = (Some (bsdpack, clientip, replyport), g') ->
  exists clientmacaddr bsdpoptions enablednbis,
    ack_common srv w packet g
      = (Ok (clientmacaddr, clientip, bsdpoptions, enablednbis, replyport), g') /\
    ((vendor_encapsulated_options packet !! 2%nat = Some 1 /\
      list_reply srv (common_reply srv packet) enablednbis (Some (defaultnbi g))
        (imagenameslist g') = Ok bsdpack) \/
     (vendor_encapsulated_options packet !! 2%nat = Some 2 /\
      select_reply srv w (common_reply srv packet) bsdpoptions enablednbis
        = Ok bsdpack)).
Proof.
  unfold handle_packet, getitem. change (N.to_nat 2) with 2%nat.
  destruct (1 <? _); [|done].
  destruct (vendor_encapsulated_options packet !! 2%nat) as [kind|]; [|done].
  destruct (N.eqb_spec kind 1) as [->|_].
  { unfold ack, mbind, M_bind.
    destruct (ack_common srv w packet g) as [[[[[[mac ip] opts] nbis] port]|] g1];
      [|done].
    unfold get, lift, mret, M_ret.
    destruct (list_reply _ _ _ _ _) as [reply|] eqn:Hreply; [|done].
    intros [= <- <- <- <-]. exists mac, opts, nbis. split; [done|]. by left. }
  destruct (N.eqb_spec kind 2) as [->|_].
  { unfold ack, mbind, M_bind.
    destruct (ack_common srv w packet g) as [[[[[[mac ip] opts] nbis] port]|] g1];
      [|done].
    unfold lift, mret, M_ret.
    destruct (select_reply _ _ _ _ _) as [reply|] eqn:Hreply; [|done].
    intros [= <- <- <- <-]. exists mac, opts, nbis. split; [done|]. by right. }
  by destruct (_ <=? 7).
Qed.

(** The first LIST request of a process against [[TestImage]] and its
    reply. *)
Lemma first_list_request :
  handle_packet (nfs_server [TestImage]) offline list_request initial_globals
  = (Some (first_S1_ack, [10; 0; 0; 5], 68), after_TestImage).
Proof. by vm_compute. Defined.

(** X7.  Every reply, LIST or SELECT, is addressed to [ciaddr] of the
    request, or to its [request_ip_address] option when [ciaddr] is
    [0.0.0.0]; the address has four bytes. *)
Theorem reply_address (srv : server) (w : world) (packet : DhcpPacket)
    (g g' : globals) (bsdpack : BsdpAck) (clientip : list N) (replyport : N) :
  handle_packet srv w packet g = (Some (bsdpack, clientip, replyport), g') ->
  clientip = (if bool_decide (ciaddr packet = [0; 0; 0; 0])
              then request_ip_address packet else ciaddr packet) /\
  length clientip = 4%nat.
Proof.
  intros (mac & opts & nbis & Hcommon & _)%handle_packet_sent_inv.
  apply ack_common_inv in Hcommon as (sysid & _ & _ & Hip & _).
  unfold clientip_of in Hip. bind_inv Hip as ip Hci.
  assert (Hipv4 : forall l l', ipv4 l = Ok l' -> l' = l /\ length l = 4%nat).
  { intros l l'. unfold ipv4.
    destruct (Nat.eqb_spec (length l) 4); cbn [andb]; [|done].
    destruct (forallb _ l); [|done]. by intros [= <-]. }
  apply Hipv4 in Hci as [-> Hlen].
  case_bool_decide.
  - by apply Hipv4 in Hip as [-> ?].
  - by injection Hip as <-.
Qed.

(** X7 at the first LIST request against [[TestImage]]. *)
Lemma reply_address_witness :
  [10; 0; 0; 5]
  = (if bool_decide (ciaddr list_request = [0; 0; 0; 0])
     then request_ip_address list_request else ciaddr list_request) /\
  length [10; 0; 0; 5] = 4%nat.
Proof.
  exact (reply_address (nfs_server [TestImage]) offline list_request
           initial_globals after_TestImage first_S1_ack [10; 0; 0; 5] 68
           first_list_request).
Defined.

Lemma select_reply_envelope (srv : server) (w : world) (bsdpack reply : BsdpAck)
    (bsdpoptions : gmap string (list N)) (enablednbis : list nbi) :
  select_reply srv w bsdpack bsdpoptions enablednbis = Ok reply ->
  exists file root_path options,
    reply = SetOption_vendor_encapsulated_options
              (SetOption_root_path (SetOption_file bsdpack file) root_path) options.
Proof.
  intros H. unfold select_reply in H.
  bind_inv H as sbi Hsbi. bind_inv H as b2 Hb2. bind_inv H as b3 Hb3.
  bind_inv H as imageid Hid. bind_inv H as refreshed Href.
  bind_inv H as acc Hacc. destruct acc as [[booterfile rootpath] selectedimage].
  bind_inv H as options Hopts. injection H as <-. by eexists _, _, _.
Qed.

(** X8.  Every reply is a BOOTREPLY ([op] 2) of DHCP message type ACK (5)
    with the vendor class [AAPLBSDPC]; [htype], [hlen], [xid], [ciaddr]
    and [chaddr] are those of the request, [siaddr] and
    [server_identifier] are the server's address, [yiaddr] is
    [0.0.0.0], [sname] is the host name padded to 64 bytes, the BSDP
    options are set, and [file] and [root_path] are set in the replies to
    SELECT and in no other. *)
Theorem reply_envelope (srv : server) (w : world) (packet : DhcpPacket)
    (g g' : globals) (bsdpack : BsdpAck) (clientip : list N) (replyport : N) :
  handle_packet srv w packet g = (Some (bsdpack, clientip, replyport), g') ->
  ack_op bsdpack = [2] /\
  ack_htype bsdpack = htype packet /\
  ack_hlen bsdpack = hlen packet /\
  ack_xid bsdpack = xid packet /\
  ack_ciaddr bsdpack = ciaddr packet /\
  ack_chaddr bsdpack = chaddr packet /\
  ack_siaddr bsdpack = serverip srv /\
  ack_server_identifier bsdpack = serverip srv /\
  ack_yiaddr bsdpack = [0; 0; 0; 0] /\
  ack_dhcp_message_type bsdpack = [5] /\
  ack_vendor_class_identifier bsdpack = strlist_of_str "AAPLBSDPC" /\
  ack_sname bsdpack = strlist_of_str (ljust 64 "000" (serverhostname srv)) /\
  is_Some (ack_vendor_encapsulated_options bsdpack) /\
  (is_Some (ack_file bsdpack) <->
   vendor_encapsulated_options packet !! 2%nat = Some 2) /\
  (is_Some (ack_root_path bsdpack) <->
   vendor_encapsulated_options packet !! 2%nat = Some 2).
Proof.
  intros (mac & opts & nbis & _ & [[Hkind Hreply]|[Hkind Hreply]])%handle_packet_sent_inv.
  - unfold list_reply in Hreply. bind_inv Hreply as blob Hblob.
    injection Hreply as <-. cbn. rewrite Hkind.
    repeat split; try done; by intros [? ?].
  - apply select_reply_envelope in Hreply as (file & root & options & ->).
    cbn. rewrite Hkind. repeat split; try done; by eexists.
Qed.

(** X8 at the first LIST request against [[TestImage]]. *)
Lemma reply_envelope_witness :
  ack_op first_S1_ack = [2] /\
  ack_htype first_S1_ack = [1] /\
  ack_hlen first_S1_ack = [6] /\
  ack_xid first_S1_ack = [1; 2; 3; 4] /\
  ack_ciaddr first_S1_ack = [10; 0; 0; 5] /\
  ack_chaddr first_S1_ack = chaddr list_request /\
  ack_siaddr first_S1_ack = [10; 0; 0; 1] /\
  ack_server_identifier first_S1_ack = [10; 0; 0; 1] /\
  ack_yiaddr first_S1_ack = [0; 0; 0; 0] /\
  ack_dhcp_message_type first_S1_ack = [5] /\
  ack_vendor_class_identifier first_S1_ack = strlist_of_str "AAPLBSDPC" /\
  ack_sname first_S1_ack = strlist_of_str (ljust 64 "000" "10.0.0.1") /\
  is_Some (ack_vendor_encapsulated_options first_S1_ack) /\
  (is_Some (ack_file first_S1_ack) <->
   vendor_encapsulated_options list_request !! 2%nat = Some 2) /\
  (is_Some (ack_root_path first_S1_ack) <->
   vendor_encapsulated_options list_request !! 2%nat = Some 2).
Proof.
  exact (reply_envelope (nfs_server [TestImage]) offline list_request
           initial_globals after_TestImage first_S1_ack [10; 0; 0; 5] 68
           first_list_request).
Defined.

(** ** Requests that are dropped before the entitlement lookup *)

Lemma ack_common_raises_early (srv : server) (w : world) (packet : DhcpPacket)
    (g : globals) (e : exn) :
  clientsysid_of packet = Raise e \/ clientip_of packet = Raise e \/
  parseOptions (vendor_encapsulated_options packet) = Raise e ->
  ack_common srv w packet g = (Raise TypeError, g).
Proof.
  intros H. unfold ack_common, except_common, mbind, M_bind, lift.
  destruct (clientsysid_of packet) as [sysid|]; [|done].
  destruct (clientip_of packet) as [ip|]; [|done].
  destruct (parseOptions _) as [opts|]; [|done].
  destruct H as [H|[H|H]]; discriminate H.
Qed.

Lemma handle_packet_common_raises (srv : server) (w : world) (packet : DhcpPacket)
    (g : globals) (e : exn) :
  ack_common srv w packet g = (Raise e, g) ->
  handle_packet srv w packet g = (None, g).
Proof.
  intros Hcommon. unfold handle_packet.
  destruct (1 <? _); [|done].
  destruct (getitem _ 2) as [kind|]; [|done].
  unfold ack, mbind, M_bind. rewrite Hcommon.
  destruct (kind =? 1); [done|]. destruct (kind =? 2); [done|].
  by destruct (_ <=? 7).
Qed.

(** X9.  A request whose vendor class, client address or BSDP options
    cannot be decoded (the call raises) gets no reply and leaves
    [defaultnbi], [hasdefault] and [imagenameslist] as they were: the
    failure comes before the entitlement lookup, the only step that
    assigns them. *)
Theorem undecodable_request_is_dropped (srv : server) (w : world)
    (packet : DhcpPacket) (g : globals) (e : exn) :
  clientsysid_of packet = Raise e \/ clientip_of packet = Raise e \/
  parseOptions (vendor_encapsulated_options packet) = Raise e ->
  handle_packet srv w packet g = (None, g).
Proof.
  intros H. apply (handle_packet_common_raises srv w packet g TypeError).
  by apply (ack_common_raises_early srv w packet g e).
Qed.

(** X9 at a LIST request with a sub-option of unknown code. *)
Lemma undecodable_request_is_dropped_witness :
  handle_packet (nfs_server [TestImage]) offline list_with_code_99 after_TestImage
  = (None, after_TestImage).
Proof.
  apply (undecodable_request_is_dropped (nfs_server [TestImage]) offline
           list_with_code_99 after_TestImage KeyError).
  right. right. by vm_compute.
Defined.

Lemma length_split_from (sep : ascii) (cur s : string) :
  length (split_from sep cur s) = S (count_char sep s).
Proof.
  revert cur. induction s as [|c s IH]; intros cur; [done|].
  cbn [split_from count_char]. destruct (Ascii.eqb c sep); cbn [length].
  - by rewrite IH.
  - by rewrite IH.
Qed.

Lemma count_char_of_codes (sep : N) (l : list N) :
  sep < 256 ->
  Forall (fun x => x < 256) l ->
  count_char (ascii_of_N sep) (string_of_list_ascii (ascii_of_N <$> l))
  = length (filter (fun x => x = sep) l).
Proof.
  intros Hsep. induction 1 as [|x l Hx _ IH]; [done|].
  cbn [fmap list_fmap string_of_list_ascii count_char]. rewrite IH.
  rewrite filter_cons. destruct (decide (x = sep)) as [->|Hne].
  - by rewrite Ascii.eqb_refl.
  - destruct (Ascii.eqb_spec (ascii_of_N x) (ascii_of_N sep)) as [Heq|_]; [|done].
    exfalso. apply Hne.
    rewrite <- (N_ascii_embedding x), <- (N_ascii_embedding sep) by done.
    by rewrite Heq.
Qed.

(** X10.  A request whose vendor class identifier holds fewer than two
    ['/'] (byte 47), so that it has no third field for the model, gets no
    reply and leaves the globals as they were. *)
Theorem short_vendor_class_is_dropped (srv : server) (w : world)
    (packet : DhcpPacket) (g : globals) :
  (length (filter (fun x : N => x = 47%N) (vendor_class_identifier packet)) < 2)%nat ->
  handle_packet srv w packet g = (None, g).
Proof.
  intros Hfew. apply (handle_packet_common_raises srv w packet g TypeError).
  assert (Hsysid : exists e, clientsysid_of packet = Raise e).
  { unfold clientsysid_of, str_of_list, strlist_of_list.
    destruct (forallb _ _) eqn:Hbytes; [|by eexists].
    cbn [mbind result_bind]. exists IndexError.
    unfold getitem, split. rewrite lookup_ge_None_2; [done|].
    rewrite length_split_from.
    change "/"%char with (ascii_of_N 47).
    rewrite count_char_of_codes; [change (N.to_nat 2) with 2%nat; lia|done|].
    apply Forall_forall. intros x Hx%list_elem_of_In.
    rewrite forallb_forall in Hbytes. by apply N.ltb_lt, Hbytes. }
  destruct Hsysid as [e Hsysid].
  apply (ack_common_raises_early srv w packet g e). by left.
Qed.

(** X10 at a request of vendor class [AAPLBSDPC/i386]. *)
Lemma short_vendor_class_is_dropped_witness :
  handle_packet (nfs_server [TestImage]) offline no_model after_TestImage
  = (None, after_TestImage).
Proof.
  apply (short_vendor_class_is_dropped (nfs_server [TestImage]) offline no_model
           after_TestImage).
  vm_compute. lia.
Defined.

(** ** LIST replies *)

(** X11.  A LIST request that [main] handles while [defaultnbi] is 0, as
    it is when the process starts, is answered without the
    [default_boot_image] sub-option, whatever default image the request
    itself comes to: the options are the message type, the server
    priority and the image list. *)
Theorem first_list_reply_has_no_default (srv : server) (w : world)
    (packet : DhcpPacket) (g g' : globals) (bsdpack : BsdpAck)
    (clientip : list N) (replyport : N) :
  defaultnbi g = 0 ->
  vendor_encapsulated_options packet !! 2%nat = Some 1 ->
  handle_packet srv w packet g = (Some (bsdpack, clientip, replyport), g') ->
  exists enablednbis,
    ack_vendor_encapsulated_options bsdpack
    = Some ([1; 1; 1; 4; 2; (serverpriority srv).1; (serverpriority srv).2]
            ++ [9; 5 * len enablednbis + sum_lengths enablednbis]
            ++ imagenameslist g').
Proof.
  intros Hd Hkind (mac & opts & nbis & _ & [[_ Hreply]|[Hsel _]])%handle_packet_sent_inv;
    [|congruence].
  exists nbis. unfold list_reply in Hreply. bind_inv Hreply as blob Hblob.
  injection Hreply as <-. rewrite Hd in Hblob.
  by rewrite (compiledlistpacket_layout srv nbis 0 _ blob eq_refl Hblob).
Qed.

(** X11 at the first LIST request against [[TestImage]], a default
    image. *)
Lemma first_list_reply_has_no_default_witness :
  exists enablednbis,
    Some first_S1_options
    = Some ([1; 1; 1; 4; 2; 7; 9]
            ++ [9; 5 * len enablednbis + sum_lengths enablednbis]
            ++ list_entry TestImage).
Proof.
  exact (first_list_reply_has_no_default (nfs_server [TestImage]) offline
           list_request initial_globals after_TestImage first_S1_ack
           [10; 0; 0; 5] 68 eq_refl eq_refl first_list_request).
Defined.

Lemma length_strlist_of_str (s : string) :
  length (strlist_of_str s) = String.length s.
Proof.
  unfold strlist_of_str. rewrite length_fmap.
  induction s as [|c s IH]; [done|]. cbn. by rewrite IH.
Qed.

Lemma len_list_entries (images : list nbi) :
  Forall (fun i => nbi_length i = N.of_nat (String.length (nbi_name i))) images ->
  len (list_entries images) = 5 * len images + sum_lengths images.
Proof.
  induction 1 as [|i images Hi _ IH]; [done|].
  change (list_entries (i :: images)) with (list_entry i ++ list_entries images).
  change (sum_lengths (i :: images)) with (nbi_length i + sum_lengths images).
  rewrite len_app, IH. unfold list_entry, len. rewrite length_app.
  cbn [length]. rewrite length_strlist_of_str, Hi. lia.
Qed.

(** X12.  In filesystem mode, when the [length] of every record of the
    catalog is the length of its name (as [getNbiOptions] sets it) and
    the indices fit 16 bits, the BSDP options of a LIST reply end with a
    well-formed [boot_image_list] sub-option: code 9, a length that is
    the number of bytes that follow, and [imagenameslist] as the process
    holds it after the request. *)
Theorem list_reply_image_list_well_formed (srv : server) (w : world)
    (packet : DhcpPacket) (g g' : globals) (bsdpack : BsdpAck)
    (clientip : list N) (replyport : N) :
  useapiurl srv = false ->
  Forall (fun i => nbi_id i < 65536) (nbiimages srv) ->
  Forall (fun i => nbi_length i = N.of_nat (String.length (nbi_name i)))
    (nbiimages srv) ->
  defaultnbi g < 65536 ->
  vendor_encapsulated_options packet !! 2%nat = Some 1 ->
  handle_packet srv w packet g = (Some (bsdpack, clientip, replyport), g') ->
  exists head : list N,
    ack_vendor_encapsulated_options bsdpack
    = Some (head ++ encode_option (9, imagenameslist g')).
Proof.
  intros Hapi Hids Hlens Hd Hkind Hsent.
  apply handle_packet_sent_inv in Hsent
    as (mac & opts & nbis & Hcommon & [[_ Hreply]|[Hsel _]]); [|congruence].
  apply ack_common_inv in Hcommon as (sysid & _ & -> & _ & _ & Hnbis & _).
  unfold enablednbis_for in Hnbis. rewrite Hapi in Hnbis.
  unfold getSysIdEntitlement in Hnbis.
  set (admitted := nbientitlements (nbiimages srv) sysid _) in Hnbis.
  destruct (doEntitlementPostProcessing_16bit admitted g) as (g1 & Hpost & Hnames).
  { by apply Forall_nbientitlements. }
  rewrite Hpost in Hnbis. injection Hnbis as <- <-.
  unfold list_reply in Hreply. bind_inv Hreply as blob Hblob.
  injection Hreply as <-.
  rewrite (compiledlistpacket_layout _ _ _ _ _ Hd Hblob).
  exists ([1; 1; 1; 4; 2; (serverpriority srv).1; (serverpriority srv).2] ++
          (if defaultnbi g mod 256 =? 0 then [] else default_option (defaultnbi g))).
  cbn [ack_vendor_encapsulated_options SetOption_vendor_encapsulated_options].
  f_equal. rewrite <- app_assoc. cbn [app]. do 8 f_equal.
  unfold encode_option. cbn [fst snd app]. do 2 f_equal.
  rewrite Hnames. symmetry. apply len_list_entries.
  by apply Forall_nbientitlements.
Qed.

(** X12 at the first LIST request against [[TestImage]]. *)
Lemma list_reply_image_list_well_formed_witness :
  exists head : list N,
    Some first_S1_options = Some (head ++ encode_option (9, list_entry TestImage)).
Proof.
  refine (list_reply_image_list_well_formed (nfs_server [TestImage]) offline
            list_request initial_globals after_TestImage first_S1_ack
            [10; 0; 0; 5] 68 eq_refl _ _ _ eq_refl first_list_request).
  - repeat constructor.
  - repeat constructor.
  - reflexivity.
Defined.

(** ** C9: the BSDP options of a LIST reply, for records that fit the list *)




(** ** SELECT replies *)

(** The loop of the SELECT branch keeps what the last matching image
    with a [dmg] assigned. *)
Lemma select_images_match (srv : server) (basedmgpath : string) (imageid : N)
    (selected_boot_image : list N) (before after : list nbi) (nbidict : nbi)
    (dmg : string) (acc : string * string * list N) :
  useapiurl srv = false ->
  nbi_id nbidict = imageid ->
  nbi_dmg nbidict = Some dmg ->
  Forall (fun i => nbi_id i <> imageid) after ->
  select_images srv basedmgpath imageid selected_boot_image acc
    (before ++ nbidict :: after)
  = Ok (nbi_booter nbidict, (basedmgpath +:+ dmg), selected_boot_image).
Proof.
  intros Hapi Hid Hdmg Hafter. revert acc.
  induction before as [|b before IH]; intros acc.
  - cbn [app select_images]. unfold select_image.
    destruct acc as [[booterfile rootpath] selectedimage].
    rewrite Hid, N.eqb_refl, Hapi, Hdmg. cbn [mbind result_bind].
    by apply select_images_no_match.
  - cbn [app select_images].
    assert (exists acc', select_image srv basedmgpath imageid selected_boot_image acc b
                         = Ok acc') as [acc' ->]; [|apply IH].
    unfold select_image. destruct acc as [[booterfile rootpath] selectedimage].
    rewrite Hapi. destruct (nbi_id b =? imageid); [|by eexists].
    destruct (nbi_dmg b); by eexists.
Qed.

Lemma select_images_no_dmg (srv : server) (basedmgpath : string) (imageid : N)
    (selected_boot_image : list N) (before after : list nbi) (nbidict : nbi)
    (acc : string * string * list N) :
  useapiurl srv = false ->
  nbi_id nbidict = imageid ->
  nbi_dmg nbidict = None ->
  Forall (fun i => nbi_id i <> imageid) before ->
  Forall (fun i => nbi_id i <> imageid) after ->
  select_images srv basedmgpath imageid selected_boot_image acc
    (before ++ nbidict :: after)
  = Ok (nbi_booter nbidict, acc.1.2, acc.2).
Proof.
  intros Hapi Hid Hdmg Hbefore Hafter. revert acc.
  induction Hbefore as [|b before Hb _ IH]; intros acc.
  - cbn [app select_images]. unfold select_image.
    destruct acc as [[booterfile rootpath] selectedimage].
    rewrite Hid, N.eqb_refl, Hapi, Hdmg. cbn [mbind result_bind].
    by apply select_images_no_match.
  - cbn [app select_images]. unfold select_image at 1.
    destruct acc as [[booterfile rootpath] selectedimage].
    rewrite (proj2 (N.eqb_neq _ _) Hb). cbn [mbind result_bind]. apply IH.
Qed.

(** [strlist] accepts a list of bytes. *)
Lemma strlist_of_list_bytes (l : list N) :
  Forall (fun x => x < 256) l -> strlist_of_list l = Ok l.
Proof.
  intros H. unfold strlist_of_list.
  assert (forallb (fun x => x <? 256) l = true) as ->; [|done].
  induction H as [|x l Hx _ IH]; [done|].
  cbn [forallb]. by rewrite (proj2 (N.ltb_lt _ _) Hx).
Qed.

(** The common steps of the two SELECT theorems: the request is a SELECT
    whose common part succeeded, and its [selected_boot_image] carries the
    index [256 * b2 + b3]. *)
Lemma select_reply_of (srv : server) (w : world) (bsdpoptions : gmap string (list N))
    (enablednbis : list nbi) (bsdpack : BsdpAck) (selected_boot_image : list N)
    (b2 b3 : N) (refreshed : option string) (booterfile rootpath : string)
    (selectedimage : list N) :
  bsdpoptions !! "selected_boot_image" = Some selected_boot_image ->
  selected_boot_image !! 2%nat = Some b2 ->
  selected_boot_image !! 3%nat = Some b3 ->
  b2 < 256 -> b3 < 256 ->
  refreshed_basedmgpath w = Ok refreshed ->
  select_images srv (default (basedmgpath srv) refreshed) (256 * b2 + b3)
    selected_boot_image ("", "", []) enablednbis
  = Ok (booterfile, rootpath, selectedimage) ->
  Forall (fun x => x < 256) selectedimage ->
  select_reply srv w bsdpack bsdpoptions enablednbis
  = Ok (SetOption_vendor_encapsulated_options
          (SetOption_root_path
             (SetOption_file bsdpack (strlist_of_str (ljust 128 "000" booterfile)))
             (strlist_of_str rootpath))
          ([1; 1; 2; 8; 4] ++ selectedimage)).
Proof.
  intros Hsel Hb2 Hb3 Hlt2 Hlt3 Hrefreshed Hloop Hbytes.
  unfold select_reply, dict_get, getitem.
  change (N.to_nat 2) with 2%nat. change (N.to_nat 3) with 3%nat.
  rewrite Hsel. cbn [mbind result_bind]. rewrite Hb2, Hb3. cbn [mbind result_bind].
  rewrite (int16_two_bytes b2 b3 Hlt2 Hlt3). cbn [mbind result_bind].
  rewrite Hrefreshed. cbn [mbind result_bind]. rewrite Hloop.
  cbn [mbind result_bind].
  rewrite strlist_of_list_bytes; [done|].
  by repeat (apply Forall_cons; split; [done|]).
Qed.

Lemma handle_packet_select (srv : server) (w : world) (packet : DhcpPacket)
    (g g' : globals) (clientmacaddr : string) (clientip : list N)
    (bsdpoptions : gmap string (list N)) (enablednbis : list nbi) (replyport : N)
    (bsdpack : BsdpAck) :
  vendor_encapsulated_options packet !! 2%nat = Some 2 ->
  ack_common srv w packet g
    = (Ok (clientmacaddr, clientip, bsdpoptions, enablednbis, replyport), g') ->
  select_reply srv w (common_reply srv packet) bsdpoptions enablednbis = Ok bsdpack ->
  handle_packet srv w packet g = (Some (bsdpack, clientip, replyport), g').
Proof.
  intros Hkind Hcommon Hreply.
  unfold handle_packet, getitem. change (N.to_nat 2) with 2%nat. rewrite Hkind.
  assert ((1 <? len (vendor_encapsulated_options packet)) = true) as ->.
  { apply N.ltb_lt. apply lookup_lt_Some in Hkind. unfold len. lia. }
  cbn [N.eqb Pos.eqb].
  unfold ack, mbind at 1, M_bind. rewrite Hcommon.
  unfold mbind, M_bind, lift. by rewrite Hreply.
Qed.

(** A SELECT whose common part succeeded and whose reply could not be
    built is dropped, with the globals the common part left. *)
Lemma handle_packet_select_raises (srv : server) (w : world) (packet : DhcpPacket)
    (g g' : globals) (clientmacaddr : string) (clientip : list N)
    (bsdpoptions : gmap string (list N)) (enablednbis : list nbi) (replyport : N)
    (e : exn) :
  vendor_encapsulated_options packet !! 2%nat = Some 2 ->
  ack_common srv w packet g
    = (Ok (clientmacaddr, clientip, bsdpoptions, enablednbis, replyport), g') ->
  select_reply srv w (common_reply srv packet) bsdpoptions enablednbis = Raise e ->
  handle_packet srv w packet g = (None, g').
Proof.
  intros Hkind Hcommon Hreply.
  unfold handle_packet, getitem. change (N.to_nat 2) with 2%nat. rewrite Hkind.
  assert ((1 <? len (vendor_encapsulated_options packet)) = true) as ->.
  { apply N.ltb_lt. apply lookup_lt_Some in Hkind. unfold len. lia. }
  cbn [N.eqb Pos.eqb].
  unfold ack, mbind at 1, M_bind. rewrite Hcommon.
  unfold mbind, M_bind, lift. by rewrite Hreply.
Qed.

(** The guarded call of [getBaseDmgPath] comes after the index of the
    image has been read, and what it raises leaves [ack]. *)
Lemma select_reply_refresh_raises (srv : server) (w : world) (bsdpack : BsdpAck)
    (bsdpoptions : gmap string (list N)) (enablednbis : list nbi)
    (selected_boot_image : list N) (b2 b3 : N) (e : exn) :
  bsdpoptions !! "selected_boot_image" = Some selected_boot_image ->
  selected_boot_image !! 2%nat = Some b2 ->
  selected_boot_image !! 3%nat = Some b3 ->
  b2 < 256 -> b3 < 256 ->
  refreshed_basedmgpath w = Raise e ->
  select_reply srv w bsdpack bsdpoptions enablednbis = Raise e.
Proof.
  intros Hsel Hb2 Hb3 Hlt2 Hlt3 Hrefreshed.
  unfold select_reply, dict_get, getitem.
  change (N.to_nat 2) with 2%nat. change (N.to_nat 3) with 3%nat.
  rewrite Hsel. cbn [mbind result_bind]. rewrite Hb2, Hb3. cbn [mbind result_bind].
  rewrite (int16_two_bytes b2 b3 Hlt2 Hlt3). cbn [mbind result_bind].
  by rewrite Hrefreshed.
Qed.

(** X13.  In filesystem mode, take a SELECT whose common part succeeded
    and whose [selected_boot_image] carries in its two low bytes the
    index of an entitled image with a [dmg], no entitled image after it
    having that index.  If the guarded call of [getBaseDmgPath] does not
    raise, the request is answered with that image: [file] is its booter
    padded with NUL bytes to 128, [root_path] is [basedmgpath] (the one
    the call returned, if it was made) followed by its [dmg], and the
    BSDP options are [[1,1,2,8,4]] and the bytes of
    [selected_boot_image]; entitled images with the same index that come
    before it are overridden.  If the call raises, no reply is sent. *)
Theorem select_serves_last_match (srv : server) (w : world) (packet : DhcpPacket)
    (g g' : globals) (clientmacaddr : string) (clientip : list N)
    (bsdpoptions : gmap string (list N)) (replyport : N)
    (selected_boot_image : list N) (b2 b3 : N)
    (before after : list nbi) (nbidict : nbi) (dmg : string) :
  vendor_encapsulated_options packet !! 2%nat = Some 2 ->
  useapiurl srv = false ->
  ack_common srv w packet g
    = (Ok (clientmacaddr, clientip, bsdpoptions, before ++ nbidict :: after,
           replyport), g') ->
  bsdpoptions !! "selected_boot_image" = Some selected_boot_image ->
  Forall (fun x => x < 256) selected_boot_image ->
  selected_boot_image !! 2%nat = Some b2 ->
  selected_boot_image !! 3%nat = Some b3 ->
  nbi_id nbidict = 256 * b2 + b3 ->
  nbi_dmg nbidict = Some dmg ->
  Forall (fun i => nbi_id i <> 256 * b2 + b3) after ->
  handle_packet srv w packet g
  = match refreshed_basedmgpath w with
    | Ok refreshed =>
        (Some (SetOption_vendor_encapsulated_options
                 (SetOption_root_path
                    (SetOption_file (common_reply srv packet)
                       (strlist_of_str (ljust 128 "000" (nbi_booter nbidict))))
                    (strlist_of_str (default (basedmgpath srv) refreshed +:+ dmg)))
                 ([1; 1; 2; 8; 4] ++ selected_boot_image),
               clientip, replyport), g')
    | Raise _ => (None, g')
    end.
Proof.
  intros Hkind Hapi Hcommon Hsel Hbytes Hb2 Hb3 Hid Hdmg Hafter.
  assert (Hlt : b2 < 256 /\ b3 < 256).
  { rewrite Forall_lookup in Hbytes. split; eapply Hbytes; eauto. }
  destruct Hlt as [Hlt2 Hlt3].
  destruct (refreshed_basedmgpath w) as [refreshed|e] eqn:Hrefreshed.
  - apply (handle_packet_select _ _ _ _ _ _ _ _ _ _ _ Hkind Hcommon).
    eapply select_reply_of; eauto.
    by apply select_images_match.
  - apply (handle_packet_select_raises _ _ _ _ _ _ _ _ _ _ e Hkind Hcommon).
    by apply (select_reply_refresh_raises _ _ _ _ _ selected_boot_image b2 b3).
Qed.

(** X13 at scenario S2: the image of the catalog over NFS. *)
Lemma select_serves_last_match_witness :
  handle_packet (nfs_server [TestImage]) offline select_1001 initial_globals
  = (Some (SetOption_vendor_encapsulated_options
             (SetOption_root_path
                (SetOption_file (common_reply (nfs_server [TestImage]) select_1001)
                   (strlist_of_str (ljust 128 "000" "/nbi/Test.nbi/i386/booter")))
                (strlist_of_str "nfs:10.0.0.1:/nbi:Test.nbi/NetInstall.dmg"))
             [1; 1; 2; 8; 4; 129; 0; 0x10; 0x01],
           [10; 0; 0; 5], 68), after_TestImage).
Proof.
  apply (select_serves_last_match (nfs_server [TestImage]) offline select_1001
           initial_globals after_TestImage (chaddr_to_mac (chaddr select_1001))
           [10; 0; 0; 5]
           (named_options [(1, [2]); (8, [129; 0; 0x10; 0x01])])
           68 [129; 0; 0x10; 0x01] 0x10 0x01 [] [] TestImage
           "Test.nbi/NetInstall.dmg").
  - reflexivity.
  - reflexivity.
  - by_evaluation.
  - by vm_compute.
  - repeat constructor.
  - reflexivity.
  - reflexivity.
  - reflexivity.
  - reflexivity.
  - constructor.
Defined.

(** X14.  In filesystem mode, take a SELECT whose common part succeeded
    and whose [selected_boot_image] carries in its two low bytes the
    index of an entitled image without a [dmg] (type [BootFileOnly]), the
    only entitled image with that index.  If the guarded call of
    [getBaseDmgPath] does not raise, the request is answered with the
    booter of the image in [file], an empty [root_path], and BSDP options
    that stop after [[1,1,2,8,4]]: the four bytes of the image index that
    the length 4 announces are missing.  If the call raises, no reply is
    sent. *)
Theorem select_without_dmg (srv : server) (w : world) (packet : DhcpPacket)
    (g g' : globals) (clientmacaddr : string) (clientip : list N)
    (bsdpoptions : gmap string (list N)) (replyport : N)
    (selected_boot_image : list N) (b2 b3 : N)
    (before after : list nbi) (nbidict : nbi) :
  vendor_encapsulated_options packet !! 2%nat = Some 2 ->
  useapiurl srv = false ->
  ack_common srv w packet g
    = (Ok (clientmacaddr, clientip, bsdpoptions, before ++ nbidict :: after,
           replyport), g') ->
  bsdpoptions !! "selected_boot_image" = Some selected_boot_image ->
  selected_boot_image !! 2%nat = Some b2 ->
  selected_boot_image !! 3%nat = Some b3 ->
  b2 < 256 -> b3 < 256 ->
  nbi_id nbidict = 256 * b2 + b3 ->
  nbi_dmg nbidict = None ->
  Forall (fun i => nbi_id i <> 256 * b2 + b3) (before ++ after) ->
  handle_packet srv w packet g
  = match refreshed_basedmgpath w with
    | Ok _ =>
        (Some (SetOption_vendor_encapsulated_options
                 (SetOption_root_path
                    (SetOption_file (common_reply srv packet)
                       (strlist_of_str (ljust 128 "000" (nbi_booter nbidict))))
                    [])
                 [1; 1; 2; 8; 4],
               clientip, replyport), g')
    | Raise _ => (None, g')
    end.
Proof.
  intros Hkind Hapi Hcommon Hsel Hb2 Hb3 Hlt2 Hlt3 Hid Hdmg
    [Hbefore Hafter]%Forall_app.
  destruct (refreshed_basedmgpath w) as [refreshed|e] eqn:Hrefreshed.
  - apply (handle_packet_select _ _ _ _ _ _ _ _ _ _ _ Hkind Hcommon).
    eapply (select_reply_of _ _ _ _ _ _ _ _ _ _ "" []); eauto.
    by apply (select_images_no_dmg _ _ _ _ _ _ _ ("", "", [])).
  - apply (handle_packet_select_raises _ _ _ _ _ _ _ _ _ _ e Hkind Hcommon).
    by apply (select_reply_refresh_raises _ _ _ _ _ selected_boot_image b2 b3).
Qed.

(** X14 at a catalog that holds a [BootFileOnly] image. *)
Lemma select_without_dmg_witness :
  handle_packet (nfs_server [booter_only]) offline select_1001 initial_globals
  = (Some (SetOption_vendor_encapsulated_options
             (SetOption_root_path
                (SetOption_file (common_reply (nfs_server [booter_only]) select_1001)
                   (strlist_of_str (ljust 128 "000" "/nbi/Boot.nbi/i386/booter")))
                [])
             [1; 1; 2; 8; 4],
           [10; 0; 0; 5], 68),
     {| defaultnbi := 0x1001; hasdefault := false;
        imagenameslist := list_entry booter_only |}).
Proof.
  apply (select_without_dmg (nfs_server [booter_only]) offline select_1001
           initial_globals
           {| defaultnbi := 0x1001; hasdefault := false;
              imagenameslist := list_entry booter_only |}
           (chaddr_to_mac (chaddr select_1001)) [10; 0; 0; 5]
           (named_options [(1, [2]); (8, [129; 0; 0x10; 0x01])])
           68 [129; 0; 0x10; 0x01] 0x10 0x01 [] [] booter_only).
  - reflexivity.
  - reflexivity.
  - by_evaluation.
  - by vm_compute.
  - reflexivity.
  - reflexivity.
  - reflexivity.
  - reflexivity.
  - reflexivity.
  - reflexivity.
  - constructor.
Defined.

(** *** API mode *)


Lemma select_images_api_raises (srv : server) (basedmgpath : string) (imageid : N)
    (selected_boot_image : list N) (enablednbis : list nbi) (nbidict : nbi) :
  useapiurl srv = true ->
  nbidict ∈ enablednbis ->
  nbi_id nbidict = imageid ->
  nbi_dmg nbidict = None ->
  forall acc,
    select_images srv basedmgpath imageid selected_boot_image acc enablednbis
    = Raise KeyError.
Proof.
  intros Hapi Hin Hid Hdmg.
  induction enablednbis as [|b l IH]; intros acc; [by apply elem_of_nil in Hin|].
  cbn [select_images].
  assert (Hstep : select_image srv basedmgpath imageid selected_boot_image acc b
                  = Raise KeyError \/
                  exists acc', select_image srv basedmgpath imageid
                                 selected_boot_image acc b = Ok acc').
  { unfold select_image. destruct acc as [[booterfile rootpath] selectedimage].
    rewrite Hapi. destruct (nbi_id b =? imageid); [|right; by eexists].
    destruct (nbi_dmg b); [right; by eexists|by left]. }
  apply elem_of_cons in Hin as [<-|Hin].
  - unfold select_image. destruct acc as [[booterfile rootpath] selectedimage].
    by rewrite Hid, N.eqb_refl, Hapi, Hdmg.
  - destruct Hstep as [->|[acc' ->]]; [done|]. by apply IH.
Qed.



(** X25.  In API mode, a SELECT whose index is that of an entitled image
    without a [dmg] gets no reply, wherever the image stands among the
    entitled ones; the globals keep what the entitlement lookup
    assigned. *)
Theorem select_api_without_dmg_is_dropped (srv : server) (w : world)
    (packet : DhcpPacket) (g g' : globals) (clientmacaddr : string)
    (clientip : list N) (bsdpoptions : gmap string (list N)) (replyport : N)
    (selected_boot_image : list N) (b2 b3 : N) (enablednbis : list nbi)
    (nbidict : nbi) :
  vendor_encapsulated_options packet !! 2%nat = Some 2 ->
  useapiurl srv = true ->
  ack_common srv w packet g
    = (Ok (clientmacaddr, clientip, bsdpoptions, enablednbis, replyport), g') ->
  bsdpoptions !! "selected_boot_image" = Some selected_boot_image ->
  selected_boot_image !! 2%nat = Some b2 ->
  selected_boot_image !! 3%nat = Some b3 ->
  b2 < 256 -> b3 < 256 ->
  nbidict ∈ enablednbis ->
  nbi_id nbidict = 256 * b2 + b3 ->
  nbi_dmg nbidict = None ->
  handle_packet srv w packet g = (None, g').
Proof.
  intros Hkind Hapi Hcommon Hsel Hb2 Hb3 Hlt2 Hlt3 Hin Hid Hdmg.
  assert (Hreply : exists e, select_reply srv w (common_reply srv packet)
                               bsdpoptions enablednbis = Raise e).
  { unfold select_reply, dict_get, getitem.
    change (N.to_nat 2) with 2%nat. change (N.to_nat 3) with 3%nat.
    rewrite Hsel. cbn [mbind result_bind]. rewrite Hb2, Hb3. cbn [mbind result_bind].
    rewrite (int16_two_bytes b2 b3 Hlt2 Hlt3). cbn [mbind result_bind].
    destruct (refreshed_basedmgpath w) as [refreshed|e]; [|by exists e].
    cbn [mbind result_bind].
    rewrite (select_images_api_raises srv _ _ _ enablednbis nbidict Hapi Hin Hid Hdmg).
    by exists KeyError. }
  destruct Hreply as [e Hreply].
  by apply (handle_packet_select_raises _ _ _ _ _ _ _ _ _ _ e Hkind Hcommon).
Qed.

(** X25 when the API answers with an image that has no [dmg]. *)
Lemma select_api_without_dmg_is_dropped_witness :
  handle_packet api_server (api_answers [booter_only]) select_1001 initial_globals
  = (None, {| defaultnbi := 0x1001; hasdefault := false;
              imagenameslist := list_entry booter_only |}).
Proof.
  apply (select_api_without_dmg_is_dropped api_server (api_answers [booter_only])
           select_1001 initial_globals
           {| defaultnbi := 0x1001; hasdefault := false;
              imagenameslist := list_entry booter_only |}
           (chaddr_to_mac (chaddr select_1001)) [10; 0; 0; 5]
           (named_options [(1, [2]); (8, [129; 0; 0x10; 0x01])])
           68 [129; 0; 0x10; 0x01] 0x10 0x01 [booter_only] booter_only).
  - reflexivity.
  - reflexivity.
  - by_evaluation.
  - by vm_compute.
  - reflexivity.
  - reflexivity.
  - reflexivity.
  - reflexivity.
  - left.
  - reflexivity.
  - reflexivity.
Defined.

(** ** [parseOptions] on blobs that are not well formed *)

(** The scan of well-formed sub-options that something else follows: it
    consumes one round per sub-option and goes on at the first byte of
    what follows. *)
Lemma scan_options_prefix (bs : list N) (os : list (N * list N)) :
  forall (pre tail : list N) (m : gmap string (N * N)) (fuel : nat),
  bs = pre ++ encode_options os ++ tail ->
  Forall known_option os ->
  exists m',
    scan_options (length os + fuel) bs (len pre) m
    = scan_options fuel bs (len (pre ++ encode_options os)) m' /\
    slice_of bs <$> m' = fold_left bind_option os (slice_of bs <$> m).
Proof.
  induction os as [|[c v] os IH]; intros pre tail m fuel Hbs Hknown.
  - exists m. split; [|done]. unfold encode_options. cbn. by rewrite app_nil_r.
  - apply Forall_cons in Hknown as [[name Hname] Hknown].
    change (bsdpoptioncodes !! c = Some name) in Hname.
    assert (Henc : encode_options ((c, v) :: os)
                   = encode_option (c, v) ++ encode_options os) by done.
    assert (Hbs' : bs = (pre ++ encode_option (c, v)) ++ encode_options os ++ tail).
    { rewrite Hbs, Henc. by rewrite <- !app_assoc. }
    destruct (IH (pre ++ encode_option (c, v)) tail
                 (<[name := (len pre + 1 + 1, len v)]> m) fuel Hbs' Hknown)
      as (m' & Hscan & Hm').
    exists m'. split.
    + cbn [length Nat.add]. rewrite scan_options_S.
      assert ((len pre <? len bs) = true) as ->.
      { apply N.ltb_lt. rewrite Hbs'. rewrite !len_app. unfold encode_option, len. cbn. lia. }
      assert (getitem bs (len pre + 1) = Ok (len v)) as ->.
      { rewrite Hbs, Henc. by rewrite getitem_app_r. }
      assert (getitem bs (len pre) = Ok c) as ->.
      { rewrite Hbs, Henc. rewrite <- (N.add_0_r (len pre)). by rewrite getitem_app_r. }
      cbn [mbind result_bind]. unfold dict_get. rewrite Hname.
      cbn [mbind result_bind].
      rewrite Henc, app_assoc, <- Hscan. f_equal.
      rewrite len_app. unfold encode_option, len. cbn [length fst snd]. lia.
    + rewrite Hm', fmap_insert. cbn [fold_left]. f_equal.
      unfold bind_option. cbn [fst snd]. rewrite Hname. f_equal.
      unfold slice_of. cbn [fst snd].
      rewrite Hbs, Henc.
      set (rest := encode_options os ++ tail).
      change (pre ++ (encode_option (c, v) ++ encode_options os) ++ tail)
        with (pre ++ (encode_option (c, v) ++ encode_options os) ++ tail).
      rewrite <- (app_assoc (encode_option (c, v))). fold rest.
      change (pre ++ encode_option (c, v) ++ rest)
        with (pre ++ [c; len v] ++ v ++ rest).
      rewrite (app_assoc pre [c; len v]).
      replace (len pre + 1 + 1) with (len (pre ++ [c; len v]))
        by (rewrite len_app; unfold len; cbn; lia).
      apply slice_app_exact.
Qed.

Lemma length_encode_options_twice (os : list (N * list N)) :
  (2 * length os <= length (encode_options os))%nat.
Proof.
  induction os as [|o os IH]; [done|].
  unfold encode_options in *. cbn. rewrite length_app. lia.
Qed.

(** [parseOptions] on well-formed sub-options followed by [tail]: the
    scan reaches the first byte of [tail] with two rounds or more left. *)
Lemma parseOptions_prefix (os : list (N * list N)) (tail : list N) :
  Forall known_option os ->
  tail <> [] ->
  exists m' fuel,
    let bs := encode_options os ++ tail in
    scan_options (S (length bs)) bs 0 ∅
    = scan_options (S (S fuel)) bs (len (encode_options os)) m' /\
    slice_of bs <$> m' = named_options os.
Proof.
  intros Hknown Htail.
  set (bs := encode_options os ++ tail).
  assert (Hfuel : exists fuel, S (length bs) = (length os + S (S fuel))%nat).
  { exists (length bs - length os - 1)%nat.
    pose proof (length_encode_options_twice os). subst bs.
    rewrite length_app. destruct tail; [done|]. cbn [length]. lia. }
  destruct Hfuel as [fuel Hfuel].
  destruct (scan_options_prefix bs os [] tail ∅ (S (S fuel)) eq_refl Hknown)
    as (m' & Hscan & Hm').
  exists m', fuel. cbn zeta. fold bs. rewrite Hfuel. split; [exact Hscan|].
  rewrite Hm'. by rewrite fmap_empty.
Qed.

(** X15.  A blob that ends right after the code of a sub-option, with no
    length byte, makes [parseOptions] raise [IndexError], whatever
    well-formed sub-options with known codes come before. *)
Theorem parseOptions_cut_after_code (os : list (N * list N)) (code : N) :
  Forall known_option os ->
  parseOptions (encode_options os ++ [code]) = Raise IndexError.
Proof.
  intros Hknown. unfold parseOptions.
  destruct (parseOptions_prefix os [code] Hknown) as (m' & fuel & Hscan & _); [done|].
  cbn zeta in Hscan. rewrite Hscan, scan_options_S.
  rewrite len_app. change (len [code]) with 1.
  rewrite (proj2 (N.ltb_lt _ _)) by lia.
  assert (getitem (encode_options os ++ [code]) (len (encode_options os) + 1)
          = Raise IndexError) as ->; [|reflexivity].
  unfold getitem. rewrite lookup_ge_None_2; [done|].
  rewrite length_app. unfold len. cbn [length]. lia.
Qed.

(** X15 at a [message_type] followed by a lone code 8. *)
Lemma parseOptions_cut_after_code_witness :
  parseOptions [1; 1; 1; 8] = Raise IndexError.
Proof.
  apply (parseOptions_cut_after_code [(1, [1])] 8).
  repeat constructor; by eexists.
Defined.

(** X16.  A sub-option whose code is not in [bsdpoptioncodes] makes
    [parseOptions] raise [KeyError], whatever well-formed sub-options
    with known codes come before it and whatever follows its length
    byte: one unknown code costs the whole request. *)
Theorem parseOptions_unknown_code (os : list (N * list N)) (code n : N)
    (rest : list N) :
  Forall known_option os ->
  bsdpoptioncodes !! code = None ->
  parseOptions (encode_options os ++ code :: n :: rest) = Raise KeyError.
Proof.
  intros Hknown Hcode. unfold parseOptions.
  destruct (parseOptions_prefix os (code :: n :: rest) Hknown)
    as (m' & fuel & Hscan & _); [done|].
  cbn zeta in Hscan. rewrite Hscan, scan_options_S.
  rewrite len_app.
  rewrite (proj2 (N.ltb_lt _ _)) by (unfold len; cbn [length]; lia).
  assert (getitem (encode_options os ++ code :: n :: rest)
            (len (encode_options os) + 1) = Ok n) as ->
    by by rewrite getitem_app_r.
  assert (getitem (encode_options os ++ code :: n :: rest)
            (len (encode_options os)) = Ok code) as ->
    by (rewrite <- (N.add_0_r (len (encode_options os))); by rewrite getitem_app_r).
  cbn [mbind result_bind]. unfold dict_get. by rewrite Hcode.
Qed.

(** X16 at a [message_type] followed by a sub-option of code 99. *)
Lemma parseOptions_unknown_code_witness :
  parseOptions [1; 1; 1; 99; 0] = Raise KeyError.
Proof.
  apply (parseOptions_unknown_code [(1, [1])] 99 0 []).
  - repeat constructor; by eexists.
  - reflexivity.
Defined.

(** X17.  A last sub-option that announces more bytes than the blob
    holds is accepted without an error: its name is bound to the bytes
    that are there. *)
Theorem parseOptions_short_value (os : list (N * list N)) (code n : N)
    (value : list N) (name : string) :
  Forall known_option os ->
  bsdpoptioncodes !! code = Some name ->
  len value < n ->
  parseOptions (encode_options os ++ code :: n :: value)
  = Ok (<[name := value]> (named_options os)).
Proof.
  intros Hknown Hcode Hshort. unfold parseOptions.
  destruct (parseOptions_prefix os (code :: n :: value) Hknown)
    as (m' & fuel & Hscan & Hm'); [done|].
  cbn zeta in Hscan, Hm'. rewrite Hscan, scan_options_S.
  set (bs := encode_options os ++ code :: n :: value) in *.
  assert (Hlen : len bs = len (encode_options os) + 2 + len value).
  { subst bs. rewrite len_app. unfold len. cbn [length]. lia. }
  rewrite (proj2 (N.ltb_lt _ _)) by lia.
  subst bs.
  assert (getitem (encode_options os ++ code :: n :: value)
            (len (encode_options os) + 1) = Ok n) as ->
    by by rewrite getitem_app_r.
  assert (getitem (encode_options os ++ code :: n :: value)
            (len (encode_options os)) = Ok code) as ->
    by (rewrite <- (N.add_0_r (len (encode_options os))); by rewrite getitem_app_r).
  cbn [mbind result_bind]. unfold dict_get. rewrite Hcode.
  cbn [mbind result_bind]. rewrite scan_options_S.
  rewrite (proj2 (N.ltb_ge _ _)) by lia.
  f_equal. rewrite fmap_insert. unfold slice_of in Hm'. rewrite Hm'. f_equal.
  cbn [fst snd]. unfold slice.
  change (encode_options os ++ code :: n :: value)
    with (encode_options os ++ [code; n] ++ value).
  rewrite app_assoc.
  replace (N.to_nat (len (encode_options os) + 1 + 1))
    with (length (encode_options os ++ [code; n]))
    by (rewrite length_app; unfold len; cbn [length]; lia).
  rewrite drop_app_length. apply take_ge. unfold len in *. lia.
Qed.

(** X17 at a [selected_boot_image] that announces four bytes and holds
    two. *)
Lemma parseOptions_short_value_witness :
  parseOptions [1; 1; 1; 8; 4; 129; 0]
  = Ok (<["selected_boot_image" := [129; 0]]> (named_options [(1, [1])])).
Proof.
  apply (parseOptions_short_value [(1, [1])] 8 4 [129; 0] "selected_boot_image").
  - repeat constructor; by eexists.
  - reflexivity.
  - reflexivity.
Defined.

(** ** The scan of the image directory *)

(** S1 from the disk: the scan of [/nbi] returns [TestImage]. *)
Example getNbiOptions_Test :
  getNbiOptions Test_library "/nbi" (Some nbi_root)
  = Ok ([TestImage], ["/nbi/Test.nbi"]).
Proof. by vm_compute. Qed.

Lemma dir_ind' (P : dir -> Prop) :
  (forall dirs files,
     (forall name sub, (name, Some sub) ∈ dirs -> P sub) -> P (Dir dirs files)) ->
  forall d, P d.
Proof.
  intros H. fix IH 1. intros [dirs files]. apply H.
  induction dirs as [|[name' [sub'|]] l IHl]; intros name sub Hin.
  - exfalso. exact (proj1 (elem_of_nil _) Hin).
  - apply elem_of_cons in Hin as [Heq|Hin].
    + injection Heq as _ ->. apply IH.
    + exact (IHl name sub Hin).
  - apply elem_of_cons in Hin as [Heq|Hin]; [discriminate Heq|].
    exact (IHl name sub Hin).
Qed.

Lemma string_app_cons (c : ascii) (s t : string) :
  (String c s ++ t)%string = String c (s ++ t)%string.
Proof. reflexivity. Qed.

Lemma string_app_nil_r (s : string) : (s ++ "")%string = s.
Proof.
  induction s as [|c s IH]; [done|]. by rewrite string_app_cons, IH.
Qed.

Lemma string_app_assoc (a b c : string) :
  ((a ++ b) ++ c)%string = (a ++ (b ++ c))%string.
Proof.
  induction a as [|x a IH]; [done|]. by rewrite !string_app_cons, IH.
Qed.

Lemma substring_split (n : nat) (p : string) :
  (String.substring 0 n p ++ String.substring n (String.length p - n) p)%string = p.
Proof.
  revert n. induction p as [|c p IH]; intros [|n]; cbn [String.substring String.length].
  - done.
  - done.
  - change ("" ++ ?s)%string with s. f_equal.
    specialize (IH 0%nat). rewrite Nat.sub_0_r in IH.
    destruct p; [done|]. cbn [String.substring] in IH. exact IH.
  - rewrite string_app_cons. f_equal. apply IH.
Qed.

Lemma rfind_from_ge (c : ascii) (s : string) (i found : Z) :
  (-1 <= found)%Z -> (0 <= i)%Z -> (-1 <= rfind_from c i found s)%Z.
Proof.
  revert i found. induction s as [|a s IH]; intros i found Hf Hi; [done|].
  cbn. apply IH; [|lia]. destruct (Ascii.eqb a c); lia.
Qed.

Lemma splitext_app (p : string) :
  ((splitext p).1 ++ (splitext p).2)%string = p.
Proof.
  unfold splitext.
  pose proof (rfind_from_ge "/" p 0 (-1) ltac:(lia) ltac:(lia)) as Hsep.
  fold (rfind "/" p) in Hsep.
  destruct (Z.ltb_spec (rfind "/" p) (rfind "." p)) as [Hlt|_];
    [|apply string_app_nil_r].
  destruct (existsb _ _); [|apply string_app_nil_r].
  cbn [fst snd]. unfold str_slice.
  rewrite Z.sub_0_r. change (Z.to_nat 0) with 0%nat.
  replace (Z.to_nat (Z.of_nat (String.length p) - rfind "." p))
    with (String.length p - Z.to_nat (rfind "." p))%nat by lia.
  apply substring_split.
Qed.

Lemma lower_char_idemp (c : ascii) : lower_char (lower_char c) = lower_char c.
Proof. by destruct c as [[] [] [] [] [] [] [] []]. Qed.

Lemma lower_idemp (s : string) : lower (lower s) = lower s.
Proof.
  induction s as [|c s IH]; [done|]. cbn [lower].
  by rewrite lower_char_idemp, IH.
Qed.

Lemma listed_sub (dirs : list (string * option dir)) (files : list string)
    (name : string) (sub : dir) :
  listed (Dir dirs files) = true -> (name, Some sub) ∈ dirs -> listed sub = true.
Proof.
  cbn [listed]. intros [_ H]%andb_prop Hin. revert H.
  induction dirs as [|[name' sub'] l IHl].
  - by apply elem_of_nil in Hin.
  - intros [[_ Hsub]%andb_prop Hl]%andb_prop.
    apply elem_of_cons in Hin as [[= -> <-]|Hin]; [done|]. by apply IHl.
Qed.

Lemma os_walk_sub (top : string) (dirs : list (string * option dir))
    (files : list string) (name : string) (sub : dir)
    (visit : string * list string * list string) :
  (name, Some sub) ∈ dirs ->
  visit ∈ os_walk (os_path_join top name) sub ->
  visit ∈ os_walk top (Dir dirs files).
Proof.
  intros Hin Hvisit. cbn [os_walk]. right.
  induction dirs as [|[name' [sub'|]] l IHl].
  - by apply elem_of_nil in Hin.
  - apply elem_of_app. apply elem_of_cons in Hin as [[= -> ->]|Hin]; [by left|].
    right. by apply IHl.
  - apply elem_of_cons in Hin as [[=]|Hin]. by apply IHl.
Qed.

Lemma part_of_refl (path : string) (d : dir) : part_of path d path d.
Proof. by split. Qed.

Lemma part_of_sub (top : string) (dirs : list (string * option dir))
    (files : list string) (name : string) (sub : dir) (path' : string) (d' : dir) :
  (name, Some sub) ∈ dirs ->
  part_of (os_path_join top name) sub path' d' ->
  part_of top (Dir dirs files) path' d'.
Proof.
  intros Hin [Hlisted Hvisits]. split.
  - intros H. apply Hlisted. by eapply listed_sub.
  - intros visit Hvisit. eapply os_walk_sub; [done|]. by apply Hvisits.
Qed.

Lemma scan_spec (lib : library) (d : dir) :
  forall path acc r,
    scan lib path d acc = Ok r ->
    exists images sources,
      r = (acc.1 ++ images, acc.2 ++ sources) /\
      Forall2 (considered lib (part_of path d)) images sources.
Proof.
  induction d as [dirs files IH] using dir_ind'. intros path acc r.
  cbn [scan]. case_bool_decide as Hext.
  - intros H. bind_inv H as thisnbi Hconsider. destruct thisnbi as [thisnbi|].
    + injection H as <-. exists [thisnbi], [path]. split; [done|].
      constructor; [|constructor]. split; [done|].
      exists (Dir dirs files). split; [apply part_of_refl|done].
    + injection H as <-. exists [], []. rewrite !app_nil_r.
      split; [by destruct acc|constructor].
  - clear Hext.
    assert (Hpart : forall name sub path' d', (name, Some sub) ∈ dirs ->
              part_of (os_path_join path name) sub path' d' ->
              part_of path (Dir dirs files) path' d')
      by (intros; by eapply part_of_sub).
    revert acc IH Hpart. generalize (Dir dirs files) as top.
    induction dirs as [|[name [sub|]] l IHl]; intros top acc IH Hpart H.
    + injection H as <-. exists [], []. rewrite !app_nil_r.
      split; [by destruct acc|constructor].
    + bind_inv H as acc1 Hsub.
      apply (IH name sub) in Hsub as (images1 & sources1 & -> & H1); [|left].
      apply (IHl top) in H as (images2 & sources2 & -> & H2).
      * exists (images1 ++ images2), (sources1 ++ sources2). cbn [fst snd].
        rewrite !app_assoc. split; [done|]. apply Forall2_app; [|done].
        eapply Forall2_impl; [exact H1|].
        intros i src (Hext & d' & Hgood & Hd'). split; [done|].
        exists d'. split; [|done]. apply (Hpart name sub); [left|done].
      * intros name' sub' Hin. apply (IH name' sub'). by right.
      * intros name' sub' p' d' Hin. apply (Hpart name' sub'). by right.
    + apply (IHl top) in H; [done| |].
      * intros name' sub' Hin. apply (IH name' sub'). by right.
      * intros name' sub' p' d' Hin. apply (Hpart name' sub'). by right.
Qed.

Lemma plist_get_inv {A} (value : option A) (v : A) :
  plist_get value = Ok v -> value = Some v.
Proof. destruct value; [by intros [= ->]|done]. Qed.

Lemma getitem_elem_of {A} (l : list A) (i : N) (x : A) :
  getitem l i = Ok x -> x ∈ l.
Proof.
  unfold getitem. destruct (l !! N.to_nat i) eqn:H; [|done].
  intros [= <-]. by eapply list_elem_of_lookup_2.
Qed.

(** What a record tells about the plist it was built from. *)
Lemma consider_inv (lib : library) (path : string) (d : dir) (image : nbi) :
  consider lib path d = Ok (Some image) ->
  exists plistpath nbimageinfo bootfile,
    plistpath ∈ find lib "NBImageInfo.plist" path d /\
    readPlist lib plistpath = Ok nbimageinfo /\
    plist_Index nbimageinfo = Some (nbi_id image) /\
    nbi_id image <> 0 /\
    plist_IsEnabled nbimageinfo = Some true /\
    plist_Name nbimageinfo = Some (nbi_name image) /\
    nbi_length image = N.of_nat (String.length (nbi_name image)) /\
    plist_Type nbimageinfo = Some (nbi_proto image) /\
    plist_BootFile nbimageinfo = Some bootfile /\
    nbi_booter image ∈ find lib bootfile path d /\
    nbi_enabledmacaddrs image
      = lower <$> default [] (plist_EnabledMACAddresses nbimageinfo) /\
    (if bool_decide (nbi_proto image = "BootFileOnly") then nbi_dmg image = None
     else exists found, found ∈ find lib "*.dmg" path d /\
                        nbi_dmg image = Some (dmg_of found)).
Proof.
  unfold consider. intros H.
  bind_inv H as plistpath Hplist. bind_inv H as info Hinfo.
  bind_inv H as index Hindex. destruct (N.eqb_spec index 0) as [->|Hindex0].
  { by bind_inv H as name Hname. }
  bind_inv H as isenabled Henabled. destruct isenabled; cbn [negb] in H.
  2: { by bind_inv H as name Hname. }
  bind_inv H as bootfile Hbootfile. bind_inv H as booter Hbooter.
  bind_inv H as description Hdescription. bind_inv H as disabled Hdisabled.
  bind_inv H as type Htype. bind_inv H as dmg Hdmg.
  bind_inv H as enabled Henabledsys. bind_inv H as isdefault Hisdefault.
  bind_inv H as name Hname. injection H as <-. cbn.
  exists plistpath, info, bootfile.
  apply plist_get_inv in Hindex, Henabled, Hbootfile, Htype, Hname.
  apply getitem_elem_of in Hplist, Hbooter.
  repeat (split; [done|]).
  destruct (decide (type = "BootFileOnly")) as [Hproto|Hproto].
  - rewrite (bool_decide_true _ Hproto).
    rewrite bool_decide_false in Hdmg by (by intros ?). by injection Hdmg as <-.
  - rewrite (bool_decide_false _ Hproto).
    rewrite bool_decide_true in Hdmg by done.
    bind_inv Hdmg as found Hfound. injection Hdmg as <-.
    exists found. split; [by eapply getitem_elem_of|done].
Qed.

Lemma entry_name_inv (name : string) :
  entry_name name = true ->
  name <> "" /\
  forallb (fun c => negb (Ascii.eqb c "/")) (list_ascii_of_string name) = true.
Proof.
  unfold entry_name. intros [Hne Hchars]%andb_prop. split; [|done].
  by apply negb_true_iff, bool_decide_eq_false in Hne.
Qed.

Lemma entry_name_relative (a name : string) :
  entry_name name = true ->
  exists sep, os_path_join a name = (a ++ sep ++ name)%string.
Proof.
  intros [Hne Hchars]%entry_name_inv. unfold os_path_join.
  assert (Hrest : exists sep,
            (if bool_decide (a = "") then (a ++ name)%string
             else match String.get (String.length a - 1) a with
                  | Some "/"%char => (a ++ name)%string
                  | _ => (a ++ "/" ++ name)%string
                  end) = (a ++ sep ++ name)%string).
  { case_bool_decide; [by exists ""|].
    destruct (String.get _ a) as [c|]; [|by exists "/"].
    destruct (Ascii.eqb_spec c "/") as [->|Hc]; [by exists ""|].
    exists "/". by destruct c as [[] [] [] [] [] [] [] []]. }
  destruct name as [|c name]; [done|].
  cbn [list_ascii_of_string forallb] in Hchars.
  apply andb_prop in Hchars as [Hc _].
  destruct (Ascii.eqb_spec c "/") as [->|Hc']; [done|].
  by destruct c as [[] [] [] [] [] [] [] []].
Qed.

Lemma listed_name (dirs : list (string * option dir)) (files : list string)
    (name : string) (sub : option dir) :
  listed (Dir dirs files) = true -> (name, sub) ∈ dirs -> entry_name name = true.
Proof.
  cbn [listed]. intros [_ H]%andb_prop Hin. revert H.
  induction dirs as [|[name' sub'] l IHl].
  - by apply elem_of_nil in Hin.
  - intros [[Hname _]%andb_prop Hl]%andb_prop.
    apply elem_of_cons in Hin as [[= -> <-]|Hin]; [done|]. by apply IHl.
Qed.

Lemma os_walk_below (d : dir) :
  listed d = true ->
  forall top visit,
    visit ∈ os_walk top d ->
    (exists rest, visit.1.1 = (top ++ rest)%string) /\
    Forall (fun name => entry_name name = true) visit.2.
Proof.
  induction d as [dirs files IH] using dir_ind'. intros Hlisted top visit.
  pose proof (listed_sub dirs files) as Hsub. specialize (fun n s => Hsub n s Hlisted).
  pose proof (listed_name dirs files) as Hname. specialize (fun n s => Hname n s Hlisted).
  cbn [os_walk]. intros [->|Hin]%elem_of_cons.
  { cbn [fst snd]. split; [exists ""; by rewrite string_app_nil_r|].
    cbn [listed] in Hlisted. apply andb_prop in Hlisted as [Hfiles _].
    apply Forall_forall. intros name Hin%list_elem_of_In.
    rewrite forallb_forall in Hfiles. by apply Hfiles. }
  clear Hlisted. revert Hin.
  induction dirs as [|[name [sub|]] l IHl]; intros Hin.
  - by apply elem_of_nil in Hin.
  - apply elem_of_app in Hin as [Hin|Hin].
    + apply (IH name sub) in Hin as [[rest Hrest] Hfiles]; [|left|apply (Hsub name); left].
      split; [|done].
      destruct (entry_name_relative top name) as [sep Hjoin].
      { apply (Hname name (Some sub)). left. }
      exists (sep ++ name ++ rest)%string.
      by rewrite Hrest, Hjoin, !string_app_assoc.
    + apply IHl; [| | |done].
      * intros n s Hn. apply (IH n s). by right.
      * intros n s Hn. apply (Hsub n s). by right.
      * intros n s Hn. apply (Hname n s). by right.
  - apply IHl; [| | |done].
    + intros n s Hn. apply (IH n s). by right.
    + intros n s Hn. apply (Hsub n s). by right.
    + intros n s Hn. apply (Hname n s). by right.
Qed.

Lemma find_below (lib : library) (pattern path : string) (d : dir) (found : string) :
  listed d = true ->
  found ∈ find lib pattern path d ->
  exists rest, found = (path ++ rest)%string.
Proof.
  intros Hlisted. unfold find. rewrite list_elem_of_In, in_flat_map.
  intros ([[root dirs] files] & Hvisit%list_elem_of_In & Hfound%list_elem_of_In).
  apply (os_walk_below d Hlisted) in Hvisit as [[rest Hroot] Hfiles].
  cbn [fst snd] in Hroot, Hfiles.
  apply list_elem_of_fmap in Hfound as (name & -> & [_ Hname]%list_elem_of_filter).
  rewrite Forall_forall in Hfiles.
  destruct (entry_name_relative root name (Hfiles name Hname)) as [sep ->].
  exists (rest ++ sep ++ name)%string. by rewrite Hroot, !string_app_assoc.
Qed.

Lemma split_from_cons (sep : ascii) (cur s : string) :
  exists x xs, split_from sep cur s = x :: xs.
Proof.
  revert cur. induction s as [|c s IH]; intros cur; cbn [split_from].
  - by eexists _, _.
  - destruct (Ascii.eqb c sep); [by eexists _, _|apply IH].
Qed.

Lemma rev_app_app (s1 s2 t : string) :
  (String.rev_app s1 s2 ++ t)%string = String.rev_app s1 (s2 ++ t)%string.
Proof.
  revert s2. induction s1 as [|c s1 IH]; intros s2; [done|].
  cbn [String.rev_app]. by rewrite IH, string_app_cons.
Qed.

Lemma rev_cons_app (c : ascii) (cur s : string) :
  (String.rev (String c cur) ++ s)%string = (String.rev cur ++ String c s)%string.
Proof. unfold String.rev. cbn [String.rev_app]. by rewrite !rev_app_app. Qed.

Lemma join_split_from (sep : ascii) (cur s : string) :
  join (String sep "") (split_from sep cur s) = (String.rev cur ++ s)%string.
Proof.
  revert cur. induction s as [|c s IH]; intros cur; cbn [split_from].
  - by rewrite string_app_nil_r.
  - destruct (Ascii.eqb_spec c sep) as [->|_].
    + destruct (split_from_cons sep "" s) as (x & xs & Hsplit).
      specialize (IH ""). rewrite Hsplit in IH |- *.
      unfold join in IH |- *.
      change (String.concat ?p (?a :: ?b :: ?l))
        with (a ++ p ++ String.concat p (b :: l))%string.
      by rewrite IH.
    + by rewrite IH, rev_cons_app.
Qed.

(** ['/'.join(s.split('/'))] is [s]. *)
Lemma join_split (sep : ascii) (s : string) :
  join (String sep "") (split sep s) = s.
Proof. unfold split. by rewrite join_split_from. Qed.

Lemma split_from_field (sep : ascii) (field cur s : string) :
  forallb (fun c => negb (Ascii.eqb c sep)) (list_ascii_of_string field) = true ->
  split_from sep cur (field ++ String sep s)
  = (String.rev cur ++ field)%string :: split_from sep "" s.
Proof.
  revert cur. induction field as [|c field IH]; intros cur Hfield.
  - change ("" ++ ?x)%string with x. cbn [split_from].
    by rewrite Ascii.eqb_refl, string_app_nil_r.
  - cbn [list_ascii_of_string forallb] in Hfield.
    apply andb_prop in Hfield as [Hc Hfield].
    rewrite string_app_cons. cbn [split_from].
    destruct (Ascii.eqb c sep); [done|]. by rewrite IH, rev_cons_app.
Qed.

Lemma string_length_app (s t : string) :
  String.length (s ++ t) = (String.length s + String.length t)%nat.
Proof.
  induction s as [|c s IH]; [done|]. rewrite string_app_cons. cbn. by rewrite IH.
Qed.

Lemma get_forallb (P : ascii -> bool) (s : string) (n : nat) (c : ascii) :
  forallb P (list_ascii_of_string s) = true -> String.get n s = Some c -> P c = true.
Proof.
  revert n. induction s as [|a s IH]; intros n H; [done|].
  cbn [list_ascii_of_string forallb] in H. apply andb_prop in H as [Ha Hs].
  destruct n as [|n]; cbn [String.get]; [by intros [= <-]|by apply IH].
Qed.


Lemma clean_app (s name : string) : entry_name name = true -> clean (s ++ name).
Proof.
  intros [Hne Hchars]%entry_name_inv. split.
  - destruct s; [done|by rewrite string_app_cons].
  - rewrite string_length_app.
    replace (String.length s + String.length name - 1)%nat
      with ((String.length name - 1) + String.length s)%nat
      by (destruct name; [done|cbn; lia]).
    rewrite <- append_correct2. intros Hget.
    by apply (get_forallb _ _ _ _ Hchars) in Hget.
Qed.

Lemma os_path_join_clean (a name : string) :
  clean a -> entry_name name = true ->
  os_path_join a name = (a ++ "/" ++ name)%string.
Proof.
  intros [Ha Hlast] [Hne Hchars]%entry_name_inv. unfold os_path_join.
  rewrite (bool_decide_false _ Ha).
  assert (Hrest : match String.get (String.length a - 1) a with
                  | Some "/"%char => (a ++ name)%string
                  | _ => (a ++ "/" ++ name)%string
                  end = (a ++ "/" ++ name)%string).
  { destruct (String.get _ a) as [c|]; [|done].
    destruct (Ascii.eqb_spec c "/") as [->|Hc]; [done|].
    by destruct c as [[] [] [] [] [] [] [] []]. }
  destruct name as [|c name]; [done|].
  cbn [list_ascii_of_string forallb] in Hchars. apply andb_prop in Hchars as [Hc _].
  destruct (Ascii.eqb_spec c "/") as [->|Hc']; [done|].
  by destruct c as [[] [] [] [] [] [] [] []].
Qed.

Lemma os_walk_clean (d : dir) :
  listed d = true ->
  forall top visit,
    clean top ->
    visit ∈ os_walk top d ->
    (visit.1.1 = top \/ exists rest, visit.1.1 = (top ++ "/" ++ rest)%string) /\
    clean visit.1.1 /\
    Forall (fun name => entry_name name = true) visit.2.
Proof.
  induction d as [dirs files IH] using dir_ind'. intros Hlisted top visit Htop.
  pose proof (listed_sub dirs files) as Hsub. specialize (fun n s => Hsub n s Hlisted).
  pose proof (listed_name dirs files) as Hname. specialize (fun n s => Hname n s Hlisted).
  cbn [os_walk]. intros [->|Hin]%elem_of_cons.
  { cbn [fst snd]. split; [by left|]. split; [done|].
    cbn [listed] in Hlisted. apply andb_prop in Hlisted as [Hfiles _].
    apply Forall_forall. intros name Hin%list_elem_of_In.
    rewrite forallb_forall in Hfiles. by apply Hfiles. }
  clear Hlisted. revert Hin.
  induction dirs as [|[name [sub|]] l IHl]; intros Hin.
  - by apply elem_of_nil in Hin.
  - apply elem_of_app in Hin as [Hin|Hin].
    + assert (Hentry : entry_name name = true) by (apply (Hname name (Some sub)); left).
      rewrite (os_path_join_clean top name Htop Hentry) in Hin.
      apply (IH name sub) in Hin as ([Hrest|[rest Hrest]] & Hclean & Hfiles);
        [| |left|apply (Hsub name); left|].
      * split; [|done]. right. by exists name.
      * split; [|done]. right. exists (name ++ "/" ++ rest)%string.
        by rewrite Hrest, !string_app_assoc.
      * rewrite <- (string_app_assoc top "/" name). by apply clean_app.
    + apply IHl; [| | |done].
      * intros n s Hn. apply (IH n s). by right.
      * intros n s Hn. apply (Hsub n s). by right.
      * intros n s Hn. apply (Hname n s). by right.
  - apply IHl; [| | |done].
    + intros n s Hn. apply (IH n s). by right.
    + intros n s Hn. apply (Hsub n s). by right.
    + intros n s Hn. apply (Hname n s). by right.
Qed.

Lemma find_visit (lib : library) (pattern path : string) (d : dir) (found : string) :
  found ∈ find lib pattern path d <->
  exists root dirs files name,
    (root, dirs, files) ∈ os_walk path d /\ name ∈ files /\
    fnmatch lib name pattern = true /\ found = os_path_join root name.
Proof.
  unfold find. rewrite list_elem_of_In, in_flat_map. split.
  - intros ([[root dirs] files] & Hvisit%list_elem_of_In & Hfound%list_elem_of_In).
    apply list_elem_of_fmap in Hfound as (name & -> & [Hmatch Hname]%list_elem_of_filter).
    by exists root, dirs, files, name.
  - intros (root & dirs & files & name & Hvisit & Hname & Hmatch & ->).
    exists (root, dirs, files). split; [by apply list_elem_of_In|].
    apply list_elem_of_In, list_elem_of_fmap. exists name. split; [done|].
    by apply list_elem_of_filter.
Qed.

Lemma find_part_of (lib : library) (pattern path path' : string) (d d' : dir)
    (found : string) :
  part_of path d path' d' ->
  found ∈ find lib pattern path' d' -> found ∈ find lib pattern path d.
Proof.
  intros [_ Hvisits]. rewrite !find_visit.
  intros (root & dirs & files & name & Hvisit & H). exists root, dirs, files, name.
  split; [by apply Hvisits|done].
Qed.

Lemma find_clean (lib : library) (pattern path : string) (d : dir) (found : string) :
  listed d = true -> clean path ->
  found ∈ find lib pattern path d ->
  exists tail, found = (path ++ "/" ++ tail)%string.
Proof.
  intros Hlisted Hpath (root & dirs & files & name & Hvisit & Hname & _ & ->)%find_visit.
  apply (os_walk_clean d Hlisted path _ Hpath) in Hvisit
    as (Hroot & Hclean & Hfiles). cbn [fst snd] in Hroot, Hclean, Hfiles.
  rewrite Forall_forall in Hfiles.
  rewrite (os_path_join_clean root name Hclean (Hfiles name Hname)).
  destruct Hroot as [->|[rest ->]]; [by exists name|].
  exists (rest ++ "/" ++ name)%string. by rewrite !string_app_assoc.
Qed.

Lemma getNbiOptions_spec (lib : library) (incoming : string) (d : dir)
    (images : list nbi) (sources : list string) :
  getNbiOptions lib incoming (Some d) = Ok (images, sources) ->
  Forall2 (considered lib (part_of incoming d)) images sources.
Proof.
  intros (images' & sources' & [= -> ->] & H)%scan_spec. exact H.
Qed.

(** X18.  Every record [getNbiOptions] returns has a non-zero index, a
    [length] that is the length of its name, MAC addresses in lower case,
    and a [dmg] key exactly when its type is not [BootFileOnly]. *)
Theorem getNbiOptions_records (lib : library) (incoming : string) (d : option dir)
    (images : list nbi) (sources : list string) :
  getNbiOptions lib incoming d = Ok (images, sources) ->
  Forall (fun image =>
            nbi_id image <> 0 /\
            nbi_length image = N.of_nat (String.length (nbi_name image)) /\
            Forall (fun mac => lower mac = mac) (nbi_enabledmacaddrs image) /\
            (nbi_dmg image = None <-> nbi_proto image = "BootFileOnly"))
    images.
Proof.
  destruct d as [d|]; [|intros [= <- <-]; constructor].
  intros H%getNbiOptions_spec.
  induction H as [|image source images sources (_ & d' & _ & Hconsider) _ IH];
    constructor; [|exact IH].
  apply consider_inv in Hconsider
    as (plistpath & info & bootfile & _ & _ & _ & Hid & _ & _ & Hlen & _ & _ & _
        & Hmacs & Hdmg).
  repeat split; [done|done| | |].
  - rewrite Hmacs. apply Forall_fmap, Forall_true. intros mac. apply lower_idemp.
  - intros Hnone. case_bool_decide as Hproto; [done|].
    destruct Hdmg as (found & _ & Hsome). congruence.
  - intros Hproto. by rewrite (bool_decide_true _ Hproto) in Hdmg.
Qed.

(** X18 at the image directory of S1. *)
Lemma getNbiOptions_records_witness :
  Forall (fun image =>
            nbi_id image <> 0 /\
            nbi_length image = N.of_nat (String.length (nbi_name image)) /\
            Forall (fun mac => lower mac = mac) (nbi_enabledmacaddrs image) /\
            (nbi_dmg image = None <-> nbi_proto image = "BootFileOnly"))
    [TestImage].
Proof.
  apply (getNbiOptions_records Test_library "/nbi" (Some nbi_root) [TestImage]
           ["/nbi/Test.nbi"]).
  by vm_compute.
Defined.

(** X19.  [getNbiOptions] returns as many sources as records, and every
    source is a path that ends in [.nbi]. *)
Theorem getNbiOptions_sources (lib : library) (incoming : string) (d : option dir)
    (images : list nbi) (sources : list string) :
  getNbiOptions lib incoming d = Ok (images, sources) ->
  length sources = length images /\
  Forall (fun source => exists stem, source = (stem ++ ".nbi")%string) sources.
Proof.
  destruct d as [d|]; [|by intros [= <- <-]].
  intros H%getNbiOptions_spec. split; [symmetry; by eapply Forall2_length|].
  induction H as [|image source images sources (Hext & _) _ IH];
    constructor; [|exact IH].
  exists (splitext source).1. by rewrite <- Hext, splitext_app.
Qed.

(** X19 at the image directory of S1. *)
Lemma getNbiOptions_sources_witness :
  length ["/nbi/Test.nbi"] = length [TestImage] /\
  Forall (fun source => exists stem, source = (stem ++ ".nbi")%string)
    ["/nbi/Test.nbi"].
Proof.
  apply (getNbiOptions_sources Test_library "/nbi" (Some nbi_root) [TestImage]
           ["/nbi/Test.nbi"]).
  by vm_compute.
Defined.

(** X20.  The records and the sources [getNbiOptions] returns go in
    pairs, and the booter of each record is a path that starts with the
    source of the record: the file [find] picked lies in the bundle. *)
Theorem getNbiOptions_booter_in_bundle (lib : library) (incoming : string) (d : dir)
    (images : list nbi) (sources : list string) :
  listed d = true ->
  getNbiOptions lib incoming (Some d) = Ok (images, sources) ->
  Forall2 (fun image source =>
             exists rest, nbi_booter image = (source ++ rest)%string)
    images sources.
Proof.
  intros Hlisted H%getNbiOptions_spec.
  eapply Forall2_impl; [exact H|].
  intros image source (_ & d' & [Hlisted' _] & Hconsider).
  apply consider_inv in Hconsider
    as (plistpath & info & bootfile & _ & _ & _ & _ & _ & _ & _ & _ & _ & Hbooter & _).
  eapply find_below; [|exact Hbooter]. by apply Hlisted'.
Qed.

(** X20 at the image directory of S1. *)
Lemma getNbiOptions_booter_in_bundle_witness :
  Forall2 (fun image source =>
             exists rest, nbi_booter image = (source ++ rest)%string)
    [TestImage] ["/nbi/Test.nbi"].
Proof.
  apply (getNbiOptions_booter_in_bundle Test_library "/nbi" nbi_root).
  - reflexivity.
  - by vm_compute.
Defined.

(** ['/'.join(found.split('/')[2:])] takes the first two fields away:
    the empty one before the leading slash and the first directory. *)
Lemma dmg_of_drops_two_fields (root tail : string) :
  entry_name root = true ->
  dmg_of ("/" ++ root ++ "/" ++ tail) = tail.
Proof.
  intros [_ Hroot]%entry_name_inv. unfold dmg_of, split.
  change ("/" ++ root ++ "/" ++ tail)%string
    with (String "/" (root ++ String "/" tail))%string.
  cbn [split_from]. rewrite Ascii.eqb_refl.
  rewrite (split_from_field "/" root "" tail Hroot). cbn [drop].
  apply (join_split_from "/" "" tail).
Qed.

(** X21.  When the image directory is an absolute path of one
    component, such as the default [/nbi], the [dmg] of every record is
    the path of a file matching [*.dmg] relative to the image directory:
    joined to the directory with a slash, it is one of the files [find]
    returns below the directory. *)
Theorem getNbiOptions_dmg_relative (lib : library) (root : string) (d : dir)
    (images : list nbi) (sources : list string) :
  entry_name root = true ->
  listed d = true ->
  getNbiOptions lib ("/" ++ root) (Some d) = Ok (images, sources) ->
  Forall (fun image =>
            forall dmg, nbi_dmg image = Some dmg ->
              ("/" ++ root ++ "/" ++ dmg)%string ∈ find lib "*.dmg" ("/" ++ root) d)
    images.
Proof.
  intros Hroot Hlisted H%getNbiOptions_spec.
  induction H as [|image source images sources (_ & d' & Hpart & Hconsider) _ IH];
    constructor; [|exact IH].
  intros dmg Hdmg.
  apply consider_inv in Hconsider
    as (plistpath & info & bootfile & _ & _ & _ & _ & _ & _ & _ & _ & _ & _ & _ & Hfound).
  case_bool_decide; [congruence|]. destruct Hfound as (found & Hfound & Hsome).
  apply (find_part_of _ _ _ _ _ _ _ Hpart) in Hfound.
  destruct (find_clean _ _ _ _ _ Hlisted (clean_app "/" root Hroot) Hfound)
    as [tail Htail].
  rewrite Hdmg in Hsome. injection Hsome as ->.
  rewrite Htail in Hfound |- *. rewrite string_app_assoc.
  by rewrite (dmg_of_drops_two_fields root tail Hroot), <- string_app_assoc.
Qed.

(** X21 at the image directory of S1. *)
Lemma getNbiOptions_dmg_relative_witness :
  Forall (fun image =>
            forall dmg, nbi_dmg image = Some dmg ->
              ("/" ++ "nbi" ++ "/" ++ dmg)%string
              ∈ find Test_library "*.dmg" ("/" ++ "nbi") nbi_root)
    [TestImage].
Proof.
  apply (getNbiOptions_dmg_relative Test_library "nbi" nbi_root [TestImage]
           ["/nbi/Test.nbi"]).
  - reflexivity.
  - reflexivity.
  - by vm_compute.
Defined.

Lemma scan_bundle (lib : library) (path : string) (d : dir)
    (acc : list nbi * list string) :
  (splitext path).2 = ".nbi" ->
  scan lib path d acc
  = thisnbi ← consider lib path d;
    match thisnbi with
    | Some thisnbi => Ok (acc.1 ++ [thisnbi], acc.2 ++ [path])
    | None => Ok acc
    end.
Proof. intros Hext. destruct d. cbn [scan]. by rewrite (bool_decide_true _ Hext). Qed.

(** X22.  When a directory right below the image directory has the
    extension [.nbi] and no file named [NBImageInfo.plist] anywhere in
    it, [getNbiOptions] raises, whatever the other bundles hold: the scan
    returns no catalog at all. *)
Theorem getNbiOptions_broken_bundle (lib : library) (incoming : string)
    (dirs : list (string * option dir)) (files : list string)
    (name : string) (sub : dir) :
  (splitext incoming).2 <> ".nbi" ->
  (name, Some sub) ∈ dirs ->
  (splitext (os_path_join incoming name)).2 = ".nbi" ->
  find lib "NBImageInfo.plist" (os_path_join incoming name) sub = [] ->
  exists e, getNbiOptions lib incoming (Some (Dir dirs files)) = Raise e.
Proof.
  intros Hroot Hin Hext Hnone. unfold getNbiOptions. cbn [scan].
  rewrite (bool_decide_false _ Hroot). generalize (@nil nbi, @nil string).
  induction dirs as [|[name' [sub'|]] l IHl]; intros acc.
  - by apply elem_of_nil in Hin.
  - destruct (scan lib (os_path_join incoming name') sub' acc) as [acc'|e] eqn:Hscan;
      cbn [mbind result_bind]; [|by exists e].
    apply elem_of_cons in Hin as [[= -> ->]|Hin]; [|by apply IHl].
    rewrite (scan_bundle _ _ _ _ Hext) in Hscan. unfold consider in Hscan.
    by rewrite Hnone in Hscan.
  - apply elem_of_cons in Hin as [[=]|Hin]. by apply IHl.
Qed.

(** X22 at the image directory of S1 with a bundle that has lost its
    plist. *)
Lemma getNbiOptions_broken_bundle_witness :
  exists e,
    getNbiOptions Test_library "/nbi"
      (Some (Dir [("Test.nbi", Some Test_nbi); ("Broken.nbi", Some Broken_nbi)] []))
    = Raise e.
Proof.
  apply (getNbiOptions_broken_bundle Test_library "/nbi"
           [("Test.nbi", Some Test_nbi); ("Broken.nbi", Some Broken_nbi)] []
           "Broken.nbi" Broken_nbi).
  - by vm_compute.
  - right. left.
  - by vm_compute.
  - by vm_compute.
Defined.

(** ** The text of a MAC address *)

Lemma hex_string_inj (d1 d2 : Hexadecimal.uint) :
  hex_string false d1 = hex_string false d2 -> d1 = d2.
Proof.
  revert d2. induction d1 as [|d1 IH|d1 IH|d1 IH|d1 IH|d1 IH|d1 IH|d1 IH|d1 IH
                               |d1 IH|d1 IH|d1 IH|d1 IH|d1 IH|d1 IH|d1 IH|d1 IH];
    intros [|d2|d2|d2|d2|d2|d2|d2|d2|d2|d2|d2|d2|d2|d2|d2|d2]; cbn [hex_string];
    intros H; try discriminate H; try reflexivity;
    injection H as H; f_equal; by apply IH.
Qed.

Lemma format_x_inj (a b : N) : format_x a = format_x b -> a = b.
Proof.
  unfold format_x. intros H%hex_string_inj. by apply Unsigned.to_uint_inj.
Qed.

Lemma hex_string_no_colon (d : Hexadecimal.uint) :
  forallb (fun c => negb (Ascii.eqb c ":"))
    (list_ascii_of_string (hex_string false d)) = true.
Proof. induction d; cbn [hex_string list_ascii_of_string forallb]; by rewrite ?IHd. Qed.

Lemma format_x_not_empty (n : N) : format_x n <> "".
Proof.
  unfold format_x. intros H.
  assert (Hnil : N.to_hex_uint n = Hexadecimal.Nil) by by apply hex_string_inj.
  pose proof (Unsigned.of_to n) as Hn. rewrite Hnil in Hn. cbn in Hn. by subst n.
Qed.

Lemma split_from_last (sep : ascii) (field cur : string) :
  forallb (fun c => negb (Ascii.eqb c sep)) (list_ascii_of_string field) = true ->
  split_from sep cur field = [(String.rev cur ++ field)%string].
Proof.
  revert cur. induction field as [|c field IH]; intros cur Hfield.
  - cbn [split_from]. by rewrite string_app_nil_r.
  - cbn [list_ascii_of_string forallb] in Hfield.
    apply andb_prop in Hfield as [Hc Hfield]. cbn [split_from].
    destruct (Ascii.eqb c sep); [done|]. by rewrite IH, rev_cons_app.
Qed.

(** [sep.join(l).split(sep)] is [l] when no field holds [sep]. *)
Lemma split_join (sep : ascii) (l : list string) :
  l <> [] ->
  Forall (fun field =>
            forallb (fun c => negb (Ascii.eqb c sep)) (list_ascii_of_string field)
            = true) l ->
  split sep (join (String sep "") l) = l.
Proof.
  intros Hne Hfields. unfold split, join.
  induction Hfields as [|x l Hx Hl IH]; [done|]. clear Hne.
  destruct l as [|y l].
  - cbn [String.concat]. by apply (split_from_last sep x "").
  - change (String.concat ?p (?a :: ?b :: ?k))
      with (a ++ p ++ String.concat p (b :: k))%string.
    change (String sep "" ++ ?s)%string with (String sep s).
    rewrite (split_from_field sep x "" _ Hx). f_equal. by apply IH.
Qed.

Lemma join_nil_inv (sep : string) (l : list string) :
  Forall (fun field => field <> "") l -> join sep l = "" -> l = [].
Proof.
  intros Hfields. destruct Hfields as [|x l Hx _]; [done|].
  unfold join. destruct l as [|y l]; cbn [String.concat]; [done|].
  destruct x; [done|]. by rewrite string_app_cons.
Qed.

(** X26.  Two [chaddr] values that [chaddr_to_mac] renders as the same
    text have the same first six bytes: although bytes below [0x10] lose
    their leading zero, the text of one hardware address is never that of
    another. *)
Theorem chaddr_to_mac_inj (chaddr1 chaddr2 : list N) :
  chaddr_to_mac chaddr1 = chaddr_to_mac chaddr2 ->
  slice chaddr1 0 6 = slice chaddr2 0 6.
Proof.
  unfold chaddr_to_mac.
  generalize (slice chaddr1 0 6) (slice chaddr2 0 6). intros l1 l2 Hjoin.
  assert (Hfields : forall l : list N,
            Forall (fun field =>
                      forallb (fun c => negb (Ascii.eqb c ":"))
                        (list_ascii_of_string field) = true) (format_x <$> l)).
  { intros l. apply Forall_fmap, Forall_true. intros n. apply hex_string_no_colon. }
  assert (Hfull : forall l : list N, Forall (fun field => field <> "") (format_x <$> l)).
  { intros l. apply Forall_fmap, Forall_true. intros n. apply format_x_not_empty. }
  assert (Hmap : format_x <$> l1 = format_x <$> l2).
  { destruct (decide (format_x <$> l1 = [])) as [H1|H1].
    - rewrite H1 in Hjoin |- *. symmetry. symmetry in Hjoin.
      by apply (join_nil_inv ":" _ (Hfull l2)).
    - destruct (decide (format_x <$> l2 = [])) as [H2|H2].
      + rewrite H2 in Hjoin |- *. by apply (join_nil_inv ":" _ (Hfull l1)).
      + rewrite <- (split_join ":" _ H1 (Hfields l1)).
        rewrite <- (split_join ":" _ H2 (Hfields l2)). by rewrite Hjoin. }
  assert (Hinj : Inj (=) (=) format_x) by (intros a b; apply format_x_inj).
  by apply (inj (fmap format_x)).
Qed.

(** X26 at two [chaddr] values that differ in their padding only. *)
Lemma chaddr_to_mac_inj_witness :
  slice (mac_0a ++ replicate 10 0) 0 6 = slice (mac_0a ++ [1; 2; 3]) 0 6.
Proof.
  apply (chaddr_to_mac_inj (mac_0a ++ replicate 10 0) (mac_0a ++ [1; 2; 3])).
  reflexivity.
Defined.
